(** * BERT SQuAD preprocessing ([scripts/bert_SQuAD/dataset.py])

    A shallow embedding of the SQuAD reader ([SQuAD._read]), of the feature
    transform ([SQuADTransform._transform]) and of its two helpers
    ([_improve_answer_span], [_check_is_max_context]), followed by the
    properties of the windowing, labelling and max-context logic.

    Python integers are [Z]; Python lists are [list]; a Python [str] is the
    list of its Unicode code points; Python floats are IEEE 754 binary64
    values, taken from the specification of floating-point arithmetic of the
    Standard Library ([SpecFloat], precision 53, emax 1024). *)

From Stdlib Require Import ZArith List Bool Lia String Ascii QArith.
From Stdlib Require Import SpecFloat.
Import ListNotations.
Local Open Scope Z_scope.

(** ** Python values *)

Module Py.

(** A [str] is a sequence of code points. *)
Definition codepoint := Z.
Definition str := list codepoint.

Definition str_eqb (a b : str) : bool :=
  if list_eq_dec Z.eq_dec a b then true else false.

(** ASCII literals, for the examples. *)
Definition of_string (s : string) : str :=
  map (fun c => Z.of_nat (nat_of_ascii c)) (list_ascii_of_string s).

(** [len(l)] *)
Definition len {A} (l : list A) : Z := Z.of_nat (List.length l).

(** Exceptions the embedded code can raise. *)
Inductive exn := IndexError | ValueError | AssertionError | TypeError | OverflowError.

(** The outcome of a call: a value or a raised exception. *)
Inductive result (A : Type) :=
| Return (a : A)
| Raise (e : exn).
Arguments Return {A} a.
Arguments Raise {A} e.

Definition bind {A B} (m : result A) (k : A -> result B) : result B :=
  match m with
  | Return a => k a
  | Raise e => Raise e
  end.

(** [l[i]]: negative indices count from the end, anything out of range
    raises [IndexError]. *)
Definition index {A} (l : list A) (i : Z) : result A :=
  let j := if i <? 0 then i + len l else i in
  if j <? 0 then Raise IndexError
  else match nth_error l (Z.to_nat j) with
       | Some a => Return a
       | None => Raise IndexError
       end.

(** How a slice bound is normalised: a negative bound counts from the end,
    and the result is clamped to [0, len]. *)
Definition clamp (n : Z) (i : Z) : Z :=
  let j := if i <? 0 then i + n else i in
  Z.max 0 (Z.min n j).

(** [l[a:b]] *)
Definition slice {A} (l : list A) (a b : Z) : list A :=
  let a' := clamp (len l) a in
  let b' := clamp (len l) b in
  firstn (Z.to_nat (b' - a')) (skipn (Z.to_nat a') l).

(** [sep.join(l)] *)
Fixpoint join (sep : str) (l : list str) : str :=
  match l with
  | [] => []
  | [w] => w
  | w :: l' => w ++ sep ++ join sep l'
  end.

(** [c.isspace()], the code points [str.split] and [str.strip] treat as
    white space. *)
Definition isspace (c : codepoint) : bool :=
  ((9 <=? c) && (c <=? 13)) || ((28 <=? c) && (c <=? 32))
  || (c =? 133) || (c =? 160) || (c =? 5760)
  || ((8192 <=? c) && (c <=? 8202))
  || (c =? 8232) || (c =? 8233) || (c =? 8239) || (c =? 8287) || (c =? 12288).

Fixpoint lstrip (s : str) : str :=
  match s with
  | [] => []
  | c :: s' => if isspace c then lstrip s' else s
  end.

(** [s.strip()] *)
Definition strip (s : str) : str := rev (lstrip (rev (lstrip s))).

(** [s.split()]: the maximal runs of non-space code points; [cur] is the run
    being read. *)
Fixpoint split_from (cur : str) (s : str) : list str :=
  match s with
  | [] => match cur with [] => [] | _ => [cur] end
  | c :: s' =>
      if isspace c
      then match cur with [] => split_from [] s' | _ => cur :: split_from [] s' end
      else split_from (cur ++ [c]) s'
  end.

Definition split (s : str) : list str := split_from [] s.

Fixpoint startswith (s sub : str) : bool :=
  match sub, s with
  | [], _ => true
  | _ :: _, [] => false
  | a :: sub', b :: s' => (a =? b) && startswith s' sub'
  end.

Fixpoint find_from (i : Z) (s sub : str) : Z :=
  if startswith s sub then i
  else match s with
       | [] => -1
       | _ :: s' => find_from (i + 1) s' sub
       end.

(** [s.find(sub)]: the lowest offset at which [sub] occurs in [s], or [-1]. *)
Definition find (s sub : str) : Z := find_from 0 s sub.

(** [d[k] = v] on a dict kept as an association list in insertion order. *)
Fixpoint dict_set {V} (d : list (Z * V)) (k : Z) (v : V) : list (Z * V) :=
  match d with
  | [] => [(k, v)]
  | (k', v') :: d' => if k' =? k then (k', v) :: d' else (k', v') :: dict_set d' k v
  end.

(** [enumerate(l)], counting from [i]. *)
Fixpoint enumerate_from {A} (i : Z) (l : list A) : list (Z * A) :=
  match l with
  | [] => []
  | a :: l' => (i, a) :: enumerate_from (i + 1) l'
  end.

Definition enumerate {A} (l : list A) : list (Z * A) := enumerate_from 0 l.

(** [range(a, b)] and [range(a, b, -1)] *)
Fixpoint range_from (a : Z) (n : nat) : list Z :=
  match n with
  | O => []
  | S n' => a :: range_from (a + 1) n'
  end.

Definition range (a b : Z) : list Z := range_from a (Z.to_nat (b - a)).

Fixpoint range_down_from (a : Z) (n : nat) : list Z :=
  match n with
  | O => []
  | S n' => a :: range_down_from (a - 1) n'
  end.

Definition range_down (a b : Z) : list Z := range_down_from a (Z.to_nat (a - b)).

(** A [for] loop that leaves the function at the first [return] of its body. *)
Fixpoint for_return {A B} (body : A -> option B) (l : list A) : option B :=
  match l with
  | [] => None
  | a :: l' =>
      match body a with
      | Some b => Some b
      | None => for_return body l'
      end
  end.

(** A [for] loop that threads a state and whose body may raise. *)
Fixpoint for_fold {A S} (body : S -> A -> result S) (l : list A) (s : S)
  : result S :=
  match l with
  | [] => Return s
  | a :: l' => bind (body s a) (for_fold body l')
  end.

(** A [for] loop whose body may raise: the results of the body, in order. *)
Fixpoint for_each {A B} (f : A -> result B) (l : list A) : result (list B) :=
  match l with
  | [] => Return []
  | a :: l' =>
      bind (f a) (fun b => bind (for_each f l') (fun bs => Return (b :: bs)))
  end.

End Py.

Import Py.

Notation "x <- m ;; k" := (bind m (fun x => k))
  (at level 61, m at next level, right associativity).

Definition space : str := [32].

(** ** Floats

    A Python [float] is a binary64 value.  Arithmetic on floats never raises;
    converting an [int] that is too large for a finite binary64 value raises
    [OverflowError]. *)

Module PyFloat.

Definition prec : Z := 53.
Definition emax : Z := 1024.
Definition float := spec_float.

(** The conversion of an [int] operand in mixed arithmetic: rounded to the
    nearest float, ties to even. *)
Definition of_int (z : Z) : result float :=
  match binary_normalize prec emax z 0 false with
  | S754_infinity _ => Raise OverflowError
  | f => Return f
  end.

Definition add : float -> float -> float := SFadd prec emax.
Definition mul : float -> float -> float := SFmul prec emax.

(** [a > b] *)
Definition gt (a b : float) : bool := SFltb b a.

(** The literal [0.01]: the binary64 value nearest to 1/100,
    [0x1.47ae147ae147bp-7]. *)
Definition lit_0_01 : float := S754_finite false 5764607523034235 (-59).

End PyFloat.

(** ** The window splitter (lines 304-315 of [_transform]) *)

Record DocSpan := mkDocSpan { start : Z; length : Z }.

(** How a run of the [while] loop stands: finished with its list of windows,
    or still running, with the current [start_offset] and the windows
    appended so far. *)
Inductive loop_result :=
| Finished (doc_spans : list DocSpan)
| Running (start_offset : Z) (doc_spans : list DocSpan).

(** The [while] loop over [start_offset]; [N] is [len(all_doc_tokens)].  The
    loop need not terminate, so the embedding runs at most [fuel] iterations
    of its body. *)
Fixpoint doc_spans_loop (fuel : nat) (N max_tokens_for_doc doc_stride : Z)
    (start_offset : Z) (doc_spans : list DocSpan) : loop_result :=
  if start_offset <? N then
    match fuel with
    | O => Running start_offset doc_spans
    | S fuel' =>
        let length := N - start_offset in
        let length := if length >? max_tokens_for_doc
                      then max_tokens_for_doc else length in
        let doc_spans := doc_spans ++ [mkDocSpan start_offset length] in
        if start_offset + length =? N then Finished doc_spans
        else doc_spans_loop fuel' N max_tokens_for_doc doc_stride
               (start_offset + Z.min length doc_stride) doc_spans
    end
  else Finished doc_spans.

Definition split_doc (fuel : nat) (N max_tokens_for_doc doc_stride : Z)
  : loop_result :=
  doc_spans_loop fuel N max_tokens_for_doc doc_stride 0 [].

(** The last index a window covers, [doc_span.start + doc_span.length - 1]. *)
Definition span_end (w : DocSpan) : Z := start w + length w - 1.

(** [position] lies in the window. *)
Definition in_span (w : DocSpan) (position : Z) : bool :=
  negb (position <? start w) && negb (position >? span_end w).

(** ** The max-context resolver ([_check_is_max_context]) *)

(** [min(num_left_context, num_right_context) + 0.01 * doc_span.length] *)
Definition span_score (doc_span : DocSpan) (position : Z)
  : result PyFloat.float :=
  let end_ := start doc_span + length doc_span - 1 in
  let num_left_context := position - start doc_span in
  let num_right_context := end_ - position in
  l <- PyFloat.of_int (length doc_span) ;;
  m <- PyFloat.of_int (Z.min num_left_context num_right_context) ;;
  Return (PyFloat.add m (PyFloat.mul PyFloat.lit_0_01 l)).

(** The body of the loop, on the state [(best_score, best_span_index)]. *)
Definition max_context_step (position : Z)
    (best : option PyFloat.float * option Z) (it : Z * DocSpan)
  : result (option PyFloat.float * option Z) :=
  let '(best_score, best_span_index) := best in
  let '(span_index, doc_span) := it in
  let end_ := start doc_span + length doc_span - 1 in
  if position <? start doc_span then Return best
  else if position >? end_ then Return best
  else
    score <- span_score doc_span position ;;
    if match best_score with
       | None => true
       | Some b => PyFloat.gt score b
       end
    then Return (Some score, Some span_index)
    else Return best.

Definition best_span (doc_spans : list DocSpan) (position : Z)
  : result (option PyFloat.float * option Z) :=
  for_fold (max_context_step position) (enumerate doc_spans) (None, None).

Definition _check_is_max_context (doc_spans : list DocSpan)
    (cur_span_index position : Z) : result bool :=
  best <- best_span doc_spans position ;;
  Return match snd best with
         | None => false
         | Some best_span_index => cur_span_index =? best_span_index
         end.

(** The score of the specification, in exact arithmetic:
    [min(p - window.start, window.end - p) + 0.01 * window.length]. *)
Definition exact_score (w : DocSpan) (p : Z) : Q :=
  (inject_Z (Z.min (p - start w) (span_end w - p))
   + (1 # 100) * inject_Z (length w))%Q.

(** ** The span aligner ([_improve_answer_span]) *)

Definition _improve_answer_span (doc_tokens : list str)
    (input_start input_end : Z) (tokenizer : str -> list str)
    (orig_answer_text : str) : Z * Z :=
  let tok_answer_text := join space (tokenizer orig_answer_text) in
  match
    for_return (fun new_start =>
      for_return (fun new_end =>
        let text_span := join space (slice doc_tokens new_start (new_end + 1)) in
        if str_eqb text_span tok_answer_text
        then Some (new_start, new_end)
        else None)
      (range_down input_end (new_start - 1)))
    (range input_start (input_end + 1))
  with
  | Some span => span
  | None => (input_start, input_end)
  end.

(** ** Examples and features ([SquadExample], [SquadFeature])

    A field that the constructor may leave at [None] is an [option]. *)

Module SquadExample.
Record t := mk {
  qas_id : str;
  question_text : str;
  doc_tokens : list str;
  example_id : Z;
  orig_answer_text : option str;
  start_position : option Z;
  end_position : option Z;
  is_impossible : bool
}.
End SquadExample.

Module SquadFeature.
Record t := mk {
  example_id : Z;
  qas_id : str;
  doc_tokens : list str;
  doc_span_index : Z;
  tokens : list str;
  token_to_orig_map : list (Z * Z);
  token_is_max_context : list (Z * bool);
  input_ids : list Z;
  valid_length : Z;
  segment_ids : list Z;
  start_position : Z;
  end_position : Z;
  is_impossible : bool
}.
End SquadFeature.

(** ** The reader ([SQuAD._read])

    The parsed JSON, as typed records: the keys [_read] looks up are the
    fields, so a record that lacks a key (a [KeyError] in Python) is not an
    input of the embedding.  The line [_read] prints for a dropped question
    is left out. *)

Module Answer.
Record t := mk { text : str; answer_start : Z }.
End Answer.

Module QA.
Record t := mk {
  id : str;
  question : str;
  answers : list Answer.t;
  is_impossible : bool
}.
End QA.

Module Paragraph.
Record t := mk { context : str; qas : list QA.t }.
End Paragraph.

Module Entry.
Record t := mk { paragraphs : list Paragraph.t }.
End Entry.

Definition is_whitespace (c : codepoint) : bool :=
  (c =? 32) || (c =? 9) || (c =? 13) || (c =? 10) || (c =? 8239).

(** [doc_tokens[-1] += c].  The list is never empty where the reader does
    this ([segment_tokens_nonempty]). *)
Fixpoint append_to_last (doc_tokens : list str) (c : codepoint) : list str :=
  match doc_tokens with
  | [] => []
  | [w] => [w ++ [c]]
  | w :: l => w :: append_to_last l c
  end.

(** The body of the loop over the characters of the paragraph (lines
    157-166), on the state
    [(doc_tokens, char_to_word_offset, prev_is_whitespace)]. *)
Definition segment_step (st : list str * list Z * bool) (c : codepoint)
  : list str * list Z * bool :=
  let '(doc_tokens, char_to_word_offset, prev_is_whitespace) := st in
  let '(doc_tokens, prev_is_whitespace) :=
    if is_whitespace c then (doc_tokens, true)
    else ((if prev_is_whitespace
           then doc_tokens ++ [[c]]
           else append_to_last doc_tokens c), false) in
  (doc_tokens, char_to_word_offset ++ [len doc_tokens - 1], prev_is_whitespace).

Definition segment (paragraph_text : str) : list str * list Z * bool :=
  fold_left segment_step paragraph_text ([], [], true).

(** [whitespace_tokenize] *)
Definition whitespace_tokenize (text : str) : list str :=
  let text := strip text in
  match text with
  | [] => []
  | _ => split text
  end.

Section Reader.

Variables is_training version_2 : bool.

(** The body of the loop over the questions of a paragraph (lines 169-219):
    the example to append, or [None] where the body ends in [continue]. *)
Definition read_qa (doc_tokens : list str) (char_to_word_offset : list Z)
    (example_id : Z) (qa : QA.t) : result (option SquadExample.t) :=
  let qas_id := QA.id qa in
  let question_text := QA.question qa in
  if is_training then
    let is_impossible := if version_2 then QA.is_impossible qa else false in
    if negb (len (QA.answers qa) =? 1) && negb is_impossible
    then Raise ValueError
    else if negb is_impossible then
      answer <- index (QA.answers qa) 0 ;;
      let orig_answer_text := Answer.text answer in
      let answer_offset := Answer.answer_start answer in
      let answer_length := len orig_answer_text in
      start_position <- index char_to_word_offset answer_offset ;;
      end_position <- index char_to_word_offset
                        (answer_offset + answer_length - 1) ;;
      let actual_text :=
        join space (slice doc_tokens start_position (end_position + 1)) in
      let cleaned_answer_text :=
        join space (whitespace_tokenize orig_answer_text) in
      if find actual_text cleaned_answer_text =? -1
      then Return None
      else Return (Some (SquadExample.mk qas_id question_text doc_tokens
                           example_id (Some orig_answer_text)
                           (Some start_position) (Some end_position)
                           is_impossible))
    else Return (Some (SquadExample.mk qas_id question_text doc_tokens
                         example_id (Some []) (Some (-1)) (Some (-1))
                         is_impossible))
  else Return (Some (SquadExample.mk qas_id question_text doc_tokens
                       example_id None None None false)).

(** The three nested loops, on the state [(examples, example_id)]. *)
Definition read_qas_step (doc_tokens : list str) (char_to_word_offset : list Z)
    (st : list SquadExample.t * Z) (qa : QA.t)
  : result (list SquadExample.t * Z) :=
  let '(examples, example_id) := st in
  r <- read_qa doc_tokens char_to_word_offset example_id qa ;;
  match r with
  | None => Return (examples, example_id)
  | Some example => Return (examples ++ [example], example_id + 1)
  end.

Definition read_paragraph (st : list SquadExample.t * Z)
    (paragraph : Paragraph.t) : result (list SquadExample.t * Z) :=
  let paragraph_text := Paragraph.context paragraph in
  let '(doc_tokens, char_to_word_offset, _) := segment paragraph_text in
  for_fold (read_qas_step doc_tokens char_to_word_offset)
    (Paragraph.qas paragraph) st.

Definition read_entry (st : list SquadExample.t * Z) (entry : Entry.t)
  : result (list SquadExample.t * Z) :=
  for_fold read_paragraph (Entry.paragraphs entry) st.

Definition _read (input_data : list Entry.t) : result (list SquadExample.t) :=
  st <- for_fold read_entry input_data ([], 0) ;;
  Return (fst st).

End Reader.

(** ** The transform ([SQuADTransform._transform]) *)

(** The tokenizer, whose code is not in this file: called on a text it
    gives the sub-tokens, and its vocabulary gives the id of a token. *)
Record BERTTokenizer := mkTokenizer {
  tokenize : str -> list str;
  token_to_idx : str -> Z
}.

(** Modelled from the spec: [convert_tokens_to_ids] belongs to the tokenizer
    and is not in this file; the tokenizer maps each sub-token to its integer
    id, so the ids of a list of tokens are the ids of its tokens, in order. *)
Definition convert_tokens_to_ids (tokenizer : BERTTokenizer)
    (tokens : list str) : list Z :=
  map (token_to_idx tokenizer) tokens.

Record SQuADTransform := mkTransform {
  tokenizer : BERTTokenizer;
  max_seq_length : Z;
  doc_stride : Z;
  max_query_length : Z;
  is_training : bool
}.

Definition CLS : str := of_string "[CLS]".
Definition SEP : str := of_string "[SEP]".

(** A value that must not be [None] where it is used. *)
Definition not_none {A} (o : option A) : result A :=
  match o with
  | Some a => Return a
  | None => Raise TypeError
  end.

Section Transform.

Variable self : SQuADTransform.

(** Lines 267-270. *)
Definition query_tokens_of (example : SquadExample.t) : list str :=
  let query_tokens := tokenize (tokenizer self) (SquadExample.question_text example) in
  if len query_tokens >? max_query_length self
  then slice query_tokens 0 (max_query_length self)
  else query_tokens.

(** Lines 272-280, on the state
    [(tok_to_orig_index, orig_to_tok_index, all_doc_tokens)]. *)
Definition sub_token_step (i : Z) (st : list Z * list str) (sub_token : str)
  : list Z * list str :=
  let '(tok_to_orig_index, all_doc_tokens) := st in
  (tok_to_orig_index ++ [i], all_doc_tokens ++ [sub_token]).

Definition doc_token_step (st : list Z * list Z * list str) (it : Z * str)
  : list Z * list Z * list str :=
  let '(tok_to_orig_index, orig_to_tok_index, all_doc_tokens) := st in
  let '(i, token) := it in
  let orig_to_tok_index := orig_to_tok_index ++ [len all_doc_tokens] in
  let sub_tokens := tokenize (tokenizer self) token in
  let '(tok_to_orig_index, all_doc_tokens) :=
    fold_left (sub_token_step i) sub_tokens (tok_to_orig_index, all_doc_tokens) in
  (tok_to_orig_index, orig_to_tok_index, all_doc_tokens).

Definition sub_tokenize (doc_tokens : list str) : list Z * list Z * list str :=
  fold_left doc_token_step (enumerate doc_tokens) ([], [], []).

(** Lines 282-296: [(tok_start_position, tok_end_position)], or [None] where
    both stay [None]. *)
Definition tok_positions (example : SquadExample.t)
    (orig_to_tok_index : list Z) (all_doc_tokens : list str)
  : result (option (Z * Z)) :=
  if is_training self && SquadExample.is_impossible example
  then Return (Some (-1, -1))
  else if is_training self && negb (SquadExample.is_impossible example) then
    start_position <- not_none (SquadExample.start_position example) ;;
    tok_start_position <- index orig_to_tok_index start_position ;;
    end_position <- not_none (SquadExample.end_position example) ;;
    tok_end_position <-
      (if end_position <? len (SquadExample.doc_tokens example) - 1
       then
         t <- index orig_to_tok_index (end_position + 1) ;;
         Return (t - 1)
       else Return (len all_doc_tokens - 1)) ;;
    orig_answer_text <- not_none (SquadExample.orig_answer_text example) ;;
    Return (Some (_improve_answer_span all_doc_tokens tok_start_position
                    tok_end_position (tokenize (tokenizer self))
                    orig_answer_text))
  else Return None.

(** Lines 330-339, on the state
    [(tokens, token_to_orig_map, token_is_max_context, segment_ids)]. *)
Definition window_token_step (tok_to_orig_index : list Z)
    (all_doc_tokens : list str) (doc_spans : list DocSpan)
    (doc_span_index : Z) (doc_span : DocSpan)
    (st : list str * list (Z * Z) * list (Z * bool) * list Z) (i : Z)
  : result (list str * list (Z * Z) * list (Z * bool) * list Z) :=
  let '(tokens, token_to_orig_map, token_is_max_context, segment_ids) := st in
  let split_token_index := start doc_span + i in
  orig <- index tok_to_orig_index split_token_index ;;
  let token_to_orig_map := dict_set token_to_orig_map (len tokens) orig in
  is_max_context <-
    _check_is_max_context doc_spans doc_span_index split_token_index ;;
  let token_is_max_context :=
    dict_set token_is_max_context (len tokens) is_max_context in
  token <- index all_doc_tokens split_token_index ;;
  Return (tokens ++ [token], token_to_orig_map, token_is_max_context,
          segment_ids ++ [1]).

(** Lines 357-378. *)
Definition label_positions (example : SquadExample.t) (query_tokens : list str)
    (tok : option (Z * Z)) (doc_span : DocSpan) : result (Z * Z) :=
  let start_position := 0 in
  let end_position := 0 in
  pos <-
    (if is_training self && negb (SquadExample.is_impossible example) then
       t <- not_none tok ;;
       let '(tok_start_position, tok_end_position) := t in
       let doc_start := start doc_span in
       let doc_end := start doc_span + length doc_span - 1 in
       let out_of_span :=
         negb ((tok_start_position >=? doc_start)
               && (tok_end_position <=? doc_end)) in
       if out_of_span then Return (0, 0)
       else
         let doc_offset := len query_tokens + 2 in
         Return (tok_start_position - doc_start + doc_offset,
                 tok_end_position - doc_start + doc_offset)
     else Return (start_position, end_position)) ;;
  if is_training self && SquadExample.is_impossible example
  then Return (0, 0)
  else Return pos.

(** The body of the loop over the windows (lines 318-391). *)
Definition make_feature (example : SquadExample.t) (query_tokens : list str)
    (tok_to_orig_index : list Z) (all_doc_tokens : list str)
    (tok : option (Z * Z)) (doc_spans : list DocSpan) (it : Z * DocSpan)
  : result SquadFeature.t :=
  let '(doc_span_index, doc_span) := it in
  let tokens := [CLS] in
  let segment_ids := [0] in
  let '(tokens, segment_ids) :=
    fold_left (fun '(tokens, segment_ids) token =>
                 (tokens ++ [token], segment_ids ++ [0]))
      query_tokens (tokens, segment_ids) in
  let tokens := tokens ++ [SEP] in
  let segment_ids := segment_ids ++ [0] in
  st <- for_fold (window_token_step tok_to_orig_index all_doc_tokens
                    doc_spans doc_span_index doc_span)
          (range 0 (length doc_span)) (tokens, [], [], segment_ids) ;;
  let '(tokens, token_to_orig_map, token_is_max_context, segment_ids) := st in
  let tokens := tokens ++ [SEP] in
  let segment_ids := segment_ids ++ [1] in
  let input_ids := convert_tokens_to_ids (tokenizer self) tokens in
  let valid_length := len input_ids in
  let padding := repeat 0 (Z.to_nat (max_seq_length self - len input_ids)) in
  let input_ids := input_ids ++ padding in
  let segment_ids := segment_ids ++ padding in
  if negb (len input_ids =? max_seq_length self) then Raise AssertionError
  else if negb (len segment_ids =? max_seq_length self) then Raise AssertionError
  else
    pos <- label_positions example query_tokens tok doc_span ;;
    let '(start_position, end_position) := pos in
    Return (SquadFeature.mk (SquadExample.example_id example)
              (SquadExample.qas_id example)
              (SquadExample.doc_tokens example)
              doc_span_index tokens token_to_orig_map token_is_max_context
              input_ids valid_length segment_ids
              start_position end_position
              (SquadExample.is_impossible example)).

(** [_transform]: [None] where the window loop is still running after [fuel]
    iterations. *)
Definition _transform (fuel : nat) (example : SquadExample.t)
  : option (result (list SquadFeature.t)) :=
  let query_tokens := query_tokens_of example in
  let '(tok_to_orig_index, orig_to_tok_index, all_doc_tokens) :=
    sub_tokenize (SquadExample.doc_tokens example) in
  match tok_positions example orig_to_tok_index all_doc_tokens with
  | Raise e => Some (Raise e)
  | Return tok =>
      let max_tokens_for_doc := max_seq_length self - len query_tokens - 3 in
      match split_doc fuel (len all_doc_tokens) max_tokens_for_doc
              (doc_stride self) with
      | Running _ _ => None
      | Finished doc_spans =>
          Some (for_each (make_feature example query_tokens tok_to_orig_index
                            all_doc_tokens tok doc_spans)
                  (enumerate doc_spans))
      end
  end.

End Transform.

(** ** Vocabulary of the statements *)

(** The windows of a run that starts at [s]: each one starts where the loop
    stands, all but the last have the full length [M] and are followed by a
    window that starts further right but not beyond their end, and the last
    one ends at [N]. *)
Inductive window_chain (N M stride : Z) : Z -> list DocSpan -> Prop :=
| chain_last s :
    0 <= s -> s < N -> N - s <= M ->
    window_chain N M stride s [mkDocSpan s (N - s)]
| chain_next s l :
    0 <= s -> 1 <= M -> M < N - s -> 1 <= stride ->
    window_chain N M stride (s + Z.min M stride) l ->
    window_chain N M stride s (mkDocSpan s M :: l).

(** The answer span in sub-token space that [_transform] labels the features
    with: [(tok_start_position, tok_end_position)] after [_improve_answer_span]. *)
Definition aligned_span (self : SQuADTransform) (example : SquadExample.t)
  : result (option (Z * Z)) :=
  let '(_, orig_to_tok_index, all_doc_tokens) :=
    sub_tokenize self (SquadExample.doc_tokens example) in
  tok_positions self example orig_to_tok_index all_doc_tokens.

(** [len(all_doc_tokens)] *)
Definition sub_token_count (self : SQuADTransform) (example : SquadExample.t) : Z :=
  len (snd (sub_tokenize self (SquadExample.doc_tokens example))).

(** [max_tokens_for_doc] *)
Definition max_tokens_for_doc (self : SQuADTransform) (example : SquadExample.t) : Z :=
  max_seq_length self - len (query_tokens_of self example) - 3.

(** Floats that are not negative and not NaN: the values scores take. *)
Definition nonneg_float (f : PyFloat.float) : Prop :=
  match f with
  | S754_zero false | S754_finite false _ _ | S754_infinity false => True
  | _ => False
  end.

(** The order of non-negative floats is the lexicographic order of these
    keys. *)
Definition float_key (f : PyFloat.float) : Z * Z * Z :=
  match f with
  | S754_zero _ => (0, 0, 0)
  | S754_finite _ m e => (1, e, Zpos m)
  | S754_infinity _ => (2, 0, 0)
  | S754_nan => (3, 0, 0)
  end.

Definition key_lt (a b : Z * Z * Z) : Prop :=
  let '(a1, a2, a3) := a in
  let '(b1, b2, b3) := b in
  a1 < b1 \/ (a1 = b1 /\ (a2 < b2 \/ (a2 = b2 /\ a3 < b3))).

(** Window [b] of [doc_spans] contains [p], has the float score [s] there,
    no window containing [p] has a greater score, and every such window of
    lower index has a smaller one. *)
Definition owner_with_score (doc_spans : list DocSpan) (b : Z) (p : Z)
    (s : PyFloat.float) : Prop :=
  0 <= b /\
  exists w, nth_error doc_spans (Z.to_nat b) = Some w /\
    in_span w p = true /\ span_score w p = Return s /\
    forall j wj, nth_error doc_spans j = Some wj -> in_span wj p = true ->
      exists sj, span_score wj p = Return sj /\
        PyFloat.gt sj s = false /\
        (Z.of_nat j < b -> PyFloat.gt s sj = true).

(** The same with the score of the specification, in exact arithmetic. *)
Definition exact_owner (doc_spans : list DocSpan) (b : Z) (p : Z) : Prop :=
  0 <= b /\
  exists w, nth_error doc_spans (Z.to_nat b) = Some w /\
    in_span w p = true /\
    forall j wj, nth_error doc_spans j = Some wj -> in_span wj p = true ->
      (exact_score wj p <= exact_score w p)%Q /\
      (Z.of_nat j < b -> (exact_score wj p < exact_score w p)%Q).

(** What the loop of [_check_is_max_context] knows after the windows [pre]. *)
Definition best_inv (p : Z) (pre : list DocSpan)
    (st : option PyFloat.float * option Z) : Prop :=
  match st with
  | (None, None) => forall w, In w pre -> in_span w p = false
  | (Some s, Some b) => nonneg_float s /\ owner_with_score pre b p s
  | _ => False
  end.

(** What the segmenter guarantees about [char_to_word_offset]: one entry per
    character, each between -1 and the index of the last word, never
    decreasing, and not negative from the first character on that is not
    white space. *)
Definition segment_inv (paragraph_text : str)
    (st : list str * list Z * bool) : Prop :=
  let '(doc_tokens, char_to_word_offset, prev_is_whitespace) := st in
  List.length char_to_word_offset = List.length paragraph_text /\
  (forall i v, nth_error char_to_word_offset i = Some v ->
     -1 <= v <= len doc_tokens - 1) /\
  (forall i j vi vj, (i <= j)%nat ->
     nth_error char_to_word_offset i = Some vi ->
     nth_error char_to_word_offset j = Some vj -> vi <= vj) /\
  (forall i j c v, (i <= j)%nat ->
     nth_error paragraph_text i = Some c -> is_whitespace c = false ->
     nth_error char_to_word_offset j = Some v -> 0 <= v) /\
  (prev_is_whitespace = false -> doc_tokens <> []).

(** The question records of the input, in the order [_read] meets them. *)
Definition all_questions (input_data : list Entry.t) : list QA.t :=
  flat_map (fun entry => flat_map Paragraph.qas (Entry.paragraphs entry))
    input_data.


(** The word span of an example is in range and ordered. *)
Definition word_span_ok (example : SquadExample.t) : Prop :=
  exists start_word end_word,
    SquadExample.start_position example = Some start_word /\
    SquadExample.end_position example = Some end_word /\
    0 <= start_word /\ start_word <= end_word /\
    end_word < len (SquadExample.doc_tokens example).

(** The counter is the number of examples kept so far, and every example
    kept so far carries its position in the list. *)
Definition dense (st : list SquadExample.t * Z) : Prop :=
  snd st = len (fst st) /\
  forall i example, nth_error (fst st) i = Some example ->
    SquadExample.example_id example = Z.of_nat i.

(** ** Inputs of the examples *)

Module Examples.

(** The paragraph "ab cd" with two questions: the answer of the first is not
    in the paragraph, the answer of the second is the word "cd". *)
Definition q1 : QA.t :=
  QA.mk (of_string "q1") (of_string "who") [Answer.mk (of_string "xy") 0] false.
Definition q2 : QA.t :=
  QA.mk (of_string "q2") (of_string "what") [Answer.mk (of_string "cd") 3] false.
Definition two_questions : list Entry.t :=
  [Entry.mk [Paragraph.mk (of_string "ab cd") [q1; q2]]].

(** One question on "ab cd" with an answer inside the paragraph. *)
Definition one_question : list Entry.t :=
  [Entry.mk [Paragraph.mk (of_string "ab cd") [q2]]].




End Examples.

Module TransformExamples.

(** A tokenizer for the examples: it removes the zero-width spaces (U+200B)
    of a word, as the cleaning step of a BERT tokenizer does, and gives what
    is left as one sub-token, or no sub-token where nothing is left.  The id
    of a token is its length. *)
Definition tokenizer : BERTTokenizer :=
  mkTokenizer
    (fun text => match filter (fun c => negb (c =? 8203)) text with
                 | [] => []
                 | w => [w]
                 end)
    (fun token => len token).

(** The question "who" on the document [ab cd]. *)
Definition example : SquadExample.t :=
  SquadExample.mk (of_string "q1") (of_string "who")
    [of_string "ab"; of_string "cd"] 0 None None None false.

(** The same question with the answer "cd", the word 1. *)
Definition labelled : SquadExample.t :=
  SquadExample.mk (of_string "q1") (of_string "who")
    [of_string "ab"; of_string "cd"] 0 (Some (of_string "cd"))
    (Some 1) (Some 1) false.


(** [max_seq_length = 10], [doc_stride = 2], [max_query_length = 64]. *)
Definition training : SQuADTransform := mkTransform tokenizer 10 2 64 true.
Definition inference : SQuADTransform := mkTransform tokenizer 10 2 64 false.

(** [max_seq_length = 4] leaves [4 - 1 - 3 = 0] positions for the document. *)
Definition too_short : SQuADTransform := mkTransform tokenizer 4 2 64 false.

(** The feature of [labelled] in training mode: one window, the answer at
    position 4 of [tokens]. *)
Definition labelled_feature : SquadFeature.t :=
  SquadFeature.mk 0 (of_string "q1") [of_string "ab"; of_string "cd"] 0
    [CLS; of_string "who"; SEP; of_string "ab"; of_string "cd"; SEP]
    [(3, 0); (4, 1)] [(3, true); (4, true)]
    [5; 3; 5; 2; 2; 5; 0; 0; 0; 0] 6
    [0; 0; 0; 1; 1; 1; 0; 0; 0; 0] 4 4 false.

End TransformExamples.

(** ** Further code of the file *)

(** [d.get(k)] on a dict kept as an association list. *)
Fixpoint dict_get {V} (d : list (Z * V)) (k : Z) : option V :=
  match d with
  | [] => None
  | (k', v) :: d' => if k' =? k then Some v else dict_get d' k
  end.

(** [SQuADTransform.__call__] (lines 394-408): the features of [_transform],
    each flattened to
    [[example_id, input_ids, segment_ids, valid_length, start_position,
      end_position]]. *)
Definition __call__ (self : SQuADTransform) (fuel : nat)
    (example : SquadExample.t)
  : option (result (list (Z * list Z * list Z * Z * Z * Z))) :=
  match _transform self fuel example with
  | None => None
  | Some (Raise e) => Some (Raise e)
  | Some (Return examples) =>
      Some (Return
        (map (fun _example =>
                (SquadFeature.example_id _example,
                 SquadFeature.input_ids _example,
                 SquadFeature.segment_ids _example,
                 SquadFeature.valid_length _example,
                 SquadFeature.start_position _example,
                 SquadFeature.end_position _example))
           examples))
  end.

(** The step of the window loop once window size and stride are at least 1. *)
Definition effective_stride (max_tokens_for_doc doc_stride : Z) : Z :=
  Z.min max_tokens_for_doc doc_stride.

(** The characters of the paragraph that are not white space and that
    [char_to_word_offset] maps to the word [k], in order. *)
Definition chars_of_word (paragraph_text : str) (char_to_word_offset : list Z)
    (k : Z) : str :=
  map fst
    (filter (fun cv => negb (is_whitespace (fst cv)) && (snd cv =? k))
       (combine paragraph_text char_to_word_offset)).

(** What the segmenter guarantees about the words: each is the sequence of
    the characters mapped to it, and none is empty. *)
Definition segment_words_inv (paragraph_text : str)
    (st : list str * list Z * bool) : Prop :=
  let '(doc_tokens, char_to_word_offset, _) := st in
  forall k, (k < List.length doc_tokens)%nat ->
    nth_error doc_tokens k
      = Some (chars_of_word paragraph_text char_to_word_offset (Z.of_nat k)) /\
    chars_of_word paragraph_text char_to_word_offset (Z.of_nat k) <> [].

(** Before the first character that is not white space there is no word,
    and the offsets are -1. *)
Definition segment_blank_inv (paragraph_text : str)
    (st : list str * list Z * bool) : Prop :=
  let '(doc_tokens, char_to_word_offset, _) := st in
  ((forall c, In c paragraph_text -> is_whitespace c = true) ->
   doc_tokens = []) /\
  (forall j v, nth_error char_to_word_offset j = Some v ->
     (forall i c, (i <= j)%nat -> nth_error paragraph_text i = Some c ->
                  is_whitespace c = true) ->
     v = -1).

(** A token of [whitespace_tokenize]: not empty and free of white space. *)
Definition clean_token (w : str) : Prop :=
  w <> [] /\ Forall (fun c => isspace c = false) w.

(** The answer of an answerable example can be read off its words: the
    cleaned answer text occurs in the words [start_position .. end_position]
    joined with single spaces. *)
Definition recoverable (example : SquadExample.t) : Prop :=
  exists start_word end_word answer_text pre post,
    SquadExample.start_position example = Some start_word /\
    SquadExample.end_position example = Some end_word /\
    SquadExample.orig_answer_text example = Some answer_text /\
    join space (slice (SquadExample.doc_tokens example) start_word
                  (end_word + 1))
    = pre ++ join space (whitespace_tokenize answer_text) ++ post.

(** An example without labels, as the reader builds them outside training. *)
Definition unlabelled (example : SquadExample.t) : Prop :=
  SquadExample.orig_answer_text example = None /\
  SquadExample.start_position example = None /\
  SquadExample.end_position example = None /\
  SquadExample.is_impossible example = false.

Module ReaderExamples.

(** A question with two answers. *)
Definition two_answers : QA.t :=
  QA.mk (of_string "q6") (of_string "what")
    [Answer.mk (of_string "ab") 0; Answer.mk (of_string "cd") 3] false.

(** The question with two answers after a question with one. *)
Definition second_two_answers : Paragraph.t :=
  Paragraph.mk (of_string "ab cd") [Examples.q2; two_answers].

(** A question of SQuAD 2.0 that has no answer in the paragraph. *)
Definition impossible_question : list Entry.t :=
  [Entry.mk [Paragraph.mk (of_string "ab cd")
     [QA.mk (of_string "q7") (of_string "why") [] true]]].

Definition impossible_example : SquadExample.t :=
  SquadExample.mk (of_string "q7") (of_string "why")
    [of_string "ab"; of_string "cd"] 0 (Some []) (Some (-1)) (Some (-1)) true.

(** The example read from [Examples.one_question] outside training. *)
Definition unlabelled_example : SquadExample.t :=
  SquadExample.mk (of_string "q2") (of_string "what")
    [of_string "ab"; of_string "cd"] 0 None None None false.



End ReaderExamples.


(** The index of the first sub-token of each word, counting from [n]. *)
Fixpoint word_offsets (tokenize : str -> list str) (n : Z)
    (doc_tokens : list str) : list Z :=
  match doc_tokens with
  | [] => []
  | token :: doc_tokens' =>
      n :: word_offsets tokenize (n + len (tokenize token)) doc_tokens'
  end.

(** The word index of each sub-token: the index of a word, once per
    sub-token of the word. *)
Definition word_indices (tokenize : str -> list str)
    (words : list (Z * str)) : list Z :=
  flat_map (fun it => repeat (fst it) (List.length (tokenize (snd it)))) words.

(** [all_doc_tokens] and [tok_to_orig_index] of an example. *)
Definition all_doc_tokens (self : SQuADTransform) (example : SquadExample.t)
  : list str :=
  snd (sub_tokenize self (SquadExample.doc_tokens example)).

Definition tok_to_orig_index (self : SQuADTransform)
    (example : SquadExample.t) : list Z :=
  fst (fst (sub_tokenize self (SquadExample.doc_tokens example))).

(** The windows of a finished run of [_transform] on an example. *)
Definition windows_of (self : SQuADTransform) (fuel : nat)
    (example : SquadExample.t) (doc_spans : list DocSpan) : Prop :=
  split_doc fuel (sub_token_count self example)
    (max_tokens_for_doc self example) (doc_stride self) = Finished doc_spans.

Module WindowExamples.

(** [max_seq_length = 5] leaves one position for the document after the
    one-token query "who": the document [ab cd] gets the windows [(0, 1)]
    and [(1, 1)]. *)
Definition narrow : SQuADTransform :=
  mkTransform TransformExamples.tokenizer 5 1 64 true.

Definition first_feature : SquadFeature.t :=
  SquadFeature.mk 0 (of_string "q1") [of_string "ab"; of_string "cd"] 0
    [CLS; of_string "who"; SEP; of_string "ab"; SEP]
    [(3, 0)] [(3, true)]
    [5; 3; 5; 2; 5] 5
    [0; 0; 0; 1; 1] 0 0 false.

Definition second_feature : SquadFeature.t :=
  SquadFeature.mk 0 (of_string "q1") [of_string "ab"; of_string "cd"] 1
    [CLS; of_string "who"; SEP; of_string "cd"; SEP]
    [(3, 1)] [(3, true)]
    [5; 3; 5; 2; 5] 5
    [0; 0; 0; 1; 1] 3 3 false.

(** A stride of 0. *)
Definition stuck : SQuADTransform :=
  mkTransform TransformExamples.tokenizer 5 0 64 true.

End WindowExamples.

(** An example with its label fields left at [None]. *)
Definition without_labels (example : SquadExample.t) : SquadExample.t :=
  SquadExample.mk (SquadExample.qas_id example)
    (SquadExample.question_text example) (SquadExample.doc_tokens example)
    (SquadExample.example_id example) None None None
    (SquadExample.is_impossible example).

(** The questions of the input with their paragraphs, in the order in which
    [_read] meets them. *)
Definition questions_of_paragraph (paragraph : Paragraph.t)
  : list (Paragraph.t * QA.t) :=
  map (pair paragraph) (Paragraph.qas paragraph).

Definition questions_of (input_data : list Entry.t)
  : list (Paragraph.t * QA.t) :=
  flat_map (fun entry =>
              flat_map questions_of_paragraph (Entry.paragraphs entry))
    input_data.

(** The questions [_read] meets before the question that follows [qs1] in
    [paragraph], which follows [ps1] in an entry that follows [es1]. *)
Definition earlier_questions (es1 : list Entry.t) (ps1 : list Paragraph.t)
    (paragraph : Paragraph.t) (qs1 : list QA.t)
  : list (Paragraph.t * QA.t) :=
  questions_of es1 ++ flat_map questions_of_paragraph ps1
  ++ map (pair paragraph) qs1.

(** The first or the last character of the first answer of the question
    lies outside the paragraph, counting negative offsets from the end as
    Python does: there [char_to_word_offset[...]] raises [IndexError]. *)
Definition offset_out_of_range (paragraph : Paragraph.t) (qa : QA.t) : Prop :=
  exists a l,
    QA.answers qa = a :: l /\
    let n := len (Paragraph.context paragraph) in
    ~ (- n <= Answer.answer_start a < n) \/
    ~ (- n <= Answer.answer_start a + len (Answer.text a) - 1 < n).

(** * Properties *)

(** ** Python lists *)

Lemma len_nonneg {A} (l : list A) : 0 <= len l.
Proof. unfold len. lia. Qed.

Lemma len_app {A} (l1 l2 : list A) : len (l1 ++ l2) = len l1 + len l2.
Proof. unfold len. rewrite length_app. lia. Qed.

Lemma len_cons {A} (a : A) (l : list A) : len (a :: l) = len l + 1.
Proof. unfold len. simpl. lia. Qed.

Lemma len_nil {A} : len (@nil A) = 0.
Proof. reflexivity. Qed.

(** ** The window splitter *)

Section Splitter.

Variables N M stride : Z.

(** The windows accumulated before a run are a prefix of its result. *)
Lemma doc_spans_loop_acc fuel : forall s acc,
  doc_spans_loop fuel N M stride s acc =
  match doc_spans_loop fuel N M stride s [] with
  | Finished l => Finished (acc ++ l)
  | Running s' l => Running s' (acc ++ l)
  end.
Proof.
  induction fuel as [|fuel IH]; intros s acc; simpl.
  - destruct (s <? N); now rewrite app_nil_r.
  - destruct (s <? N); [|now rewrite app_nil_r].
    set (w := mkDocSpan s _).
    destruct (s + _ =? N); [reflexivity|].
    rewrite (IH _ (acc ++ [w])), (IH _ ([] ++ [w])).
    destruct (doc_spans_loop fuel N M stride _ []); simpl;
      now rewrite <- app_assoc.
Qed.

(** One iteration of the loop, in the two ways it can go. *)
Lemma doc_spans_loop_last fuel s :
  s < N -> N - s <= M ->
  doc_spans_loop (S fuel) N M stride s [] = Finished [mkDocSpan s (N - s)].
Proof.
  intros Hs HM. simpl.
  destruct (Z.ltb_spec s N); [|lia].
  destruct (Z.gtb_spec (N - s) M); [lia|].
  simpl. destruct (Z.eqb_spec (s + (N - s)) N); [reflexivity|lia].
Qed.

Lemma doc_spans_loop_next fuel s :
  s < N -> M < N - s ->
  doc_spans_loop (S fuel) N M stride s [] =
  match doc_spans_loop fuel N M stride (s + Z.min M stride) [] with
  | Finished l => Finished (mkDocSpan s M :: l)
  | Running s' l => Running s' (mkDocSpan s M :: l)
  end.
Proof.
  intros Hs HM. simpl.
  destruct (Z.ltb_spec s N); [|lia].
  destruct (Z.gtb_spec (N - s) M); [|lia].
  destruct (Z.eqb_spec (s + M) N); [lia|].
  now rewrite doc_spans_loop_acc.
Qed.

(** With a window size or a stride below 1 a run that does not finish at
    once never finishes: the offset never moves right. *)
Lemma doc_spans_loop_stuck fuel : forall s,
  s < N -> M < N - s -> M < 1 \/ stride < 1 ->
  exists s' l,
    doc_spans_loop fuel N M stride s [] = Running s' l /\
    List.length l = fuel /\ (forall w, In w l -> length w = M).
Proof.
  induction fuel as [|fuel IH]; intros s Hs HM Hbad.
  - simpl. destruct (Z.ltb_spec s N); [|lia].
    exists s, []. repeat split. intros w [].
  - rewrite doc_spans_loop_next by assumption.
    destruct (IH (s + Z.min M stride)) as (s' & l & -> & Hlen & Hl); try lia.
    exists s', (mkDocSpan s M :: l). repeat split.
    + simpl. now rewrite Hlen.
    + intros w [<-|Hw]; [reflexivity|now apply Hl].
Qed.

(** A run that finishes from an offset in the document produces a chain of
    windows. *)
Lemma doc_spans_loop_chain fuel : forall s l,
  0 <= s -> s < N ->
  doc_spans_loop fuel N M stride s [] = Finished l ->
  window_chain N M stride s l.
Proof.
  induction fuel as [|fuel IH]; intros s l Hs0 Hs Hrun.
  - simpl in Hrun. destruct (Z.ltb_spec s N); [discriminate|lia].
  - destruct (Z_le_gt_dec (N - s) M) as [HM|HM].
    + rewrite doc_spans_loop_last in Hrun by lia.
      injection Hrun as <-. now apply chain_last.
    + rewrite doc_spans_loop_next in Hrun by lia.
      destruct (Z_lt_ge_dec M 1) as [HM1|HM1].
      { destruct (doc_spans_loop_stuck fuel (s + Z.min M stride))
          as (s' & l' & E & _); try lia.
        now rewrite E in Hrun. }
      destruct (Z_lt_ge_dec stride 1) as [Hst|Hst].
      { destruct (doc_spans_loop_stuck fuel (s + Z.min M stride))
          as (s' & l' & E & _); try lia.
        now rewrite E in Hrun. }
      destruct (doc_spans_loop fuel N M stride (s + Z.min M stride) [])
        as [l'|] eqn:E; [|discriminate].
      injection Hrun as <-.
      apply chain_next; try lia.
      apply IH; [lia|lia|assumption].
Qed.

(** With window size and stride at least 1, [N - s] iterations finish the
    run. *)
Lemma doc_spans_loop_finishes fuel : forall s,
  1 <= M -> 1 <= stride -> 0 <= s -> s < N -> (Z.to_nat (N - s) <= fuel)%nat ->
  exists l, doc_spans_loop fuel N M stride s [] = Finished l /\ len l <= N - s.
Proof.
  induction fuel as [|fuel IH]; intros s HM Hst Hs0 Hs Hfuel; [lia|].
  destruct (Z_le_gt_dec (N - s) M) as [HM'|HM'].
  - rewrite doc_spans_loop_last by lia. eexists; split; [reflexivity|].
    rewrite len_cons, len_nil. lia.
  - rewrite doc_spans_loop_next by lia.
    destruct (IH (s + Z.min M stride)) as (l & -> & Hl); try lia.
    eexists; split; [reflexivity|]. rewrite len_cons. lia.
Qed.

End Splitter.

(** What a chain of windows covers. *)
Lemma window_chain_nonempty N M stride s l :
  window_chain N M stride s l -> l <> [].
Proof. now destruct 1. Qed.

Lemma window_chain_bounds N M stride s l :
  window_chain N M stride s l ->
  forall w, In w l ->
    s <= start w /\ 1 <= length w /\ length w <= M /\ start w + length w <= N.
Proof.
  induction 1 as [s Hs0 Hs HM|s l Hs0 HM1 HM Hst Hl IH]; intros w Hw.
  - destruct Hw as [<-|[]]. simpl. lia.
  - destruct Hw as [<-|Hw]; [simpl; lia|].
    specialize (IH w Hw). lia.
Qed.

Lemma window_chain_covers N M stride s l :
  window_chain N M stride s l ->
  forall p, s <= p < N -> exists w, In w l /\ in_span w p = true.
Proof.
  unfold in_span, span_end.
  induction 1 as [s Hs0 Hs HM|s l Hs0 HM1 HM Hst Hl IH]; intros p Hp.
  - eexists; split; [left; reflexivity|]. simpl.
    destruct (Z.ltb_spec p s), (Z.gtb_spec p (s + (N - s) - 1)); (reflexivity || lia).
  - destruct (Z_lt_ge_dec p (s + Z.min M stride)) as [Hlt|Hge].
    + eexists; split; [left; reflexivity|]. simpl.
      destruct (Z.ltb_spec p s), (Z.gtb_spec p (s + M - 1)); (reflexivity || lia).
    + destruct (IH p) as (w & Hw & Hin); [lia|].
      exists w; split; [now right|assumption].
Qed.

Lemma window_chain_last N M stride s l :
  window_chain N M stride s l ->
  exists l' w, l = l' ++ [w] /\ start w + length w = N.
Proof.
  induction 1 as [s Hs0 Hs HM|s l Hs0 HM1 HM Hst Hl IH].
  - exists [], (mkDocSpan s (N - s)). split; [reflexivity|simpl; lia].
  - destruct IH as (l' & w & -> & Hw).
    exists (mkDocSpan s M :: l'), w. now split.
Qed.

Lemma window_chain_head N M stride s l :
  window_chain N M stride s l -> exists w l', l = w :: l' /\ start w = s.
Proof. destruct 1; eexists _, _; split; reflexivity. Qed.

Lemma window_chain_adjacent N M stride s l :
  window_chain N M stride s l ->
  forall l1 w1 w2 l2, l = l1 ++ w1 :: w2 :: l2 ->
    start w1 < start w2 /\ start w2 <= start w1 + length w1.
Proof.
  induction 1 as [s Hs0 Hs HM|s l Hs0 HM1 HM Hst Hl IH]; intros l1 w1 w2 l2 E.
  - destruct l1 as [|? [|? ?]]; discriminate.
  - destruct l1 as [|w l1]; simpl in E.
    + injection E as <- ->.
      destruct (window_chain_head _ _ _ _ _ Hl) as (w & l' & E' & Hw).
      injection E' as <- <-. simpl. lia.
    + injection E as _ ->. now apply (IH l1 w1 w2 l2).
Qed.

(** The iterations a finished run takes are as many as its windows: with
    less fuel the loop is still running, with as much or more it gives the
    same windows. *)
Lemma doc_spans_loop_iterations N M stride fuel : forall s l,
  doc_spans_loop fuel N M stride s [] = Finished l ->
  forall fuel',
    ((fuel' < List.length l)%nat ->
     exists s' l', doc_spans_loop fuel' N M stride s [] = Running s' l') /\
    ((List.length l <= fuel')%nat ->
     doc_spans_loop fuel' N M stride s [] = Finished l).
Proof.
  induction fuel as [|fuel IH]; intros s l Hrun fuel'.
  - simpl in Hrun. destruct (Z.ltb_spec s N); [discriminate|].
    injection Hrun as <-. split; [simpl; lia|intros _].
    destruct fuel'; simpl; destruct (Z.ltb_spec s N); (reflexivity || lia).
  - destruct (Z_lt_ge_dec s N) as [Hs|Hs].
    2:{ simpl in Hrun. destruct (Z.ltb_spec s N); [lia|].
        injection Hrun as <-. split; [simpl; lia|intros _].
        destruct fuel'; simpl; destruct (Z.ltb_spec s N); (reflexivity || lia). }
    destruct (Z_le_gt_dec (N - s) M) as [HM|HM].
    + rewrite doc_spans_loop_last in Hrun by lia. injection Hrun as <-.
      destruct fuel' as [|fuel']; simpl List.length.
      * split; [intros _|lia]. simpl. destruct (Z.ltb_spec s N); [|lia].
        now eexists _, _.
      * split; [lia|intros _]. now apply doc_spans_loop_last.
    + rewrite doc_spans_loop_next in Hrun by lia.
      destruct (doc_spans_loop fuel N M stride (s + Z.min M stride) [])
        as [l0|] eqn:E; [|discriminate].
      injection Hrun as <-.
      destruct fuel' as [|fuel']; simpl List.length.
      * split; [intros _|lia]. simpl. destruct (Z.ltb_spec s N); [|lia].
        now eexists _, _.
      * rewrite doc_spans_loop_next by lia.
        destruct (IH _ _ E fuel') as [Hlt Hge]. split; intros H.
        -- destruct Hlt as (s' & l' & ->); [lia|]. now eexists _, _.
        -- rewrite Hge by lia. reflexivity.
Qed.

(** C9: for [N >= 1], [max_tokens_for_doc >= 1] and [doc_stride >= 1] the
    window loop terminates within [N] iterations: it finishes with a list of
    at most [N] windows, one appended by each iteration that ran (with fewer
    iterations than windows the loop is still running, with [N] or more it
    has finished with these windows), and every window that is not the last
    starts at least 1 to the left of the next. *)
Theorem split_doc_terminates N M stride :
  1 <= N -> 1 <= M -> 1 <= stride ->
  exists doc_spans,
    len doc_spans <= N /\
    (forall fuel, (Z.to_nat N <= fuel)%nat ->
       split_doc fuel N M stride = Finished doc_spans) /\
    (forall fuel, (fuel < List.length doc_spans)%nat ->
       exists s l, split_doc fuel N M stride = Running s l) /\
    (forall l1 w1 w2 l2, doc_spans = l1 ++ w1 :: w2 :: l2 ->
       start w1 + 1 <= start w2).
Proof.
  intros HN HM Hst. unfold split_doc.
  destruct (doc_spans_loop_finishes N M stride (Z.to_nat N) 0)
    as (l & Hrun & Hlen); try lia.
  exists l. split; [lia|]. split; [|split].
  - intros fuel Hfuel.
    apply (doc_spans_loop_iterations _ _ _ _ _ _ Hrun). unfold len in Hlen. lia.
  - intros fuel Hfuel.
    now apply (doc_spans_loop_iterations _ _ _ _ _ _ Hrun).
  - intros l1 w1 w2 l2 E.
    apply doc_spans_loop_chain in Hrun; [|lia|lia].
    destruct (window_chain_adjacent _ _ _ _ _ Hrun _ _ _ _ E). lia.
Qed.

Lemma split_doc_terminates_witness :
  1 <= 5 /\ 1 <= 4 /\ 1 <= 2 /\
  exists doc_spans,
    len doc_spans <= 5 /\
    (forall fuel, (Z.to_nat 5 <= fuel)%nat ->
       split_doc fuel 5 4 2 = Finished doc_spans) /\
    (forall fuel, (fuel < List.length doc_spans)%nat ->
       exists s l, split_doc fuel 5 4 2 = Running s l) /\
    (forall l1 w1 w2 l2, doc_spans = l1 ++ w1 :: w2 :: l2 ->
       start w1 + 1 <= start w2).
Proof.
  split; [lia|]. split; [lia|]. split; [lia|].
  apply (split_doc_terminates 5 4 2); lia.
Defined.

(** C2: for [N >= 1], [max_tokens_for_doc >= 1] and [doc_stride >= 1] the
    windows the splitter emits cover every position of [[0, N)], leave no
    gap between a window and the next, lie within [[0, N)], and the last one
    ends exactly at [N], its last covered index being [N - 1]. *)
Theorem split_doc_covers N M stride :
  1 <= N -> 1 <= M -> 1 <= stride ->
  exists doc_spans,
    split_doc (Z.to_nat N) N M stride = Finished doc_spans /\
    (forall p, 0 <= p < N -> exists w, In w doc_spans /\ in_span w p = true) /\
    (forall l1 w1 w2 l2, doc_spans = l1 ++ w1 :: w2 :: l2 ->
       start w2 <= start w1 + length w1) /\
    (forall w, In w doc_spans ->
       0 <= start w /\ 1 <= length w /\ start w + length w <= N) /\
    (exists l w, doc_spans = l ++ [w] /\
       start w + length w = N /\ span_end w = N - 1).
Proof.
  intros HN HM Hst. unfold split_doc.
  destruct (doc_spans_loop_finishes N M stride (Z.to_nat N) 0)
    as (l & Hrun & Hlen); try lia.
  exists l. split; [assumption|].
  apply doc_spans_loop_chain in Hrun; [|lia|lia].
  split; [|split; [|split]].
  - intros p Hp. now apply (window_chain_covers _ _ _ _ _ Hrun).
  - intros l1 w1 w2 l2 E. now apply (window_chain_adjacent _ _ _ _ _ Hrun _ _ _ _ E).
  - intros w Hw. destruct (window_chain_bounds _ _ _ _ _ Hrun _ Hw). lia.
  - destruct (window_chain_last _ _ _ _ _ Hrun) as (l' & w & -> & Hw).
    exists l', w. unfold span_end. repeat split; lia.
Qed.

Lemma split_doc_covers_witness :
  1 <= 5 /\ 1 <= 4 /\ 1 <= 2 /\
  exists doc_spans,
    split_doc (Z.to_nat 5) 5 4 2 = Finished doc_spans /\
    (forall p, 0 <= p < 5 -> exists w, In w doc_spans /\ in_span w p = true) /\
    (forall l1 w1 w2 l2, doc_spans = l1 ++ w1 :: w2 :: l2 ->
       start w2 <= start w1 + length w1) /\
    (forall w, In w doc_spans ->
       0 <= start w /\ 1 <= length w /\ start w + length w <= 5) /\
    (exists l w, doc_spans = l ++ [w] /\
       start w + length w = 5 /\ span_end w = 5 - 1).
Proof.
  split; [lia|]. split; [lia|]. split; [lia|].
  apply (split_doc_covers 5 4 2); lia.
Defined.

(** ** Floats *)

Section FloatOrder.

Import PyFloat.

Lemma gt_key a b :
  nonneg_float a -> nonneg_float b ->
  (gt a b = true <-> key_lt (float_key b) (float_key a)).
Proof.
  unfold gt, SFltb, SFcompare, key_lt, float_key.
  destruct a as [[|]|[|]| |[|] ma ea], b as [[|]|[|]| |[|] mb eb];
    simpl; intros [] []; try (split; [discriminate|lia]); try (split; [lia|discriminate]);
    try (split; [reflexivity|lia]); try (split; [lia|reflexivity]).
  fold (Pos.compare mb ma).
  destruct (Z.compare_spec eb ea), (Pos.compare_spec mb ma);
    split; (discriminate || reflexivity || lia).
Qed.

End FloatOrder.

Section FloatRounding.

Import PyFloat.

Lemma digits2_pos_size p : digits2_pos p = Pos.size p.
Proof. induction p; simpl; congruence. Qed.

Lemma Zdigits2_nonneg m : 0 <= Zdigits2 m.
Proof. destruct m; simpl; lia. Qed.

Lemma Zdigits2_log2 m : 0 < m -> Zdigits2 m = Z.log2 m + 1.
Proof.
  destruct m as [|p|p]; try lia. intros _. simpl.
  destruct p; simpl; rewrite ?digits2_pos_size; lia.
Qed.

Lemma Zdigits2_succ m : 0 <= m -> Zdigits2 (m + 1) <= Zdigits2 m + 1.
Proof.
  intros Hm. destruct (Z.eq_dec m 0) as [->|Hne]; [simpl; lia|].
  rewrite !Zdigits2_log2 by lia.
  pose proof (Z.log2_succ_le m) as H. unfold Z.succ in H. lia.
Qed.

Lemma shr_1_digits mrs :
  0 <= shr_m mrs ->
  0 <= shr_m (shr_1 mrs) /\
  Zdigits2 (shr_m (shr_1 mrs)) = Z.max 0 (Zdigits2 (shr_m mrs) - 1).
Proof.
  destruct mrs as [m r s]. cbn [shr_m].
  destruct m as [|[p|p|]|p]; cbn [shr_1 shr_m Zdigits2 digits2_pos]; intros H;
    rewrite ?Pos2Z.inj_succ; lia.
Qed.

Lemma iter_shr_1_digits n : forall mrs,
  0 <= shr_m mrs ->
  0 <= shr_m (iter_pos shr_1 n mrs) /\
  Zdigits2 (shr_m (iter_pos shr_1 n mrs)) =
    Z.max 0 (Zdigits2 (shr_m mrs) - Zpos n).
Proof.
  induction n as [n IH|n IH|]; intros mrs H; simpl.
  - destruct (shr_1_digits mrs H) as [H1 E1].
    destruct (IH _ H1) as [H2 E2]. destruct (IH _ H2) as [H3 E3].
    split; [assumption|]. rewrite E3, E2, E1. lia.
  - destruct (IH _ H) as [H2 E2]. destruct (IH _ H2) as [H3 E3].
    split; [assumption|]. rewrite E3, E2. lia.
  - now apply shr_1_digits.
Qed.

Lemma shr_record_of_loc_m m l : shr_m (shr_record_of_loc m l) = m.
Proof. destruct l as [|[ | | ]]; reflexivity. Qed.

(** What the shift to the canonical exponent does to the mantissa and the
    exponent. *)
Lemma shr_fexp_digits m e l :
  0 <= m ->
  let r := shr_fexp prec emax m e l in
  0 <= shr_m (fst r) /\
  snd r = Z.max e (fexp prec emax (Zdigits2 m + e)) /\
  Zdigits2 (shr_m (fst r)) + snd r
    <= Z.max (Zdigits2 m + e) (fexp prec emax (Zdigits2 m + e)).
Proof.
  intros Hm. unfold shr_fexp, shr.
  pose proof (shr_record_of_loc_m m l) as Em.
  destruct (fexp prec emax (Zdigits2 m + e) - e) as [|n|n] eqn:En; simpl.
  - rewrite Em. lia.
  - destruct (iter_shr_1_digits n (shr_record_of_loc m l)) as [H E]; [lia|].
    rewrite E, Em. lia.
  - rewrite Em. lia.
Qed.

Lemma round_nearest_even_digits m l :
  0 <= m ->
  0 <= round_nearest_even m l /\
  Zdigits2 (round_nearest_even m l) <= Zdigits2 m + 1.
Proof.
  intros Hm. pose proof (Zdigits2_succ m Hm).
  unfold round_nearest_even.
  destruct l as [|[ | | ]]; try destruct (Z.even m); lia.
Qed.

(** Rounding a non-negative mantissa gives a non-negative float, and a
    finite one below [2^1023]. *)
Lemma binary_round_aux_nonneg m e l :
  0 <= m ->
  nonneg_float (binary_round_aux prec emax false m e l) /\
  (Zdigits2 m + e <= 1023 -> e <= 971 ->
   exists f, binary_round_aux prec emax false m e l = f /\
     match f with S754_infinity _ => False | _ => True end).
Proof.
  intros Hm. unfold binary_round_aux.
  pose proof (shr_fexp_digits m e l Hm) as H1. cbv zeta in H1.
  destruct (shr_fexp prec emax m e l) as [mrs' e'].
  simpl fst in H1; simpl snd in H1. destruct H1 as (Hm' & Ee' & Hd').
  pose proof (round_nearest_even_digits (shr_m mrs') (loc_of_shr_record mrs') Hm')
    as [Hm2 Hd2].
  set (m2 := round_nearest_even (shr_m mrs') (loc_of_shr_record mrs')) in *.
  pose proof (shr_fexp_digits m2 e' loc_Exact Hm2) as H2. cbv zeta in H2.
  destruct (shr_fexp prec emax m2 e' loc_Exact) as [mrs'' e''].
  simpl fst in H2; simpl snd in H2. destruct H2 as (Hm'' & Ee'' & Hd'').
  destruct (shr_m mrs'') as [|p|p] eqn:Ep; [| |lia].
  - split; [exact I|]. intros _ _. eexists; split; [reflexivity|exact I].
  - split.
    + destruct (e'' <=? emax - prec); exact I.
    + intros HD He. eexists; split; [reflexivity|].
      destruct (Z.leb_spec e'' (emax - prec)) as [_|Hgt]; [exact I|].
      unfold fexp, emin, prec, emax in *. lia.
Qed.

Lemma of_int_nonneg z :
  0 <= z < 2 ^ 1023 ->
  exists f, of_int z = Return f /\ nonneg_float f /\
    match f with S754_infinity _ => False | _ => True end.
Proof.
  intros [Hz0 Hz]. unfold of_int, binary_normalize.
  destruct z as [|m|m]; [| |lia].
  - eexists; repeat split.
  - unfold binary_round. rewrite Z.add_0_r.
    assert (HD : Zpos (digits2_pos m) <= 1023).
    { change (Zpos (digits2_pos m)) with (Zdigits2 (Zpos m)).
      rewrite Zdigits2_log2 by lia.
      assert (Z.log2 (Z.pos m) < 1023) by (apply Z.log2_lt_pow2; lia). lia. }
    destruct (shl_align m 0 (fexp prec emax (Z.pos (digits2_pos m))))
      as [mz ez] eqn:Es.
    assert (Hs : Zdigits2 (Zpos mz) + ez = Zpos (digits2_pos m) /\ ez <= 0).
    { unfold shl_align in Es.
      destruct (fexp prec emax (Z.pos (digits2_pos m)) - 0) as [|d|d] eqn:Ed;
        injection Es as <- <-; simpl Zdigits2; try lia.
      assert (Hiter : forall d, Zpos (digits2_pos (Pos.iter xO m d))
                                = Zpos (digits2_pos m) + Zpos d).
      { intros d'. induction d' as [|d' IHd] using Pos.peano_ind.
        - simpl. lia.
        - rewrite Pos.iter_succ. simpl. lia. }
      rewrite Hiter. lia. }
    destruct (binary_round_aux_nonneg (Zpos mz) ez loc_Exact) as [Hnn Hfin];
      [lia|].
    destruct Hfin as (f & Ef & Hf); [lia|lia|].
    rewrite Ef in *. exists f. destruct f as [s|s| |s mf ef]; try contradiction;
      repeat split; assumption.
Qed.

Lemma mul_lit_nonneg f :
  nonneg_float f -> nonneg_float (mul lit_0_01 f).
Proof.
  unfold mul, lit_0_01, SFmul.
  destruct f as [[|]|[|]| |[|] m e]; simpl; intros []; try exact I.
  apply binary_round_aux_nonneg. lia.
Qed.

Lemma add_nonneg a b :
  nonneg_float a -> nonneg_float b -> nonneg_float (add a b).
Proof.
  unfold add, SFadd.
  destruct a as [[|]|[|]| |[|] ma ea], b as [[|]|[|]| |[|] mb eb];
    simpl; intros [] []; try exact I.
  unfold binary_round.
  destruct (shl_align _ _ _). apply binary_round_aux_nonneg. lia.
Qed.

End FloatRounding.

(** ** The max-context resolver *)

Section MaxContext.

Import PyFloat.

Lemma in_span_bounds w p :
  in_span w p = true <-> start w <= p <= start w + length w - 1.
Proof.
  unfold in_span, span_end.
  destruct (Z.ltb_spec p (start w)), (Z.gtb_spec p (start w + length w - 1));
    simpl; split; intros; (discriminate || reflexivity || lia).
Qed.

(** The score of a window that contains the position and is shorter than
    [2^1023] is a non-negative float. *)
Lemma span_score_nonneg w p :
  in_span w p = true -> length w < 2 ^ 1023 ->
  exists s, span_score w p = Return s /\ nonneg_float s.
Proof.
  intros Hin Hlen. apply in_span_bounds in Hin. unfold span_score.
  destruct (of_int_nonneg (length w)) as (l & -> & Hl & _); [lia|].
  destruct (of_int_nonneg (Z.min (p - start w) (start w + length w - 1 - p)))
    as (m & -> & Hm & _); [lia|].
  simpl. eexists; split; [reflexivity|].
  apply add_nonneg; [assumption|now apply mul_lit_nonneg].
Qed.

(** Comparisons of non-negative floats, as facts on their keys. *)
Lemma gt_true a b :
  nonneg_float a -> nonneg_float b -> gt a b = true ->
  key_lt (float_key b) (float_key a).
Proof. intros Ha Hb. now apply gt_key. Qed.

Lemma gt_false a b :
  nonneg_float a -> nonneg_float b -> gt a b = false ->
  ~ key_lt (float_key b) (float_key a).
Proof. intros Ha Hb H K. apply gt_key in K; congruence. Qed.

Lemma key_gt_true a b :
  nonneg_float a -> nonneg_float b ->
  key_lt (float_key b) (float_key a) -> gt a b = true.
Proof. intros Ha Hb. now apply gt_key. Qed.

Lemma key_gt_false a b :
  nonneg_float a -> nonneg_float b ->
  ~ key_lt (float_key b) (float_key a) -> gt a b = false.
Proof.
  intros Ha Hb H. destruct (gt a b) eqn:E; [|reflexivity].
  apply gt_key in E; tauto.
Qed.

Lemma key_lt_irrefl k : ~ key_lt k k.
Proof. destruct k as [[? ?] ?]. unfold key_lt. lia. Qed.

Variable p : Z.

(** One iteration keeps the invariant. *)
Lemma max_context_step_inv pre w st :
  (forall wj, In wj (pre ++ [w]) -> in_span wj p = true ->
              length wj < 2 ^ 1023) ->
  best_inv p pre st ->
  exists st', max_context_step p st (len pre, w) = Return st' /\
              best_inv p (pre ++ [w]) st'.
Proof.
  intros Hlen Hinv. unfold max_context_step.
  destruct st as [bs bi].
  assert (Hlast : forall j wj, nth_error (pre ++ [w]) j = Some wj ->
            (j < List.length pre)%nat /\ nth_error pre j = Some wj
            \/ j = List.length pre /\ wj = w).
  { intros j wj Hj.
    destruct (Nat.lt_ge_cases j (List.length pre)) as [Hlt|Hge].
    - left. rewrite nth_error_app1 in Hj by assumption. now split.
    - right. rewrite nth_error_app2 in Hj by assumption.
      destruct (j - List.length pre)%nat as [|[|?]] eqn:Ej; simpl in Hj;
        try discriminate.
      injection Hj as <-. split; [lia|reflexivity]. }
  assert (Hkeep : in_span w p = false ->
                  best_inv p (pre ++ [w]) (bs, bi)).
  { intros Hout. destruct bs as [s|], bi as [b|]; simpl in *; try contradiction.
    - destruct Hinv as (Hs & Hb & wb & Hnth & Hinb & Hsc & Hall).
      split; [assumption|]. split; [assumption|]. exists wb.
      assert (Z.to_nat b < List.length pre)%nat
        by (apply nth_error_Some; congruence).
      split; [rewrite nth_error_app1; assumption|].
      split; [assumption|]. split; [assumption|].
      intros j wj Hj Hinj.
      destruct (Hlast j wj Hj) as [[_ Hj']|[_ ->]]; [now apply Hall|congruence].
    - intros w' Hw'. apply in_app_or in Hw'.
      destruct Hw' as [Hw'|[<-|[]]]; [now apply Hinv|assumption]. }
  destruct (Z.ltb_spec p (start w)) as [Hl|Hl].
  { eexists; split; [reflexivity|]. apply Hkeep.
    destruct (in_span w p) eqn:E; [|reflexivity].
    apply in_span_bounds in E. lia. }
  destruct (Z.gtb_spec p (start w + length w - 1)) as [Hr|Hr].
  { eexists; split; [reflexivity|]. apply Hkeep.
    destruct (in_span w p) eqn:E; [|reflexivity].
    apply in_span_bounds in E. lia. }
  assert (Hin : in_span w p = true) by (apply in_span_bounds; lia).
  assert (Hw : In w (pre ++ [w])) by (apply in_or_app; right; now left).
  destruct (span_score_nonneg w p Hin (Hlen w Hw Hin)) as (s' & Hs' & Hnn').
  rewrite Hs'. simpl bind.
  assert (Hk : nth_error (pre ++ [w]) (Z.to_nat (len pre)) = Some w).
  { unfold len. rewrite Nat2Z.id, nth_error_app2, Nat.sub_diag by lia.
    reflexivity. }
  assert (Hself : gt s' s' = false).
  { apply key_gt_false; try assumption. apply key_lt_irrefl. }
  destruct bs as [s|], bi as [b|]; simpl in Hinv; try contradiction.
  - destruct Hinv as (Hs & Hb & wb & Hnth & Hinb & Hsc & Hall).
    assert (Hbk : b < len pre).
    { assert (Z.to_nat b < List.length pre)%nat
        by (apply nth_error_Some; congruence). unfold len. lia. }
    destruct (gt s' s) eqn:Egt.
    + eexists; split; [reflexivity|]. simpl. split; [assumption|].
      split; [apply len_nonneg|]. exists w.
      split; [assumption|]. split; [assumption|]. split; [assumption|].
      intros j wj Hj Hinj. destruct (Hlast j wj Hj) as [[Hlt Hj']|[-> ->]].
      * destruct (Hall j wj Hj' Hinj) as (sj & Hsj & Hle & _).
        exists sj. split; [assumption|].
        assert (Hnnj : nonneg_float sj).
        { destruct (span_score_nonneg wj p Hinj) as (x & Hx & Hxn);
            [|congruence].
          apply Hlen; [|assumption]. apply in_or_app. left.
          now apply nth_error_In with j. }
        apply gt_true in Egt; try assumption.
        apply gt_false in Hle; try assumption.
        split; [apply key_gt_false|intros _; apply key_gt_true];
          try assumption;
          destruct (float_key s) as [[? ?] ?], (float_key s') as [[? ?] ?],
            (float_key sj) as [[? ?] ?]; unfold key_lt in *; lia.
      * exists s'. split; [assumption|]. split; [assumption|].
        unfold len. lia.
    + eexists; split; [reflexivity|]. simpl. split; [assumption|].
      split; [assumption|]. exists wb.
      assert (Z.to_nat b < List.length pre)%nat
        by (apply nth_error_Some; congruence).
      split; [rewrite nth_error_app1; assumption|].
      split; [assumption|]. split; [assumption|].
      intros j wj Hj Hinj. destruct (Hlast j wj Hj) as [[Hlt Hj']|[-> ->]].
      * now apply Hall.
      * exists s'. split; [assumption|]. split; [assumption|].
        unfold len in Hbk. lia.
  - eexists; split; [reflexivity|]. simpl. split; [assumption|].
    split; [apply len_nonneg|]. exists w.
    split; [assumption|]. split; [assumption|]. split; [assumption|].
    intros j wj Hj Hinj. destruct (Hlast j wj Hj) as [[Hlt Hj']|[-> ->]].
    + apply nth_error_In in Hj'. rewrite (Hinv wj Hj') in Hinj. discriminate.
    + exists s'. split; [assumption|]. split; [assumption|].
      unfold len. lia.
Qed.

(** The loop over the windows [l] that follow [pre]. *)
Lemma best_span_inv l : forall pre st,
  (forall wj, In wj (pre ++ l) -> in_span wj p = true ->
              length wj < 2 ^ 1023) ->
  best_inv p pre st ->
  exists st',
    for_fold (max_context_step p) (enumerate_from (len pre) l) st = Return st' /\
    best_inv p (pre ++ l) st'.
Proof.
  induction l as [|w l IH]; intros pre st Hlen Hinv.
  - simpl. rewrite app_nil_r. now exists st.
  - simpl enumerate_from. simpl for_fold.
    destruct (max_context_step_inv pre w st) as (st1 & -> & Hinv1);
      [|assumption|].
    { intros wj Hwj. apply Hlen. apply in_app_or in Hwj. apply in_or_app.
      destruct Hwj as [Hwj|[<-|[]]]; [now left|right; now left]. }
    simpl bind.
    destruct (IH (pre ++ [w]) st1) as (st' & Hrun & Hinv');
      [now rewrite <- app_assoc|assumption|].
    rewrite len_app, len_cons, len_nil in Hrun. simpl in Hrun.
    rewrite <- app_assoc in Hinv'. now exists st'.
Qed.

(** On windows shorter than [2^1023], of which one contains the position,
    the resolver flags exactly the lowest-index window of greatest float
    score. *)
Lemma check_is_max_context_owner doc_spans :
  (forall w, In w doc_spans -> in_span w p = true -> length w < 2 ^ 1023) ->
  (exists w, In w doc_spans /\ in_span w p = true) ->
  exists b s,
    owner_with_score doc_spans b p s /\
    forall i, _check_is_max_context doc_spans i p = Return (i =? b).
Proof.
  intros Hlen (w & Hw & Hin).
  destruct (best_span_inv doc_spans [] (None, None)) as (st & Hrun & Hinv);
    [assumption|intros ? []|].
  change (len (@nil DocSpan)) with 0 in Hrun. simpl in Hinv.
  destruct st as [[s|] [b|]]; simpl in Hinv;
    try contradiction.
  - exists b, s. split; [apply Hinv|].
    intros i. unfold _check_is_max_context, best_span, enumerate.
    now rewrite Hrun.
  - rewrite (Hinv w Hw) in Hin. discriminate.
Qed.

End MaxContext.

(** A finished run of the splitter on an empty or absent document has no
    window; on a document of [N >= 1] sub-tokens its windows lie in
    [[0, N)]. *)
Lemma split_doc_bounds fuel N M stride doc_spans :
  split_doc fuel N M stride = Finished doc_spans ->
  forall w, In w doc_spans ->
    0 <= start w /\ 1 <= length w /\ length w <= M /\ start w + length w <= N.
Proof.
  unfold split_doc. intros Hrun w Hw.
  destruct (Z_lt_ge_dec 0 N) as [HN|HN].
  - apply doc_spans_loop_chain in Hrun; [|lia|lia].
    destruct (window_chain_bounds _ _ _ _ _ Hrun _ Hw). lia.
  - destruct fuel; simpl in Hrun; (destruct (Z.ltb_spec 0 N); [lia|]);
      injection Hrun as <-; destruct Hw.
Qed.

(** C1 (as amended): for the windows of the splitter on a document of fewer
    than [2^1023] sub-tokens and a position that some window contains,
    [_check_is_max_context] flags exactly one window, which contains the
    position: the one whose score
    [min(p - start, end - p) + 0.01 * length], computed in binary64
    floating-point arithmetic as the code computes it, is not exceeded by
    the score of any window containing the position, the lowest index
    winning among equal floating-point scores. *)
Theorem max_context_owner fuel N M stride doc_spans p :
  N < 2 ^ 1023 ->
  split_doc fuel N M stride = Finished doc_spans ->
  (exists w, In w doc_spans /\ in_span w p = true) ->
  exists b s,
    owner_with_score doc_spans b p s /\
    forall i, _check_is_max_context doc_spans i p = Return (i =? b).
Proof.
  intros HN Hrun Hex.
  apply check_is_max_context_owner; [|assumption].
  intros w Hw _. destruct (split_doc_bounds _ _ _ _ _ Hrun w Hw). lia.
Qed.

Lemma max_context_owner_witness :
  5 < 2 ^ 1023 /\
  split_doc 5 5 4 2 = Finished [mkDocSpan 0 4; mkDocSpan 2 3] /\
  (exists w, In w [mkDocSpan 0 4; mkDocSpan 2 3] /\ in_span w 3 = true) /\
  exists b s,
    owner_with_score [mkDocSpan 0 4; mkDocSpan 2 3] b 3 s /\
    forall i, _check_is_max_context [mkDocSpan 0 4; mkDocSpan 2 3] i 3
              = Return (i =? b).
Proof.
  assert (H1 : 5 < 2 ^ 1023) by reflexivity.
  assert (H2 : split_doc 5 5 4 2 = Finished [mkDocSpan 0 4; mkDocSpan 2 3])
    by reflexivity.
  assert (H3 : exists w, In w [mkDocSpan 0 4; mkDocSpan 2 3]
                         /\ in_span w 3 = true).
  { exists (mkDocSpan 0 4). split; [left; reflexivity|reflexivity]. }
  split; [exact H1|]. split; [exact H2|]. split; [exact H3|].
  exact (max_context_owner 5 5 4 2 [mkDocSpan 0 4; mkDocSpan 2 3] 3 H1 H2 H3).
Defined.

(** The literal [0.01] is the normalised binary64 value nearest to 1/100:
    its distance to 1/100 is at most half a unit in the last place. *)
Example lit_0_01_nearest :
  PyFloat.lit_0_01 = S754_finite false 5764607523034235 (-59) /\
  2 ^ 52 <= 5764607523034235 < 2 ^ 53 /\
  Z.abs (100 * 5764607523034235 - 2 ^ 59) <= 50.
Proof. split; [reflexivity|]. split; [split|]; vm_compute; congruence. Qed.

(** The two scores of the counterexample below: [2 + 0.01 * 118] is
    3.1799999999999997 and [3 + 0.01 * 18] is 3.18, one unit in the last
    place above. *)
Example span_scores_at_115 :
  span_score (mkDocSpan 0 118) 115
    = Return (S754_finite false 7160723407519088 (-51)) /\
  span_score (mkDocSpan 101 18) 115
    = Return (S754_finite false 7160723407519089 (-51)).
Proof. split; vm_compute; reflexivity. Qed.

(** C1 as stated fails.  With [max_tokens_for_doc = 118], [doc_stride = 101]
    and 119 sub-tokens the splitter gives the windows (0, 118) and (101, 18).
    At position 115 both have the exact score 3.18 (2 + 1.18 and 3 + 0.18),
    so the window the claim names is window 0, the lower index.  In binary64
    arithmetic [2 + 0.01 * 118] is one unit in the last place below
    [3 + 0.01 * 18], and the code flags window 1, not window 0. *)
Lemma max_context_exact_score_counterexample :
  split_doc 2 119 118 101 = Finished [mkDocSpan 0 118; mkDocSpan 101 18] /\
  exact_owner [mkDocSpan 0 118; mkDocSpan 101 18] 0 115 /\
  _check_is_max_context [mkDocSpan 0 118; mkDocSpan 101 18] 0 115
    = Return false /\
  _check_is_max_context [mkDocSpan 0 118; mkDocSpan 101 18] 1 115
    = Return true.
Proof.
  split; [reflexivity|]. split; [|split; vm_compute; reflexivity].
  split; [lia|]. exists (mkDocSpan 0 118).
  split; [reflexivity|]. split; [reflexivity|].
  intros [|[|j]] wj Hj Hin; simpl in Hj.
  - injection Hj as <-. split; [apply Qle_refl|lia].
  - injection Hj as <-. split; [|lia]. vm_compute. discriminate.
  - destruct j; discriminate.
Qed.

(** ** The span aligner *)

Lemma str_eqb_eq a b : str_eqb a b = true <-> a = b.
Proof.
  unfold str_eqb. destruct (list_eq_dec Z.eq_dec a b) as [E|E]; split; intros H;
    try reflexivity; try assumption; try discriminate; contradiction.
Qed.

(** A loop with an early [return] over an ascending range: it returns at the
    first value whose body returns. *)
Lemma for_return_range {B} (body : Z -> option B) n : forall a,
  match for_return body (range_from a n) with
  | Some b =>
      exists x, a <= x < a + Z.of_nat n /\ body x = Some b /\
                forall y, a <= y < x -> body y = None
  | None => forall y, a <= y < a + Z.of_nat n -> body y = None
  end.
Proof.
  induction n as [|n IH]; intros a.
  - simpl. intros y Hy. lia.
  - cbn [range_from for_return]. destruct (body a) as [b|] eqn:Ea.
    + exists a. split; [lia|]. split; [assumption|]. intros y Hy. lia.
    + specialize (IH (a + 1)).
      destruct (for_return body (range_from (a + 1) n)) as [b|].
      * destruct IH as (x & Hx & Hb & Hfirst). exists x.
        split; [lia|]. split; [assumption|]. intros y Hy.
        destruct (Z.eq_dec y a) as [->|Hne]; [assumption|apply Hfirst; lia].
      * intros y Hy.
        destruct (Z.eq_dec y a) as [->|Hne]; [assumption|apply IH; lia].
Qed.

(** The same over a descending range. *)
Lemma for_return_range_down {B} (body : Z -> option B) n : forall a,
  match for_return body (range_down_from a n) with
  | Some b =>
      exists x, a - Z.of_nat n < x <= a /\ body x = Some b /\
                forall y, x < y <= a -> body y = None
  | None => forall y, a - Z.of_nat n < y <= a -> body y = None
  end.
Proof.
  induction n as [|n IH]; intros a.
  - simpl. intros y Hy. lia.
  - cbn [range_down_from for_return]. destruct (body a) as [b|] eqn:Ea.
    + exists a. split; [lia|]. split; [assumption|]. intros y Hy. lia.
    + specialize (IH (a - 1)).
      destruct (for_return body (range_down_from (a - 1) n)) as [b|].
      * destruct IH as (x & Hx & Hb & Hfirst). exists x.
        split; [lia|]. split; [assumption|]. intros y Hy.
        destruct (Z.eq_dec y a) as [->|Hne]; [assumption|apply Hfirst; lia].
      * intros y Hy.
        destruct (Z.eq_dec y a) as [->|Hne]; [assumption|apply IH; lia].
Qed.

(** C5: the aligner joins the sub-tokens of the answer text with single
    spaces into a target; among the sub-spans [[s, e]] with
    [input_start <= s <= e <= input_end], taken with [s] ascending and, for
    each [s], [e] descending from [input_end], it returns the first one
    whose sub-tokens, joined with single spaces, equal the target (every
    other matching sub-span has a greater [s], or the same [s] and a smaller
    [e]); where no sub-span matches it returns [(input_start, input_end)]
    unchanged. *)
Theorem improve_answer_span_first_match
    doc_tokens input_start input_end tokenizer orig_answer_text :
  let target := join space (tokenizer orig_answer_text) in
  let matches s e := join space (slice doc_tokens s (e + 1)) = target in
  let candidate s e := input_start <= s /\ s <= e /\ e <= input_end in
  let '(new_start, new_end) :=
    _improve_answer_span doc_tokens input_start input_end tokenizer
      orig_answer_text in
  (candidate new_start new_end /\ matches new_start new_end /\
   forall s e, candidate s e -> matches s e ->
     new_start < s \/ (new_start = s /\ e <= new_end))
  \/
  ((new_start, new_end) = (input_start, input_end) /\
   forall s e, candidate s e -> ~ matches s e).
Proof.
  intros target matches candidate. unfold _improve_answer_span.
  fold target.
  set (inner := fun new_start new_end : Z =>
    if str_eqb (join space (slice doc_tokens new_start (new_end + 1))) target
    then Some (new_start, new_end) else None).
  set (outer := fun new_start : Z =>
    for_return (inner new_start) (range_down input_end (new_start - 1))).
  change (let '(new_start, new_end) :=
            match for_return outer (range input_start (input_end + 1)) with
            | Some span => span
            | None => (input_start, input_end)
            end in
          (candidate new_start new_end /\ matches new_start new_end /\
           forall s e, candidate s e -> matches s e ->
             new_start < s \/ (new_start = s /\ e <= new_end))
          \/
          ((new_start, new_end) = (input_start, input_end) /\
           forall s e, candidate s e -> ~ matches s e)).
  assert (Hinner : forall s e, inner s e = None -> ~ matches s e).
  { intros s e Hnone Hm. unfold inner in Hnone.
    apply str_eqb_eq in Hm. now rewrite Hm in Hnone. }
  assert (Houter : forall s e, candidate s e -> outer s = None -> ~ matches s e).
  { intros s e (Hs & Hse & He) Hnone. apply Hinner.
    unfold outer, range_down in Hnone.
    pose proof (for_return_range_down (inner s)
                  (Z.to_nat (input_end - (s - 1))) input_end) as H.
    rewrite Hnone in H. apply H. lia. }
  unfold range.
  pose proof (for_return_range outer
                (Z.to_nat (input_end + 1 - input_start)) input_start) as H.
  destruct (for_return outer _) as [[new_start new_end]|].
  - left. destruct H as (s0 & Hs0 & Hbody & Hfirst).
    unfold outer, range_down in Hbody.
    pose proof (for_return_range_down (inner s0)
                  (Z.to_nat (input_end - (s0 - 1))) input_end) as H'.
    rewrite Hbody in H'. destruct H' as (e0 & He0 & Hin & Hfirst').
    unfold inner in Hin.
    destruct (str_eqb _ target) eqn:Eeq; [|discriminate].
    injection Hin as <- <-. apply str_eqb_eq in Eeq.
    split; [unfold candidate; lia|]. split; [exact Eeq|].
    intros s e Hc Hm. pose proof Hc as (Hs & Hse & He).
    destruct (Z_lt_ge_dec s s0) as [Hlt|Hge].
    + exfalso. apply (Houter s e Hc); [|assumption]. apply Hfirst. lia.
    + destruct (Z.eq_dec s s0) as [->|Hne]; [|lia]. right. split; [reflexivity|].
      destruct (Z_le_gt_dec e e0) as [Hle|Hgt]; [assumption|].
      exfalso. apply (Hinner s0 e); [|assumption]. apply Hfirst'. lia.
  - right. split; [reflexivity|]. intros s e Hc.
    apply Houter; [assumption|]. apply H. unfold candidate in Hc. lia.
Qed.

(** ** The reader *)

(** A property of the state that every iteration of a loop keeps holds when
    the loop is over. *)
Lemma for_fold_inv {A S} (body : S -> A -> result S) (I : S -> Prop) l :
  forall s s',
    (forall s a s', In a l -> I s -> body s a = Return s' -> I s') ->
    I s -> for_fold body l s = Return s' -> I s'.
Proof.
  induction l as [|a l IH]; intros s s' Hstep Hs Hrun; simpl in Hrun.
  - now injection Hrun as <-.
  - destruct (body s a) as [s1|e] eqn:E; [|discriminate]. simpl in Hrun.
    apply (IH s1 s'); [| |assumption].
    + intros s2 a' s3 Ha'. apply Hstep. now right.
    + apply (Hstep s a s1); [now left|assumption|assumption].
Qed.

Lemma index_Return {A} (l : list A) i a :
  0 <= i -> index l i = Return a -> nth_error l (Z.to_nat i) = Some a.
Proof.
  intros Hi. unfold index.
  destruct (Z.ltb_spec i 0); [lia|].
  destruct (Z.ltb_spec i 0); [lia|].
  destruct (nth_error l (Z.to_nat i)); [now intros [= ->]|discriminate].
Qed.

Lemma len_append_to_last doc_tokens c :
  len (append_to_last doc_tokens c) = len doc_tokens.
Proof.
  induction doc_tokens as [|w [|w' l] IH]; try reflexivity.
  change (append_to_last (w :: w' :: l) c) with (w :: append_to_last (w' :: l) c).
  now rewrite !(len_cons w), IH.
Qed.

Lemma append_to_last_nonempty doc_tokens c :
  doc_tokens <> [] -> append_to_last doc_tokens c <> [].
Proof. destruct doc_tokens as [|w [|w' l]]; simpl; congruence. Qed.

Lemma segment_step_inv paragraph_text st c :
  segment_inv paragraph_text st ->
  segment_inv (paragraph_text ++ [c]) (segment_step st c).
Proof.
  destruct st as [[doc_tokens c2w] prev]. unfold segment_inv, segment_step.
  intros (Hlen & Hbound & Hmono & Hpos & Hne).
  set (doc_tokens' :=
         if is_whitespace c then doc_tokens
         else if prev then doc_tokens ++ [[c]] else append_to_last doc_tokens c).
  assert (E : (let '(doc_tokens0, prev_is_whitespace) :=
                 if is_whitespace c then (doc_tokens, true)
                 else (if prev then doc_tokens ++ [[c]]
                       else append_to_last doc_tokens c, false) in
               (doc_tokens0, c2w ++ [len doc_tokens0 - 1], prev_is_whitespace))
              = (doc_tokens', c2w ++ [len doc_tokens' - 1],
                 if is_whitespace c then true else false)).
  { unfold doc_tokens'. now destruct (is_whitespace c). }
  rewrite E. clear E.
  assert (Hgrow : len doc_tokens <= len doc_tokens').
  { unfold doc_tokens'. destruct (is_whitespace c); [lia|].
    destruct prev; [rewrite len_app, len_cons, len_nil; lia|].
    rewrite len_append_to_last. lia. }
  assert (Hword : is_whitespace c = false -> 1 <= len doc_tokens').
  { intros Hc. unfold doc_tokens'. rewrite Hc. destruct prev.
    - rewrite len_app, len_cons, len_nil. pose proof (len_nonneg doc_tokens). lia.
    - rewrite len_append_to_last. destruct doc_tokens; [now destruct Hne|].
      rewrite len_cons. pose proof (len_nonneg doc_tokens). lia. }
  assert (Hsnoc : forall i v, nth_error (c2w ++ [len doc_tokens' - 1]) i = Some v ->
            (i < List.length c2w)%nat /\ nth_error c2w i = Some v
            \/ i = List.length c2w /\ v = len doc_tokens' - 1).
  { intros i v Hi.
    destruct (Nat.lt_ge_cases i (List.length c2w)) as [Hlt|Hge].
    - left. rewrite nth_error_app1 in Hi by assumption. now split.
    - right. rewrite nth_error_app2 in Hi by assumption.
      destruct (i - List.length c2w)%nat as [|[|?]] eqn:Ei; simpl in Hi;
        try discriminate.
      injection Hi as <-. split; [lia|reflexivity]. }
  pose proof (len_nonneg doc_tokens') as Hnn.
  split; [rewrite !length_app; simpl; lia|].
  split; [|split; [|split]].
  - intros i v Hi. destruct (Hsnoc i v Hi) as [[_ Hi']|[_ ->]]; [|lia].
    specialize (Hbound i v Hi'). lia.
  - intros i j vi vj Hij Hi Hj.
    destruct (Hsnoc i vi Hi) as [[Hli Hi']|[Hei ->]],
             (Hsnoc j vj Hj) as [[Hlj Hj']|[Hej ->]]; try lia.
    + now apply (Hmono i j).
    + specialize (Hbound i vi Hi'). lia.
  - intros i j c' v Hij Hi Hc' Hj.
    destruct (Hsnoc j v Hj) as [[Hlj Hj']|[Hej ->]].
    + assert (Hi' : nth_error paragraph_text i = Some c').
      { rewrite nth_error_app1 in Hi by lia. assumption. }
      now apply (Hpos i j c').
    + destruct (Nat.lt_ge_cases i (List.length paragraph_text)) as [Hlt|Hge].
      * rewrite nth_error_app1 in Hi by assumption.
        destruct (nth_error c2w i) as [vi|] eqn:Evi.
        2:{ apply nth_error_None in Evi. lia. }
        pose proof (Hpos i i c' vi (Nat.le_refl i) Hi Hc' Evi).
        specialize (Hbound i vi Evi). lia.
      * rewrite nth_error_app2 in Hi by assumption.
        destruct (i - List.length paragraph_text)%nat as [|[|?]]; simpl in Hi;
          try discriminate.
        injection Hi as <-. specialize (Hword Hc'). lia.
  - intros Hprev. destruct (is_whitespace c) eqn:Ec; [discriminate|].
    subst doc_tokens'. cbv iota. rewrite ?Ec. destruct prev.
    + now destruct doc_tokens.
    + apply append_to_last_nonempty. now apply Hne.
Qed.

Lemma segment_ok paragraph_text :
  segment_inv paragraph_text (segment paragraph_text).
Proof.
  unfold segment.
  induction paragraph_text as [|c paragraph_text IH] using rev_ind.
  - simpl. split; [reflexivity|]. split; [|split; [|split]].
    + intros i v H. destruct i; discriminate.
    + intros i j vi vj _ H. destruct i; discriminate.
    + intros i j c v _ _ _ H. destruct j; discriminate.
    + discriminate.
  - rewrite fold_left_app. simpl. now apply segment_step_inv.
Qed.

(** The words the reader appends to only after a character that is not
    white space: the list is not empty there. *)
Lemma segment_tokens_nonempty paragraph_text :
  let '(doc_tokens, _, prev_is_whitespace) := segment paragraph_text in
  prev_is_whitespace = false -> doc_tokens <> [].
Proof.
  pose proof (segment_ok paragraph_text) as H.
  destruct (segment paragraph_text) as [[doc_tokens c2w] prev].
  apply H.
Qed.

Section ReaderProperties.

Variables is_training version_2 : bool.

(** An example carries the counter value it was built with. *)
Lemma read_qa_example_id doc_tokens c2w example_id qa example :
  read_qa is_training version_2 doc_tokens c2w example_id qa
    = Return (Some example) ->
  SquadExample.example_id example = example_id.
Proof.
  unfold read_qa. destruct is_training.
  - destruct (negb (len (QA.answers qa) =? 1) && negb _); [discriminate|].
    destruct (negb _).
    + destruct (index (QA.answers qa) 0) as [a|]; [|discriminate]. simpl.
      destruct (index c2w (Answer.answer_start a)) as [s|]; [|discriminate].
      simpl.
      destruct (index c2w _) as [e|]; [|discriminate]. simpl.
      destruct (find _ _ =? -1); [discriminate|]. now intros [= <-].
    + now intros [= <-].
  - now intros [= <-].
Qed.

Lemma read_qas_step_dense doc_tokens c2w st qa st' :
  dense st ->
  read_qas_step is_training version_2 doc_tokens c2w st qa = Return st' ->
  dense st'.
Proof.
  destruct st as [examples example_id]. unfold dense, read_qas_step. simpl.
  intros [Hid Hall].
  destruct (read_qa _ _ _ _ _ _) as [[example|]|] eqn:E; simpl;
    try discriminate; intros [= <-]; simpl.
  - apply read_qa_example_id in E. split; [rewrite len_app, len_cons, len_nil; lia|].
    intros i ex Hi.
    destruct (Nat.lt_ge_cases i (List.length examples)) as [Hlt|Hge].
    + rewrite nth_error_app1 in Hi by assumption. now apply Hall.
    + rewrite nth_error_app2 in Hi by assumption.
      destruct (i - List.length examples)%nat as [|[|?]] eqn:Ei; simpl in Hi;
        try discriminate.
      injection Hi as <-. rewrite E, Hid. unfold len. lia.
  - now split.
Qed.

Lemma read_entries_dense input_data st st' :
  dense st ->
  for_fold (read_entry is_training version_2) input_data st = Return st' ->
  dense st'.
Proof.
  intros Hst. apply for_fold_inv with (I := dense); [|assumption].
  clear. intros st entry st' _ Hst. unfold read_entry.
  apply for_fold_inv with (I := dense); [|assumption].
  clear. intros st paragraph st' _ Hst. unfold read_paragraph.
  destruct (segment _) as [[doc_tokens c2w] prev].
  apply for_fold_inv with (I := dense); [|assumption].
  clear. intros st qa st' _ Hst. now apply read_qas_step_dense.
Qed.

End ReaderProperties.

(** C6 (as amended): [example_id] is a dense counter over the examples the
    reader keeps: the counter moves only when an example is appended, so an
    example carries its position in the list of examples the reader returns,
    that is the number of examples kept before it. *)
Theorem read_example_id_dense is_training version_2 input_data examples :
  _read is_training version_2 input_data = Return examples ->
  forall i example, nth_error examples i = Some example ->
    SquadExample.example_id example = Z.of_nat i.
Proof.
  unfold _read. intros Hrun.
  destruct (for_fold _ input_data _) as [st|] eqn:E; [|discriminate].
  simpl in Hrun. injection Hrun as <-.
  apply read_entries_dense in E; [apply E|].
  split; [reflexivity|]. intros [|i] ex H; discriminate.
Qed.

Lemma read_example_id_dense_witness :
  _read true false Examples.one_question
    = Return [SquadExample.mk (of_string "q2") (of_string "what")
                [of_string "ab"; of_string "cd"] 0
                (Some (of_string "cd")) (Some 1) (Some 1) false] /\
  forall i example,
    nth_error [SquadExample.mk (of_string "q2") (of_string "what")
                 [of_string "ab"; of_string "cd"] 0
                 (Some (of_string "cd")) (Some 1) (Some 1) false] i
      = Some example ->
    SquadExample.example_id example = Z.of_nat i.
Proof.
  assert (H : _read true false Examples.one_question
    = Return [SquadExample.mk (of_string "q2") (of_string "what")
                [of_string "ab"; of_string "cd"] 0
                (Some (of_string "cd")) (Some 1) (Some 1) false])
    by reflexivity.
  split; [exact H|].
  exact (read_example_id_dense true false Examples.one_question _ H).
Defined.

(** C6 as stated fails.  Of the two questions on "ab cd" the first is
    dropped (its answer "xy" is not in the paragraph) and the second is
    kept: it is the question at position 1 of the input, and its example
    carries [example_id] 0, since the [continue] that drops the first
    question skips the increment of the counter. *)
Lemma example_id_counts_kept_counterexample :
  nth_error (all_questions Examples.two_questions) 1 = Some Examples.q2 /\
  exists example,
    _read true false Examples.two_questions = Return [example] /\
    SquadExample.qas_id example = QA.id Examples.q2 /\
    SquadExample.example_id example = 0 /\
    SquadExample.example_id example <> 1.
Proof.
  split; [reflexivity|].
  eexists. split; [reflexivity|]. simpl. repeat split. discriminate.
Qed.







(** ** The transform *)

Lemma for_each_Return {A B} (f : A -> result B) l : forall bs,
  for_each f l = Return bs ->
  forall b, In b bs -> exists a, In a l /\ f a = Return b.
Proof.
  induction l as [|a l IH]; intros bs Hrun b Hb; simpl in Hrun.
  - injection Hrun as <-. destruct Hb.
  - destruct (f a) as [b0|] eqn:Ea; [|discriminate]. simpl in Hrun.
    destruct (for_each f l) as [bs0|] eqn:El; [|discriminate]. simpl in Hrun.
    injection Hrun as <-. destruct Hb as [<-|Hb].
    + exists a. split; [now left|assumption].
    + destruct (IH bs0 eq_refl b Hb) as (a' & Ha' & Hf).
      exists a'. split; [now right|assumption].
Qed.

Lemma for_each_Raise {A B} (f : A -> result B) l e :
  for_each f l = Raise e -> exists a, In a l /\ f a = Raise e.
Proof.
  induction l as [|a l IH]; intros Hrun; simpl in Hrun; [discriminate|].
  destruct (f a) as [b0|e0] eqn:Ea.
  - simpl in Hrun. destruct (for_each f l) as [bs0|e1] eqn:El; [discriminate|].
    simpl in Hrun. injection Hrun as ->.
    destruct (IH eq_refl) as (a' & Ha' & Hf). exists a'. split; [now right|assumption].
  - simpl in Hrun. injection Hrun as ->. exists a. split; [now left|assumption].
Qed.

Lemma in_enumerate_from {A} (l : list A) : forall k i a,
  In (i, a) (enumerate_from k l) ->
  k <= i /\ nth_error l (Z.to_nat (i - k)) = Some a.
Proof.
  induction l as [|x l IH]; intros k i a Hin; simpl in Hin; [destruct Hin|].
  destruct Hin as [[= <- <-]|Hin].
  - rewrite Z.sub_diag. split; [lia|reflexivity].
  - destruct (IH _ _ _ Hin) as [Hk Hnth]. split; [lia|].
    replace (Z.to_nat (i - k)) with (S (Z.to_nat (i - (k + 1)))) by lia.
    exact Hnth.
Qed.

Lemma in_enumerate {A} (l : list A) i a :
  In (i, a) (enumerate l) -> 0 <= i /\ nth_error l (Z.to_nat i) = Some a.
Proof.
  intros Hin. apply in_enumerate_from in Hin.
  now rewrite Z.sub_0_r in Hin.
Qed.

Lemma length_range_from a n : List.length (range_from a n) = n.
Proof. revert a. induction n; intros a; simpl; congruence. Qed.

Lemma len_range a b : len (range a b) = Z.max 0 (b - a).
Proof. unfold len, range. rewrite length_range_from. lia. Qed.

Lemma len_repeat {A} (x : A) n : len (repeat x n) = Z.of_nat n.
Proof. unfold len. now rewrite repeat_length. Qed.

Lemma len_map {A B} (f : A -> B) l : len (map f l) = len l.
Proof. unfold len. now rewrite length_map. Qed.

Lemma for_fold_Raise {A S} (body : S -> A -> result S) l e : forall s,
  for_fold body l s = Raise e -> exists s' a, In a l /\ body s' a = Raise e.
Proof.
  induction l as [|a l IH]; intros s Hrun; cbn [for_fold] in Hrun;
    [discriminate|].
  destruct (body s a) as [s1|e1] eqn:E; cbn [bind] in Hrun.
  - destruct (IH s1 Hrun) as (s' & a' & Ha' & Hb).
    exists s', a'. split; [now right|assumption].
  - injection Hrun as ->. exists s, a. split; [now left|assumption].
Qed.

(** What the pieces can raise. *)
Lemma index_Raise {A} (l : list A) i e : index l i = Raise e -> e = IndexError.
Proof.
  unfold index. destruct (_ <? 0); [now intros [= <-]|].
  destruct (nth_error _ _); [discriminate|now intros [= <-]].
Qed.

Lemma of_int_Raise z e : PyFloat.of_int z = Raise e -> e = OverflowError.
Proof.
  unfold PyFloat.of_int.
  destruct (binary_normalize _ _ _ _ _); (discriminate || now intros [= <-]).
Qed.

Lemma not_none_Raise {A} (o : option A) e : not_none o = Raise e -> e = TypeError.
Proof. destruct o; [discriminate|now intros [= <-]]. Qed.

Lemma check_is_max_context_Raise doc_spans i p e :
  _check_is_max_context doc_spans i p = Raise e -> e = OverflowError.
Proof.
  unfold _check_is_max_context, best_span.
  destruct (for_fold _ _ _) as [st|e'] eqn:E; cbn [bind]; [discriminate|].
  intros [= <-]. apply for_fold_Raise in E.
  destruct E as ([bs bi] & [k w] & _ & E). unfold max_context_step in E.
  destruct (_ <? _); [discriminate|]. destruct (_ >? _); [discriminate|].
  unfold span_score in E.
  destruct (PyFloat.of_int (length w)) as [l|e1] eqn:E1; cbn [bind] in E.
  2:{ injection E as <-. now apply of_int_Raise in E1. }
  destruct (PyFloat.of_int (Z.min _ _)) as [m|e2] eqn:E2; cbn [bind] in E.
  2:{ injection E as <-. now apply of_int_Raise in E2. }
  destruct (match bs with Some b => _ | None => _ end); discriminate.
Qed.

Section TransformProperties.

Variable self : SQuADTransform.

Lemma transform_eq fuel example :
  _transform self fuel example =
  match aligned_span self example with
  | Raise e => Some (Raise e)
  | Return tok =>
      match split_doc fuel (sub_token_count self example)
              (max_tokens_for_doc self example) (doc_stride self) with
      | Running _ _ => None
      | Finished doc_spans =>
          Some (for_each
                  (make_feature self example (query_tokens_of self example)
                     (fst (fst (sub_tokenize self (SquadExample.doc_tokens example))))
                     (snd (sub_tokenize self (SquadExample.doc_tokens example)))
                     tok doc_spans)
                  (enumerate doc_spans))
      end
  end.
Proof.
  unfold _transform, aligned_span, sub_token_count, max_tokens_for_doc.
  now destruct (sub_tokenize self (SquadExample.doc_tokens example))
    as [[t2o o2t] all].
Qed.

(** The loop over the query tokens. *)
Lemma query_fold query_tokens : forall tokens segment_ids,
  fold_left (fun '(tokens, segment_ids) (token : str) =>
               (tokens ++ [token], segment_ids ++ [0]))
    query_tokens (tokens, segment_ids)
  = (tokens ++ query_tokens,
     segment_ids ++ repeat 0 (List.length query_tokens)).
Proof.
  induction query_tokens as [|t q IH]; intros tokens segment_ids; simpl.
  - now rewrite !app_nil_r.
  - rewrite IH, <- !app_assoc. reflexivity.
Qed.

(** The loop over the positions of a window appends one token and one
    segment id 1 per position. *)
Lemma window_fold t2o all doc_spans i w l : forall tokens m1 m2 seg tokens' m1' m2' seg',
  for_fold (window_token_step t2o all doc_spans i w) l (tokens, m1, m2, seg)
    = Return (tokens', m1', m2', seg') ->
  len tokens' = len tokens + len l /\
  seg' = seg ++ repeat 1 (List.length l).
Proof.
  induction l as [|k l IH]; intros tokens m1 m2 seg tokens' m1' m2' seg' Hrun;
    cbn [for_fold] in Hrun.
  - injection Hrun as <- _ _ <-. rewrite len_nil, app_nil_r. split; [lia|reflexivity].
  - destruct (window_token_step t2o all doc_spans i w (tokens, m1, m2, seg) k)
      as [[[[tokens1 m11] m21] seg1]|] eqn:Estep; cbn [bind] in Hrun;
      [|discriminate].
    apply IH in Hrun. destruct Hrun as [Hlen ->].
    unfold window_token_step in Estep.
    destruct (index t2o (start w + k)); [|discriminate]. simpl in Estep.
    destruct (_check_is_max_context doc_spans i (start w + k));
      [|discriminate]. simpl in Estep.
    destruct (index all (start w + k)); [|discriminate]. simpl in Estep.
    injection Estep as <- _ _ <-.
    rewrite len_app, len_cons, len_nil in Hlen. rewrite len_cons.
    split; [lia|]. rewrite <- app_assoc. reflexivity.
Qed.

Lemma repeat_snoc {A} (x : A) n : repeat x n ++ [x] = repeat x (S n).
Proof. induction n as [|n IH]; simpl; [reflexivity|now rewrite IH]. Qed.

(** What [make_feature] returns for a window, and when its first assertion
    fails. *)
Lemma make_feature_shape example q t2o all tok doc_spans i w :
  match make_feature self example q t2o all tok doc_spans (i, w) with
  | Return f =>
      SquadFeature.valid_length f = len q + 3 + Z.max 0 (length w) /\
      SquadFeature.valid_length f <= max_seq_length self /\
      len (SquadFeature.input_ids f) = max_seq_length self /\
      len (SquadFeature.segment_ids f) = max_seq_length self /\
      SquadFeature.segment_ids f =
        repeat 0 (Z.to_nat (len q + 2))
        ++ repeat 1 (Z.to_nat (Z.max 0 (length w) + 1))
        ++ repeat 0 (Z.to_nat (max_seq_length self
                               - SquadFeature.valid_length f)) /\
      SquadFeature.doc_span_index f = i /\
      SquadFeature.is_impossible f = SquadExample.is_impossible example /\
      label_positions self example q tok w =
        Return (SquadFeature.start_position f, SquadFeature.end_position f)
  | Raise AssertionError =>
      max_seq_length self < len q + 3 + Z.max 0 (length w)
  | Raise _ => True
  end.
Proof.
  unfold make_feature. rewrite query_fold.
  destruct (for_fold _ (range 0 (length w)) _)
    as [[[[tokens m1] m2] seg]|e] eqn:Efold; cbn [bind].
  2:{ apply for_fold_Raise in Efold.
      destruct Efold as ([[[tokens m1] m2] seg] & k & _ & E).
      unfold window_token_step in E.
      destruct (index t2o _) as [?|e1] eqn:E1; cbn [bind] in E.
      2:{ injection E as <-. now rewrite (index_Raise _ _ _ E1). }
      destruct (_check_is_max_context _ _ _) as [?|e2] eqn:E2; cbn [bind] in E.
      2:{ injection E as <-. now rewrite (check_is_max_context_Raise _ _ _ _ E2). }
      destruct (index all _) as [?|e3] eqn:E3; cbn [bind] in E.
      2:{ injection E as <-. now rewrite (index_Raise _ _ _ E3). }
      discriminate. }
  apply window_fold in Efold. destruct Efold as [Hlen ->].
  rewrite len_range, Z.sub_0_r in Hlen.
  rewrite !len_app, !len_cons, !len_nil in Hlen.
  assert (Hk : List.length (range 0 (length w))
               = Z.to_nat (Z.max 0 (length w))).
  { unfold range. rewrite length_range_from. lia. }
  rewrite Hk.
  set (n := Z.max 0 (length w)) in *.
  assert (Hn : 0 <= n) by (unfold n; lia).
  pose proof (len_nonneg q) as Hq.
  set (ids := convert_tokens_to_ids (tokenizer self) (tokens ++ [SEP])).
  assert (Hids : len ids = len q + 3 + n).
  { unfold ids, convert_tokens_to_ids.
    rewrite len_map, len_app, len_cons, len_nil. lia. }
  set (pad := repeat 0 (Z.to_nat (max_seq_length self - len ids))).
  assert (Hseg : (([0] ++ repeat 0 (List.length q)) ++ [0])
                 ++ repeat 1 (Z.to_nat n)
                 = repeat 0 (Z.to_nat (len q + 2)) ++ repeat 1 (Z.to_nat n)).
  { f_equal. replace (Z.to_nat (len q + 2)) with (S (S (List.length q)))
      by (unfold len; lia).
    rewrite <- repeat_snoc. reflexivity. }
  rewrite Hseg.
  assert (Hseg1 : ((repeat 0 (Z.to_nat (len q + 2)) ++ repeat 1 (Z.to_nat n))
                   ++ [1]) ++ pad
                  = repeat 0 (Z.to_nat (len q + 2))
                    ++ repeat 1 (Z.to_nat (n + 1)) ++ pad).
  { rewrite <- !app_assoc. f_equal. rewrite app_assoc. f_equal.
    rewrite repeat_snoc. f_equal. lia. }
  rewrite Hseg1.
  assert (Hlen_ids : len (ids ++ pad) = Z.max (len ids) (max_seq_length self)).
  { unfold pad. rewrite len_app, len_repeat. lia. }
  assert (Hlen_seg : len (repeat 0 (Z.to_nat (len q + 2))
                          ++ repeat 1 (Z.to_nat (n + 1)) ++ pad)
                     = Z.max (len ids) (max_seq_length self)).
  { unfold pad. rewrite !len_app, !len_repeat. lia. }
  rewrite Hlen_ids, Hlen_seg.
  destruct (Z.eqb_spec (Z.max (len ids) (max_seq_length self))
              (max_seq_length self)) as [Emax|Emax]; cbn [negb].
  2:{ lia. }
  destruct (label_positions self example q tok w) as [[sp ep]|e] eqn:Elab;
    cbn [bind].
  2:{ unfold label_positions in Elab.
      destruct (is_training self && negb _).
      - destruct (not_none tok) as [[ts te]|e1] eqn:E1; cbn [bind] in Elab.
        + destruct (negb _); cbn [bind] in Elab;
            destruct (is_training self && _); discriminate.
        + injection Elab as <-. now rewrite (not_none_Raise _ _ E1).
      - cbn [bind] in Elab. destruct (is_training self && _); discriminate. }
  cbn [SquadFeature.valid_length SquadFeature.input_ids
       SquadFeature.segment_ids SquadFeature.doc_span_index
       SquadFeature.is_impossible SquadFeature.start_position
       SquadFeature.end_position].
  rewrite Hlen_ids, Hlen_seg, Hids in *.
  repeat split; try reflexivity; try lia.
  unfold pad. now rewrite Hids.
Qed.

End TransformProperties.

Section TransformClaims.

Variable self : SQuADTransform.

Lemma aligned_span_Raise example e :
  aligned_span self example = Raise e -> e = TypeError \/ e = IndexError.
Proof.
  unfold aligned_span.
  destruct (sub_tokenize self _) as [[t2o o2t] all]. unfold tok_positions.
  destruct (is_training self && SquadExample.is_impossible example);
    [discriminate|].
  destruct (is_training self && negb _); [|discriminate].
  destruct (not_none (SquadExample.start_position example)) as [sw|e1] eqn:E1;
    cbn [bind].
  2:{ intros [= <-]. left. now apply not_none_Raise in E1. }
  destruct (index o2t sw) as [ts|e2] eqn:E2; cbn [bind].
  2:{ intros [= <-]. right. now apply index_Raise in E2. }
  destruct (not_none (SquadExample.end_position example)) as [ew|e3] eqn:E3;
    cbn [bind].
  2:{ intros [= <-]. left. now apply not_none_Raise in E3. }
  destruct (ew <? _).
  - destruct (index o2t (ew + 1)) as [t|e4] eqn:E4; cbn [bind].
    2:{ intros [= <-]. right. now apply index_Raise in E4. }
    destruct (not_none (SquadExample.orig_answer_text example)) as [a|e5] eqn:E5;
      cbn [bind]; [discriminate|].
    intros [= <-]. left. now apply not_none_Raise in E5.
  - cbn [bind].
    destruct (not_none (SquadExample.orig_answer_text example)) as [a|e5] eqn:E5;
      cbn [bind]; [discriminate|].
    intros [= <-]. left. now apply not_none_Raise in E5.
Qed.

(** Outside the labelled, answerable case the alignment step does nothing
    that can fail. *)
Lemma aligned_span_unlabelled example :
  is_training self = false \/ SquadExample.is_impossible example = true ->
  exists tok, aligned_span self example = Return tok.
Proof.
  unfold aligned_span.
  destruct (sub_tokenize self _) as [[t2o o2t] all]. unfold tok_positions.
  intros [->| ->]; simpl.
  - now eexists.
  - destruct (is_training self); simpl; now eexists.
Qed.

Lemma sub_token_count_nonneg example : 0 <= sub_token_count self example.
Proof. apply len_nonneg. Qed.

Lemma split_doc_empty fuel M stride : split_doc fuel 0 M stride = Finished [].
Proof. now destruct fuel. Qed.

(** C10: for an example whose document has no sub-token, and which is not an
    answerable example in training mode, the transform makes no window and
    returns the empty list of features, whatever the fuel. *)
Theorem transform_empty_document fuel example :
  sub_token_count self example = 0 ->
  is_training self = false \/ SquadExample.is_impossible example = true ->
  _transform self fuel example = Some (Return []).
Proof.
  intros HN Hun. rewrite transform_eq.
  destruct (aligned_span_unlabelled example Hun) as (tok & ->).
  now rewrite HN, split_doc_empty.
Qed.

(** Without room for the document ([max_tokens_for_doc < 1]) nothing is
    checked: what the alignment raises is raised, an empty document gives no
    feature, and on any other document the window loop runs for ever, each
    iteration appending a window of length [max_tokens_for_doc]. *)
Lemma transform_without_room example :
  max_tokens_for_doc self example < 1 ->
  (forall e, aligned_span self example = Raise e ->
     forall fuel, _transform self fuel example = Some (Raise e)) /\
  (forall tok, aligned_span self example = Return tok ->
     (sub_token_count self example = 0 ->
      forall fuel, _transform self fuel example = Some (Return [])) /\
     (1 <= sub_token_count self example ->
      forall fuel,
        _transform self fuel example = None /\
        exists s l,
          split_doc fuel (sub_token_count self example)
            (max_tokens_for_doc self example) (doc_stride self) = Running s l /\
          List.length l = fuel /\
          forall w, In w l -> length w = max_tokens_for_doc self example)).
Proof.
  intros HM. split.
  - intros e He fuel. now rewrite transform_eq, He.
  - intros tok Htok. split.
    + intros HN fuel. now rewrite transform_eq, Htok, HN, split_doc_empty.
    + intros HN fuel. rewrite transform_eq, Htok. unfold split_doc.
      destruct (doc_spans_loop_stuck (sub_token_count self example)
                  (max_tokens_for_doc self example) (doc_stride self) fuel 0)
        as (s & l & E & Hlen & Hl); try lia.
      rewrite E. split; [reflexivity|]. now exists s, l.
Qed.

End TransformClaims.

Lemma transform_empty_document_witness :
  sub_token_count TransformExamples.inference
    (SquadExample.mk [] [] [[8203]] 0 None None None false) = 0 /\
  (is_training TransformExamples.inference = false \/
   SquadExample.is_impossible
     (SquadExample.mk [] [] [[8203]] 0 None None None false) = true) /\
  _transform TransformExamples.inference 0
    (SquadExample.mk [] [] [[8203]] 0 None None None false)
  = Some (Return []).
Proof.
  split; [reflexivity|]. split; [left; reflexivity|].
  apply (transform_empty_document TransformExamples.inference 0
           (SquadExample.mk [] [] [[8203]] 0 None None None false)).
  - reflexivity.
  - left. reflexivity.
Defined.

(** C7 (as amended): the transform makes no check of the configuration.
    With [max_tokens_for_doc < 1] it reports no configuration error: it
    raises what the answer alignment raises, if that raises; otherwise it
    returns the empty list for a document without sub-tokens, and for any
    other document its window loop does not terminate, each iteration
    appending a window of length [max_tokens_for_doc], which is zero or
    negative. *)
Theorem transform_small_max_seq_length self example :
  max_tokens_for_doc self example < 1 ->
  (forall e, aligned_span self example = Raise e ->
     forall fuel, _transform self fuel example = Some (Raise e)) /\
  (forall tok, aligned_span self example = Return tok ->
     (sub_token_count self example = 0 ->
      forall fuel, _transform self fuel example = Some (Return [])) /\
     (1 <= sub_token_count self example ->
      forall fuel,
        _transform self fuel example = None /\
        exists s l,
          split_doc fuel (sub_token_count self example)
            (max_tokens_for_doc self example) (doc_stride self) = Running s l /\
          List.length l = fuel /\
          forall w, In w l -> length w = max_tokens_for_doc self example)).
Proof. apply transform_without_room. Qed.

Lemma transform_small_max_seq_length_witness :
  max_tokens_for_doc TransformExamples.too_short TransformExamples.example < 1 /\
  forall fuel,
    _transform TransformExamples.too_short fuel TransformExamples.example = None.
Proof.
  assert (H : max_tokens_for_doc TransformExamples.too_short
                TransformExamples.example < 1) by reflexivity.
  split; [exact H|]. intros fuel.
  destruct (transform_small_max_seq_length TransformExamples.too_short
              TransformExamples.example H) as [_ Hret].
  destruct (Hret None eq_refl) as [_ Hloop].
  destruct (Hloop ltac:(vm_compute; discriminate) fuel) as [Hnone _].
  exact Hnone.
Defined.

(** C7 as stated fails.  With [max_seq_length = 4] and the one-token query
    "who", [max_tokens_for_doc] is 0; on the two-token document [ab cd] the
    transform reports no error: after no number of iterations has its window
    loop finished, and the windows it has appended have length 0. *)
Lemma no_configuration_check_counterexample :
  max_tokens_for_doc TransformExamples.too_short TransformExamples.example = 0 /\
  (forall fuel,
     _transform TransformExamples.too_short fuel TransformExamples.example = None) /\
  split_doc 3 2 0 2
    = Running 0 [mkDocSpan 0 0; mkDocSpan 0 0; mkDocSpan 0 0].
Proof.
  split; [reflexivity|]. split; [|reflexivity].
  intros fuel.
  destruct (transform_without_room TransformExamples.too_short
              TransformExamples.example) as [_ Hret]; [reflexivity|].
  destruct (Hret None eq_refl) as [_ Hloop].
  now destruct (Hloop ltac:(vm_compute; discriminate) fuel).
Qed.

Section FeatureClaims.

Variable self : SQuADTransform.

(** The features the transform returns, each with its window. *)
Lemma transform_features fuel example features :
  _transform self fuel example = Some (Return features) ->
  exists tok doc_spans,
    aligned_span self example = Return tok /\
    split_doc fuel (sub_token_count self example)
      (max_tokens_for_doc self example) (doc_stride self) = Finished doc_spans /\
    forall f, In f features ->
      exists i w,
        0 <= i /\ nth_error doc_spans (Z.to_nat i) = Some w /\
        make_feature self example (query_tokens_of self example)
          (fst (fst (sub_tokenize self (SquadExample.doc_tokens example))))
          (snd (sub_tokenize self (SquadExample.doc_tokens example)))
          tok doc_spans (i, w) = Return f.
Proof.
  rewrite transform_eq.
  destruct (aligned_span self example) as [tok|]; [|discriminate].
  destruct (split_doc _ _ _ _) as [doc_spans|]; [|discriminate].
  intros [= Hrun]. exists tok, doc_spans. repeat split.
  intros f Hf.
  destruct (for_each_Return _ _ _ Hrun f Hf) as ([i w] & Hin & Hmake).
  apply in_enumerate in Hin. now exists i, w.
Qed.

(** C4: with room for the document ([max_tokens_for_doc >= 1], that is
    [max_seq_length >= len(query_tokens) + 4] for the truncated query), the
    assertions after the padding never fail, and every feature the transform
    returns has [len(input_ids) = len(segment_ids) = max_seq_length] and
    [valid_length <= max_seq_length]; its [segment_ids] are 0 for [CLS], the
    query and the first [SEP], 1 for the window and its [SEP], and 0 for the
    padding. *)
Theorem feature_shape fuel example :
  1 <= max_tokens_for_doc self example ->
  _transform self fuel example <> Some (Raise AssertionError) /\
  forall features,
    _transform self fuel example = Some (Return features) ->
    forall f, In f features ->
      len (SquadFeature.input_ids f) = max_seq_length self /\
      len (SquadFeature.segment_ids f) = max_seq_length self /\
      SquadFeature.valid_length f <= max_seq_length self /\
      exists window_length,
        1 <= window_length /\
        SquadFeature.valid_length f
          = len (query_tokens_of self example) + 3 + window_length /\
        SquadFeature.segment_ids f =
          repeat 0 (Z.to_nat (len (query_tokens_of self example) + 2))
          ++ repeat 1 (Z.to_nat (window_length + 1))
          ++ repeat 0 (Z.to_nat (max_seq_length self
                                 - SquadFeature.valid_length f)).
Proof.
  intros HM. split.
  - rewrite transform_eq.
    destruct (aligned_span self example) as [tok|e] eqn:Etok.
    2:{ apply aligned_span_Raise in Etok. intros [= ->].
        destruct Etok; discriminate. }
    destruct (split_doc _ _ _ _) as [doc_spans|] eqn:Esplit; [|discriminate].
    intros [= Hrun]. apply for_each_Raise in Hrun.
    destruct Hrun as ([i w] & Hin & Hmake). apply in_enumerate in Hin.
    destruct Hin as [_ Hnth]. apply nth_error_In in Hnth.
    pose proof (split_doc_bounds _ _ _ _ _ Esplit w Hnth) as Hw.
    pose proof (make_feature_shape self example (query_tokens_of self example)
                  (fst (fst (sub_tokenize self (SquadExample.doc_tokens example))))
                  (snd (sub_tokenize self (SquadExample.doc_tokens example)))
                  tok doc_spans i w) as Hshape.
    rewrite Hmake in Hshape. unfold max_tokens_for_doc in *. lia.
  - intros features Hrun f Hf.
    destruct (transform_features fuel example features Hrun)
      as (tok & doc_spans & _ & Esplit & Hall).
    destruct (Hall f Hf) as (i & w & _ & Hnth & Hmake).
    apply nth_error_In in Hnth.
    pose proof (split_doc_bounds _ _ _ _ _ Esplit w Hnth) as Hw.
    pose proof (make_feature_shape self example (query_tokens_of self example)
                  (fst (fst (sub_tokenize self (SquadExample.doc_tokens example))))
                  (snd (sub_tokenize self (SquadExample.doc_tokens example)))
                  tok doc_spans i w) as Hshape.
    rewrite Hmake in Hshape.
    destruct Hshape as (Hvalid & Hle & Hids & Hseg & Hsegs & _).
    replace (Z.max 0 (length w)) with (length w) in * by lia.
    repeat split; try assumption.
    exists (length w). repeat split; (assumption || lia).
Qed.



End FeatureClaims.

Lemma feature_shape_witness :
  1 <= max_tokens_for_doc TransformExamples.training TransformExamples.labelled /\
  _transform TransformExamples.training 2 TransformExamples.labelled
    = Some (Return [TransformExamples.labelled_feature]) /\
  len (SquadFeature.input_ids TransformExamples.labelled_feature) = 10 /\
  len (SquadFeature.segment_ids TransformExamples.labelled_feature) = 10 /\
  SquadFeature.valid_length TransformExamples.labelled_feature <= 10.
Proof.
  assert (H : 1 <= max_tokens_for_doc TransformExamples.training
                     TransformExamples.labelled)
    by (vm_compute; discriminate).
  assert (Hrun : _transform TransformExamples.training 2 TransformExamples.labelled
                 = Some (Return [TransformExamples.labelled_feature]))
    by reflexivity.
  split; [exact H|]. split; [exact Hrun|].
  destruct (feature_shape TransformExamples.training 2
              TransformExamples.labelled H) as [_ Hall].
  destruct (Hall _ Hrun TransformExamples.labelled_feature (or_introl eq_refl))
    as (Hids & Hseg & Hvalid & _).
  split; [exact Hids|]. split; [exact Hseg|exact Hvalid].
Defined.



(** The example of the comment in [_improve_answer_span]: in the sub-tokens
    of "(1895-1943)." the answer "1895" is the sub-token 1. *)
Example improve_answer_span_1895 :
  _improve_answer_span
    [of_string "("; of_string "1895"; of_string "-"; of_string "1943";
     of_string ")"; of_string "."]
    0 5 (fun text => [text]) (of_string "1895") = (1, 1).
Proof. reflexivity. Qed.

(** ** The transform returns *)

Lemma for_each_total {A B} (f : A -> result B) l :
  (forall a, In a l -> exists b, f a = Return b) ->
  exists bs, for_each f l = Return bs /\ List.length bs = List.length l.
Proof.
  induction l as [|a l IH]; intros Hall; simpl.
  - now exists [].
  - destruct (Hall a (or_introl eq_refl)) as (b & ->). simpl.
    destruct IH as (bs & -> & Hlen); [intros a' Ha'; apply Hall; now right|].
    simpl. exists (b :: bs). split; [reflexivity|]. simpl. now rewrite Hlen.
Qed.

Lemma index_total {A} (l : list A) i :
  0 <= i < len l -> exists a, index l i = Return a.
Proof.
  intros Hi. unfold index.
  destruct (Z.ltb_spec i 0); [lia|]. destruct (Z.ltb_spec i 0); [lia|].
  destruct (nth_error l (Z.to_nat i)) as [a|] eqn:E; [now exists a|].
  apply nth_error_None in E. unfold len in Hi. lia.
Qed.

Lemma in_range_from x n : forall a,
  In x (range_from a n) -> a <= x < a + Z.of_nat n.
Proof.
  induction n as [|n IH]; intros a Hin; simpl in Hin; [destruct Hin|].
  destruct Hin as [->|Hin]; [lia|]. apply IH in Hin. lia.
Qed.

Lemma in_range a b x : In x (range a b) -> a <= x < b.
Proof. unfold range. intros Hin. apply in_range_from in Hin. lia. Qed.

Lemma for_fold_total {A S} (body : S -> A -> result S) l :
  (forall s a, In a l -> exists s', body s a = Return s') ->
  forall s, exists s', for_fold body l s = Return s'.
Proof.
  induction l as [|a l IH]; intros Hall s; cbn [for_fold].
  - now exists s.
  - destruct (Hall s a (or_introl eq_refl)) as (s1 & ->). cbn [bind].
    apply IH. intros s2 a' Ha'. apply Hall. now right.
Qed.

Lemma length_enumerate_from {A} (l : list A) : forall k,
  List.length (enumerate_from k l) = List.length l.
Proof. induction l as [|a l IH]; intros k; simpl; [reflexivity|now rewrite IH]. Qed.

Section TransformReturns.

Variable self : SQuADTransform.

(** Every sub-token has its word. *)
Lemma sub_tokenize_lengths doc_tokens :
  len (fst (fst (sub_tokenize self doc_tokens)))
  = len (snd (sub_tokenize self doc_tokens)).
Proof.
  unfold sub_tokenize.
  assert (H : forall l st,
            len (fst (fst st)) = len (snd st) ->
            len (fst (fst (fold_left (doc_token_step self) l st)))
            = len (snd (fold_left (doc_token_step self) l st))).
  { induction l as [|[i token] l IH]; intros st Hst; [assumption|].
    cbn [fold_left]. apply IH. destruct st as [[t2o o2t] all].
    unfold doc_token_step. simpl in Hst.
    assert (Hin : forall subs t a, len t = len a ->
              len (fst (fold_left (sub_token_step i) subs (t, a)))
              = len (snd (fold_left (sub_token_step i) subs (t, a)))).
    { induction subs as [|x subs IHs]; intros t a Hta; [assumption|].
      cbn [fold_left sub_token_step]. apply IHs.
      unfold len in *. rewrite !length_app. simpl. lia. }
    specialize (Hin (tokenize (tokenizer self) token) t2o all Hst).
    destruct (fold_left _ _ (t2o, all)) as [t2o' all']. exact Hin. }
  apply H. reflexivity.
Qed.

(** In the labelled, answerable case the aligned span is there. *)
Lemma aligned_span_labelled example tok :
  aligned_span self example = Return tok ->
  is_training self && negb (SquadExample.is_impossible example) = true ->
  exists t, tok = Some t.
Proof.
  unfold aligned_span.
  destruct (sub_tokenize self _) as [[t2o o2t] all]. unfold tok_positions.
  intros Hrun Hlab. rewrite Hlab in Hrun.
  destruct (is_training self && SquadExample.is_impossible example);
    [injection Hrun as <-; now eexists|].
  destruct (not_none (SquadExample.start_position example));
    cbn [bind] in Hrun; [|discriminate].
  destruct (index o2t _); cbn [bind] in Hrun; [|discriminate].
  destruct (not_none (SquadExample.end_position example));
    cbn [bind] in Hrun; [|discriminate].
  destruct (_ <? _).
  - destruct (index o2t _); cbn [bind] in Hrun; [|discriminate].
    destruct (not_none (SquadExample.orig_answer_text example));
      cbn [bind] in Hrun; [|discriminate].
    injection Hrun as <-. now eexists.
  - cbn [bind] in Hrun.
    destruct (not_none (SquadExample.orig_answer_text example));
      cbn [bind] in Hrun; [|discriminate].
    injection Hrun as <-. now eexists.
Qed.

(** With room for the document, a stride of at least 1 and fewer than
    [2^1023] sub-tokens, the transform returns as soon as the alignment
    does: [len(all_doc_tokens)] iterations of the window loop are enough,
    and there is one feature per window. *)
Lemma transform_returns example tok :
  1 <= max_tokens_for_doc self example ->
  1 <= doc_stride self ->
  sub_token_count self example < 2 ^ 1023 ->
  aligned_span self example = Return tok ->
  exists doc_spans features,
    split_doc (Z.to_nat (sub_token_count self example))
      (sub_token_count self example) (max_tokens_for_doc self example)
      (doc_stride self) = Finished doc_spans /\
    _transform self (Z.to_nat (sub_token_count self example)) example
      = Some (Return features) /\
    List.length features = List.length doc_spans.
Proof.
  intros HM Hstride HN Htok. rewrite transform_eq, Htok.
  set (N := sub_token_count self example) in *.
  assert (Hsplit : exists doc_spans,
            split_doc (Z.to_nat N) N (max_tokens_for_doc self example)
              (doc_stride self) = Finished doc_spans).
  { destruct (Z_lt_ge_dec N 1) as [Hlt|Hge].
    - exists []. unfold split_doc. destruct (Z.to_nat N); simpl;
        (destruct (Z.ltb_spec 0 N); [lia|reflexivity]).
    - destruct (doc_spans_loop_finishes N (max_tokens_for_doc self example)
                  (doc_stride self) (Z.to_nat N) 0) as (ds & Hds & _); try lia.
      now exists ds. }
  destruct Hsplit as (doc_spans & Hsplit). rewrite Hsplit.
  exists doc_spans.
  set (t2o := fst (fst (sub_tokenize self (SquadExample.doc_tokens example)))).
  set (all := snd (sub_tokenize self (SquadExample.doc_tokens example))).
  assert (Hlen : len t2o = N) by apply sub_tokenize_lengths.
  assert (Hall : len all = N) by reflexivity.
  destruct (for_each_total
              (make_feature self example (query_tokens_of self example)
                 t2o all tok doc_spans) (enumerate doc_spans))
    as (features & -> & Hcount).
  2:{ exists features. split; [reflexivity|]. split; [reflexivity|].
      rewrite Hcount. apply length_enumerate_from. }
  intros [i w] Hin. apply in_enumerate in Hin. destruct Hin as [Hi Hnth].
  pose proof (nth_error_In _ _ Hnth) as Hw.
  pose proof (split_doc_bounds _ _ _ _ _ Hsplit w Hw) as Hb.
  pose proof (make_feature_shape self example (query_tokens_of self example)
                t2o all tok doc_spans i w) as Hshape.
  destruct (make_feature _ _ _ _ _ _ _ _) as [f|e] eqn:Emake;
    [now exists f|exfalso].
  unfold make_feature in Emake. rewrite query_fold in Emake.
  destruct (for_fold_total
              (window_token_step t2o all doc_spans i w) (range 0 (length w)))
    with (s := (([CLS] ++ query_tokens_of self example) ++ [SEP],
                @nil (Z * Z), @nil (Z * bool),
                ([0] ++ repeat 0 (List.length (query_tokens_of self example)))
                ++ [0]))
    as ([[[tokens m1] m2] seg] & Efold).
  { intros [[[tokens m1] m2] seg] k Hk. apply in_range in Hk.
    unfold window_token_step.
    destruct (index_total t2o (start w + k)) as (o & ->); [lia|]. cbn [bind].
    destruct (check_is_max_context_owner (start w + k) doc_spans)
      as (b & s & _ & Hcheck).
    { intros w' Hw' _.
      pose proof (split_doc_bounds _ _ _ _ _ Hsplit w' Hw'). lia. }
    { exists w. split; [assumption|]. apply in_span_bounds. lia. }
    rewrite Hcheck. cbn [bind].
    destruct (index_total all (start w + k)) as (t & ->); [lia|]. cbn [bind].
    now eexists. }
  rewrite Efold in Emake. cbn [bind] in Emake.
  destruct (negb (len (_ ++ _) =? max_seq_length self)) eqn:A1.
  { injection Emake as <-. unfold max_tokens_for_doc in *. lia. }
  destruct (negb (len ((_ ++ [1]) ++ _) =? max_seq_length self)) eqn:A2.
  { injection Emake as <-. unfold max_tokens_for_doc in *. lia. }
  destruct (label_positions self example (query_tokens_of self example) tok w)
    as [[sp ep]|e'] eqn:Elab; cbn [bind] in Emake; [discriminate|].
  unfold label_positions in Elab.
  destruct (is_training self && negb (SquadExample.is_impossible example))
    eqn:Elabelled.
  - destruct (aligned_span_labelled example tok Htok Elabelled) as ([ts te] & ->).
    cbn [not_none bind] in Elab.
    repeat match type of Elab with
           | context [if ?c then _ else _] => destruct c; cbn [bind] in Elab
           end; discriminate.
  - cbn [bind] in Elab.
    repeat match type of Elab with
           | context [if ?c then _ else _] => destruct c; cbn [bind] in Elab
           end; discriminate.
Qed.

End TransformReturns.

(** * Further properties *)

(** ** The window splitter: closed form *)

Lemma window_chain_nth N M stride s l :
  window_chain N M stride s l ->
  forall k w, nth_error l k = Some w ->
    start w = s + Z.of_nat k * effective_stride M stride /\
    length w = Z.min M (N - start w).
Proof.
  unfold effective_stride.
  induction 1 as [s Hs0 Hs HM|s l Hs0 HM1 HM Hst Hl IH]; intros k w Hk.
  - destruct k as [|[|k]]; simpl in Hk; try discriminate.
    injection Hk as <-. simpl. lia.
  - destruct k as [|k]; simpl in Hk.
    + injection Hk as <-. simpl. lia.
    + destruct (IH k w Hk) as [Hstart Hlen]. split; [lia|assumption].
Qed.

Lemma window_chain_count N M stride s l :
  window_chain N M stride s l -> 1 <= M -> 1 <= stride ->
  len l = if N - s <=? M then 1
          else (N - s - M + effective_stride M stride - 1)
               / effective_stride M stride + 1.
Proof.
  unfold effective_stride.
  induction 1 as [s Hs0 Hs HM|s l Hs0 HM1 HM Hst Hl IH]; intros HM' Hst'.
  - destruct (Z.leb_spec (N - s) M); [reflexivity|lia].
  - rewrite len_cons, (IH HM' Hst'). clear IH.
    set (d := Z.min M stride) in *. assert (Hd : 1 <= d) by (unfold d; lia).
    destruct (Z.leb_spec (N - s) M) as [?|_]; [lia|].
    destruct (Z.leb_spec (N - (s + d)) M) as [Hle|Hgt].
    + assert (E : (N - s - M + d - 1) / d = 1).
      { symmetry. apply (Z.div_unique _ _ 1 (N - s - M - 1)); lia. }
      rewrite E. reflexivity.
    + replace (N - s - M + d - 1) with ((N - (s + d) - M + d - 1) + 1 * d) by lia.
      rewrite Z.div_add by lia. lia.
Qed.

(** X1: the windows in closed form: with [d = min(max_tokens_for_doc,
    doc_stride)], window [k] starts at [k * d] and has the length
    [min(max_tokens_for_doc, N - k * d)], and there is one window where the
    document fits and [ceil((N - max_tokens_for_doc) / d) + 1] otherwise. *)
Theorem split_doc_closed_form N M stride :
  1 <= N -> 1 <= M -> 1 <= stride ->
  exists doc_spans,
    split_doc (Z.to_nat N) N M stride = Finished doc_spans /\
    len doc_spans =
      (if N <=? M then 1
       else (N - M + effective_stride M stride - 1)
            / effective_stride M stride + 1) /\
    forall k w, nth_error doc_spans k = Some w ->
      start w = Z.of_nat k * effective_stride M stride /\
      length w = Z.min M (N - Z.of_nat k * effective_stride M stride).
Proof.
  intros HN HM Hst. unfold split_doc.
  destruct (doc_spans_loop_finishes N M stride (Z.to_nat N) 0)
    as (l & Hrun & _); try lia.
  exists l. split; [assumption|].
  apply doc_spans_loop_chain in Hrun; [|lia|lia].
  split.
  - rewrite (window_chain_count _ _ _ _ _ Hrun HM Hst).
    now rewrite !Z.sub_0_r.
  - intros k w Hk.
    destruct (window_chain_nth _ _ _ _ _ Hrun k w Hk) as [Hs Hl].
    rewrite Hl, Hs. split; [lia|f_equal; lia].
Qed.

Lemma split_doc_closed_form_witness :
  1 <= 5 /\ 1 <= 4 /\ 1 <= 2 /\
  exists doc_spans,
    split_doc (Z.to_nat 5) 5 4 2 = Finished doc_spans /\
    len doc_spans =
      (if 5 <=? 4 then 1
       else (5 - 4 + effective_stride 4 2 - 1) / effective_stride 4 2 + 1) /\
    forall k w, nth_error doc_spans k = Some w ->
      start w = Z.of_nat k * effective_stride 4 2 /\
      length w = Z.min 4 (5 - Z.of_nat k * effective_stride 4 2).
Proof.
  split; [lia|]. split; [lia|]. split; [lia|].
  apply (split_doc_closed_form 5 4 2); lia.
Defined.

(** X2: a document that fits in one window gives that one window after one
    iteration, whatever the stride. *)
Theorem split_doc_short_document fuel N M stride :
  1 <= N -> N <= M ->
  split_doc (S fuel) N M stride = Finished [mkDocSpan 0 N].
Proof.
  intros HN HM. unfold split_doc.
  rewrite doc_spans_loop_last by lia. now rewrite Z.sub_0_r.
Qed.

Lemma split_doc_short_document_witness :
  1 <= 3 /\ 3 <= 6 /\ split_doc 1 3 6 0 = Finished [mkDocSpan 0 3].
Proof.
  split; [lia|]. split; [lia|].
  apply (split_doc_short_document 0 3 6 0); lia.
Defined.

(** ** The span aligner: fixed points *)

Lemma range_from_succ a n : range_from a (S n) = a :: range_from (a + 1) n.
Proof. reflexivity. Qed.

(** The first pair of the search is the input span itself. *)
Lemma improve_answer_span_match
    doc_tokens input_start input_end tokenizer orig_answer_text :
  input_start <= input_end ->
  join space (slice doc_tokens input_start (input_end + 1))
    = join space (tokenizer orig_answer_text) ->
  _improve_answer_span doc_tokens input_start input_end tokenizer
    orig_answer_text = (input_start, input_end).
Proof.
  intros Hle Hm. unfold _improve_answer_span, range, range_down.
  replace (Z.to_nat (input_end + 1 - input_start))
    with (S (Z.to_nat (input_end - input_start))) by lia.
  cbn [range_from for_return].
  replace (Z.to_nat (input_end - (input_start - 1)))
    with (S (Z.to_nat (input_end - input_start))) by lia.
  cbn [range_down_from for_return].
  apply str_eqb_eq in Hm. now rewrite Hm.
Qed.

(** X3: an ordered span whose text is already the target is returned as it
    is. *)
Theorem improve_answer_span_exact
    doc_tokens input_start input_end tokenizer orig_answer_text :
  input_start <= input_end ->
  join space (slice doc_tokens input_start (input_end + 1))
    = join space (tokenizer orig_answer_text) ->
  _improve_answer_span doc_tokens input_start input_end tokenizer
    orig_answer_text = (input_start, input_end).
Proof. apply improve_answer_span_match. Qed.

Lemma improve_answer_span_exact_witness :
  1 <= 1 /\
  join space (slice [of_string "("; of_string "1895"; of_string "-"] 1 (1 + 1))
    = join space ((fun text => [text]) (of_string "1895")) /\
  _improve_answer_span [of_string "("; of_string "1895"; of_string "-"] 1 1
    (fun text => [text]) (of_string "1895") = (1, 1).
Proof.
  assert (H1 : 1 <= 1) by lia.
  assert (H2 : join space (slice [of_string "("; of_string "1895";
                                  of_string "-"] 1 (1 + 1))
               = join space ((fun text => [text]) (of_string "1895")))
    by reflexivity.
  split; [exact H1|]. split; [exact H2|].
  exact (improve_answer_span_exact _ 1 1 (fun text => [text]) _ H1 H2).
Defined.

(** What the aligner returns is the input span or an ordered sub-span of it
    whose text is the target. *)
Lemma improve_answer_span_cases
    doc_tokens input_start input_end tokenizer orig_answer_text s e :
  _improve_answer_span doc_tokens input_start input_end tokenizer
    orig_answer_text = (s, e) ->
  (s, e) = (input_start, input_end) \/
  (input_start <= s /\ s <= e /\ e <= input_end /\
   join space (slice doc_tokens s (e + 1))
     = join space (tokenizer orig_answer_text)).
Proof.
  unfold _improve_answer_span, range, range_down.
  set (target := join space (tokenizer orig_answer_text)).
  set (inner := fun new_start new_end : Z =>
    if str_eqb (join space (slice doc_tokens new_start (new_end + 1))) target
    then Some (new_start, new_end) else None).
  set (outer := fun new_start : Z =>
    for_return (inner new_start)
      (range_down_from input_end (Z.to_nat (input_end - (new_start - 1))))).
  change (match for_return outer
                  (range_from input_start
                     (Z.to_nat (input_end + 1 - input_start))) with
          | Some span => span
          | None => (input_start, input_end)
          end = (s, e) ->
          (s, e) = (input_start, input_end) \/
          (input_start <= s /\ s <= e /\ e <= input_end /\
           join space (slice doc_tokens s (e + 1)) = target)).
  pose proof (for_return_range outer
                (Z.to_nat (input_end + 1 - input_start)) input_start) as H.
  destruct (for_return outer _) as [[s0 e0]|]; [|intros [= <- <-]; now left].
  intros [= -> ->]. right.
  destruct H as (x & Hx & Hbody & _). unfold outer in Hbody.
  pose proof (for_return_range_down (inner x)
                (Z.to_nat (input_end - (x - 1))) input_end) as H'.
  rewrite Hbody in H'. destruct H' as (y & Hy & Hin & _).
  unfold inner in Hin.
  destruct (str_eqb _ target) eqn:Eeq; [|discriminate].
  injection Hin as <- <-. apply str_eqb_eq in Eeq.
  repeat split; (assumption || lia).
Qed.

(** X4: aligning twice changes nothing: the span the aligner returns is a fixed
    point of the aligner. *)
Theorem improve_answer_span_idempotent
    doc_tokens input_start input_end tokenizer orig_answer_text :
  let '(new_start, new_end) :=
    _improve_answer_span doc_tokens input_start input_end tokenizer
      orig_answer_text in
  _improve_answer_span doc_tokens new_start new_end tokenizer orig_answer_text
  = (new_start, new_end).
Proof.
  destruct (_improve_answer_span doc_tokens input_start input_end tokenizer
              orig_answer_text) as [s e] eqn:E.
  destruct (improve_answer_span_cases _ _ _ _ _ _ _ E)
    as [[= -> ->]|(_ & Hse & _ & Hm)]; [exact E|].
  now apply improve_answer_span_match.
Qed.

(** ** The max-context resolver: containment *)

(** X5: the resolver never flags a window that does not contain the position:
    on windows shorter than [2^1023] it returns a flag, and where the flag
    is [True] the current index is that of a window containing the position
    (so for an index out of range, or a position in no window, the flag is
    [False]). *)
Theorem check_is_max_context_contains doc_spans i p :
  (forall w, In w doc_spans -> in_span w p = true -> length w < 2 ^ 1023) ->
  exists flag,
    _check_is_max_context doc_spans i p = Return flag /\
    (flag = true ->
     0 <= i /\
     exists w, nth_error doc_spans (Z.to_nat i) = Some w /\
               in_span w p = true).
Proof.
  intros Hlen.
  destruct (best_span_inv p doc_spans [] (None, None)) as (st & Hrun & Hinv);
    [assumption|intros ? []|].
  change (len (@nil DocSpan)) with 0 in Hrun. simpl in Hinv.
  unfold _check_is_max_context, best_span, enumerate. rewrite Hrun.
  cbn [bind snd].
  destruct st as [[s|] [b|]]; simpl in Hinv; try contradiction.
  - eexists; split; [reflexivity|]. intros Hflag. apply Z.eqb_eq in Hflag.
    subst i. destruct Hinv as (_ & Hb & w & Hnth & Hin & _).
    split; [assumption|]. now exists w.
  - eexists; split; [reflexivity|]. discriminate.
Qed.

Lemma check_is_max_context_contains_witness :
  (forall w, In w [mkDocSpan 0 4; mkDocSpan 2 3] -> in_span w 1 = true ->
             length w < 2 ^ 1023) /\
  exists flag,
    _check_is_max_context [mkDocSpan 0 4; mkDocSpan 2 3] 1 1 = Return flag /\
    (flag = true ->
     0 <= 1 /\
     exists w, nth_error [mkDocSpan 0 4; mkDocSpan 2 3] (Z.to_nat 1) = Some w /\
               in_span w 1 = true).
Proof.
  assert (H : forall w, In w [mkDocSpan 0 4; mkDocSpan 2 3] ->
                        in_span w 1 = true -> length w < 2 ^ 1023).
  { intros w [<-|[<-|[]]] _; reflexivity. }
  split; [exact H|].
  exact (check_is_max_context_contains [mkDocSpan 0 4; mkDocSpan 2 3] 1 1 H).
Defined.

(** X6: a position that lies in one window only has that window as its
    max-context window. *)
Theorem check_is_max_context_sole_window doc_spans i w p :
  (forall w, In w doc_spans -> in_span w p = true -> length w < 2 ^ 1023) ->
  nth_error doc_spans i = Some w -> in_span w p = true ->
  (forall j wj, nth_error doc_spans j = Some wj -> in_span wj p = true ->
                j = i) ->
  _check_is_max_context doc_spans (Z.of_nat i) p = Return true.
Proof.
  intros Hlen Hnth Hin Hsole.
  destruct (check_is_max_context_owner p doc_spans Hlen)
    as (b & s & (Hb & wb & Hnthb & Hinb & _) & Hcheck).
  { exists w. split; [now apply nth_error_In with i|assumption]. }
  rewrite Hcheck. f_equal. apply Z.eqb_eq.
  specialize (Hsole _ _ Hnthb Hinb). lia.
Qed.

Lemma check_is_max_context_sole_window_witness :
  (forall w, In w [mkDocSpan 0 4; mkDocSpan 2 3] -> in_span w 1 = true ->
             length w < 2 ^ 1023) /\
  nth_error [mkDocSpan 0 4; mkDocSpan 2 3] 0 = Some (mkDocSpan 0 4) /\
  in_span (mkDocSpan 0 4) 1 = true /\
  _check_is_max_context [mkDocSpan 0 4; mkDocSpan 2 3] (Z.of_nat 0) 1
    = Return true.
Proof.
  assert (H : forall w, In w [mkDocSpan 0 4; mkDocSpan 2 3] ->
                        in_span w 1 = true -> length w < 2 ^ 1023).
  { intros w [<-|[<-|[]]] _; reflexivity. }
  assert (H1 : nth_error [mkDocSpan 0 4; mkDocSpan 2 3] 0
               = Some (mkDocSpan 0 4)) by reflexivity.
  assert (H2 : in_span (mkDocSpan 0 4) 1 = true) by reflexivity.
  split; [exact H|]. split; [exact H1|]. split; [exact H2|].
  apply (check_is_max_context_sole_window
           [mkDocSpan 0 4; mkDocSpan 2 3] 0 (mkDocSpan 0 4) 1 H H1 H2).
  intros [|[|j]] wj Hj Hin; simpl in Hj.
  - reflexivity.
  - injection Hj as <-. discriminate.
  - destruct j; discriminate.
Defined.

(** ** The segmenter: offsets and words *)

Lemma nth_error_snoc {A} (l : list A) (x : A) i a :
  nth_error (l ++ [x]) i = Some a ->
  (i < List.length l)%nat /\ nth_error l i = Some a
  \/ i = List.length l /\ a = x.
Proof.
  intros Hi. destruct (Nat.lt_ge_cases i (List.length l)) as [Hlt|Hge].
  - left. rewrite nth_error_app1 in Hi by assumption. now split.
  - right. rewrite nth_error_app2 in Hi by assumption.
    destruct (i - List.length l)%nat as [|[|?]] eqn:Ei; simpl in Hi;
      try discriminate.
    injection Hi as <-. split; [lia|reflexivity].
Qed.

Lemma segment_step_blank paragraph_text st c :
  segment_inv paragraph_text st ->
  segment_blank_inv paragraph_text st ->
  segment_blank_inv (paragraph_text ++ [c]) (segment_step st c).
Proof.
  destruct st as [[doc_tokens c2w] prev].
  unfold segment_inv, segment_blank_inv, segment_step.
  intros (Hlen & _) (Hblank & Hoff).
  destruct (is_whitespace c) eqn:Ec.
  - split.
    + intros Hall. apply Hblank. intros c' Hc'. apply Hall.
      apply in_or_app. now left.
    + intros j v Hj Hall. apply nth_error_snoc in Hj.
      destruct Hj as [[Hlt Hj]|[-> ->]].
      * apply (Hoff j v Hj). intros i c' Hij Hi. apply (Hall i c' Hij).
        rewrite nth_error_app1 by lia. assumption.
      * rewrite Hblank; [reflexivity|].
        intros c' Hc'. apply In_nth_error in Hc'. destruct Hc' as (i & Hi).
        assert (i < List.length paragraph_text)%nat
          by (apply nth_error_Some; congruence).
        apply (Hall i c'); [lia|].
        rewrite nth_error_app1 by lia. assumption.
  - assert (Hno : ~ (forall c', In c' (paragraph_text ++ [c]) ->
                                is_whitespace c' = true)).
    { intros Hall. rewrite Hall in Ec; [discriminate|].
      apply in_or_app. right. now left. }
    split; [intros Hall; now destruct Hno|].
    intros j v Hj Hall. apply nth_error_snoc in Hj.
    destruct Hj as [[Hlt Hj]|[-> ->]].
    + apply (Hoff j v Hj). intros i c' Hij Hi. apply (Hall i c' Hij).
      rewrite nth_error_app1 by lia. assumption.
    + exfalso. rewrite (Hall (List.length paragraph_text) c) in Ec;
        [discriminate|lia|].
      rewrite nth_error_app2, Nat.sub_diag by lia. reflexivity.
Qed.

Lemma segment_blank paragraph_text :
  segment_blank_inv paragraph_text (segment paragraph_text).
Proof.
  unfold segment.
  induction paragraph_text as [|c paragraph_text IH] using rev_ind.
  - simpl. split; [reflexivity|]. intros j v H. destruct j; discriminate.
  - rewrite fold_left_app. simpl. apply segment_step_blank; [|assumption].
    apply segment_ok.
Qed.

(** X7: [char_to_word_offset] has one entry per character of the paragraph; the
    entries never decrease; an entry is -1 exactly where the paragraph has
    only white space up to that character, and otherwise it is the index of
    a word. *)
Theorem segment_offsets paragraph_text :
  let '(doc_tokens, char_to_word_offset, _) := segment paragraph_text in
  len char_to_word_offset = len paragraph_text /\
  (forall i j vi vj, (i <= j)%nat ->
     nth_error char_to_word_offset i = Some vi ->
     nth_error char_to_word_offset j = Some vj -> vi <= vj) /\
  (forall j v, nth_error char_to_word_offset j = Some v ->
     -1 <= v < len doc_tokens /\
     (v = -1 <->
      forall i c, (i <= j)%nat -> nth_error paragraph_text i = Some c ->
                  is_whitespace c = true)).
Proof.
  pose proof (segment_ok paragraph_text) as Hinv.
  pose proof (segment_blank paragraph_text) as Hb.
  destruct (segment paragraph_text) as [[doc_tokens c2w] prev].
  destruct Hinv as (Hlen & Hbound & Hmono & Hpos & _).
  destruct Hb as (_ & Hoff).
  split; [unfold len; now rewrite Hlen|]. split; [exact Hmono|].
  intros j v Hj. split; [specialize (Hbound j v Hj); lia|]. split.
  - intros -> i c Hij Hi.
    destruct (is_whitespace c) eqn:Ec; [reflexivity|].
    specialize (Hpos i j c (-1) Hij Hi Ec Hj). lia.
  - now apply Hoff.
Qed.

Lemma combine_snoc {A B} (l : list A) (l' : list B) a b :
  List.length l = List.length l' ->
  combine (l ++ [a]) (l' ++ [b]) = combine l l' ++ [(a, b)].
Proof.
  revert l'. induction l as [|x l IH]; intros [|y l'] Hlen; simpl in *;
    try discriminate; [reflexivity|].
  f_equal. apply IH. lia.
Qed.

Lemma chars_of_word_snoc paragraph_text c2w c v k :
  List.length paragraph_text = List.length c2w ->
  chars_of_word (paragraph_text ++ [c]) (c2w ++ [v]) k
  = chars_of_word paragraph_text c2w k
    ++ (if negb (is_whitespace c) && (v =? k) then [c] else []).
Proof.
  intros Hlen. unfold chars_of_word.
  rewrite combine_snoc, filter_app, map_app by assumption. f_equal. simpl.
  now destruct (negb (is_whitespace c) && (v =? k)).
Qed.

Lemma chars_of_word_none paragraph_text c2w k :
  (forall i v, nth_error c2w i = Some v -> v <> k) ->
  chars_of_word paragraph_text c2w k = [].
Proof.
  unfold chars_of_word. revert c2w.
  induction paragraph_text as [|c l IH]; intros [|v c2w] Hall; simpl;
    try reflexivity.
  destruct (Z.eqb_spec v k) as [->|Hne].
  - now destruct (Hall 0%nat k eq_refl).
  - rewrite andb_false_r. apply IH.
    intros i v' Hi. now apply (Hall (S i)).
Qed.

Lemma nth_error_append_to_last doc_tokens c k :
  nth_error (append_to_last doc_tokens c) k =
  match nth_error doc_tokens k with
  | Some w => if (S k =? List.length doc_tokens)%nat then Some (w ++ [c])
              else Some w
  | None => None
  end.
Proof.
  revert k. induction doc_tokens as [|w [|w' l] IH]; intros k.
  - now destruct k.
  - destruct k as [|[|k]]; reflexivity.
  - change (append_to_last (w :: w' :: l) c)
      with (w :: append_to_last (w' :: l) c).
    destruct k as [|k]; [reflexivity|].
    cbn [nth_error]. rewrite IH.
    destruct (nth_error (w' :: l) k); reflexivity.
Qed.

Lemma segment_step_words paragraph_text st c :
  segment_inv paragraph_text st ->
  segment_words_inv paragraph_text st ->
  segment_words_inv (paragraph_text ++ [c]) (segment_step st c).
Proof.
  destruct st as [[doc_tokens c2w] prev].
  unfold segment_inv, segment_words_inv, segment_step.
  intros (Hlen & Hbound & _ & _ & Hne) Hwords.
  assert (Hlen' : List.length paragraph_text = List.length c2w) by lia.
  destruct (is_whitespace c) eqn:Ec.
  - intros k Hk. rewrite chars_of_word_snoc, Ec by assumption.
    simpl. rewrite app_nil_r. now apply Hwords.
  - destruct prev.
    + intros k Hk. rewrite length_app in Hk. simpl in Hk.
      rewrite chars_of_word_snoc, Ec by assumption. cbn [negb andb].
      rewrite len_app, len_cons, len_nil.
      destruct (Nat.eq_dec k (List.length doc_tokens)) as [->|Hne'].
      * rewrite nth_error_app2, Nat.sub_diag by lia.
        replace (len doc_tokens + (0 + 1) - 1 =? Z.of_nat (List.length doc_tokens))
          with true by (symmetry; apply Z.eqb_eq; unfold len; lia).
        rewrite chars_of_word_none.
        { split; [reflexivity|discriminate]. }
        intros i v Hi. specialize (Hbound i v Hi). unfold len in Hbound. lia.
      * rewrite nth_error_app1 by lia.
        replace (len doc_tokens + (0 + 1) - 1 =? Z.of_nat k)
          with false by (symmetry; apply Z.eqb_neq; unfold len; lia).
        rewrite app_nil_r. apply Hwords. lia.
    + intros k Hk.
      assert (Hk' : (k < List.length doc_tokens)%nat).
      { pose proof (len_append_to_last doc_tokens c) as E.
        unfold len in E. lia. }
      rewrite chars_of_word_snoc, Ec by assumption. cbn [negb andb].
      rewrite len_append_to_last, nth_error_append_to_last.
      destruct (Hwords k Hk') as [-> Hnonempty].
      destruct (Nat.eqb_spec (S k) (List.length doc_tokens)) as [E|E].
      * replace (len doc_tokens - 1 =? Z.of_nat k)
          with true by (symmetry; apply Z.eqb_eq; unfold len; lia).
        split; [reflexivity|]. now destruct (chars_of_word _ _ _).
      * replace (len doc_tokens - 1 =? Z.of_nat k)
          with false by (symmetry; apply Z.eqb_neq; unfold len; lia).
        rewrite app_nil_r. now split.
Qed.

(** X8: the words of the segmenter: word [k] is made of the characters that are
    not white space and that [char_to_word_offset] maps to [k], in the order
    of the paragraph, and no word is empty. *)
Theorem segment_words paragraph_text :
  let '(doc_tokens, char_to_word_offset, _) := segment paragraph_text in
  forall k, (k < List.length doc_tokens)%nat ->
    nth_error doc_tokens k
      = Some (chars_of_word paragraph_text char_to_word_offset (Z.of_nat k)) /\
    chars_of_word paragraph_text char_to_word_offset (Z.of_nat k) <> [].
Proof.
  change (segment_words_inv paragraph_text (segment paragraph_text)).
  unfold segment.
  induction paragraph_text as [|c paragraph_text IH] using rev_ind.
  - simpl. intros k Hk. lia.
  - rewrite fold_left_app. simpl. apply segment_step_words; [|assumption].
    apply segment_ok.
Qed.

(** ** [whitespace_tokenize] *)

Lemma split_from_clean s : forall cur,
  Forall (fun c => isspace c = false) cur ->
  Forall clean_token (split_from cur s).
Proof.
  induction s as [|c s IH]; intros cur Hcur; simpl.
  - destruct cur; [constructor|]. constructor; [|constructor].
    split; [discriminate|assumption].
  - destruct (isspace c) eqn:Ec.
    + destruct cur as [|x cur]; [apply IH; constructor|].
      constructor; [split; [discriminate|assumption]|apply IH; constructor].
    + apply IH. apply Forall_app. split; [assumption|].
      constructor; [assumption|constructor].
Qed.

Lemma whitespace_tokenize_tokens text :
  Forall clean_token (whitespace_tokenize text).
Proof.
  unfold whitespace_tokenize, split.
  destruct (strip text) as [|c s] eqn:E; [constructor|].
  apply split_from_clean. constructor.
Qed.

(** X9: the tokens of [whitespace_tokenize] are not empty and contain no white
    space. *)
Theorem whitespace_tokenize_clean text :
  Forall clean_token (whitespace_tokenize text).
Proof. apply whitespace_tokenize_tokens. Qed.

Lemma split_from_word w : forall cur rest,
  Forall (fun c => isspace c = false) w ->
  split_from cur (w ++ rest) = split_from (cur ++ w) rest.
Proof.
  induction w as [|c w IH]; intros cur rest Hw; simpl.
  - now rewrite app_nil_r.
  - inversion Hw as [|? ? Hc Hw']; subst. rewrite Hc.
    rewrite IH by assumption. now rewrite <- app_assoc.
Qed.

Lemma split_from_join ws : forall cur,
  Forall clean_token ws -> ws <> [] ->
  split_from cur (join space ws)
  = match ws with
    | [] => []
    | w :: ws' => (cur ++ w) :: ws'
    end.
Proof.
  induction ws as [|w ws IH]; intros cur Hws Hne; [congruence|].
  inversion Hws as [|? ? [Hw Hclean] Hws']; subst.
  destruct ws as [|w' ws].
  - simpl. rewrite <- (app_nil_r w) at 1.
    rewrite split_from_word by assumption. simpl.
    destruct (cur ++ w) eqn:E; [|reflexivity].
    apply app_eq_nil in E. now destruct E.
  - change (join space (w :: w' :: ws))
      with (w ++ space ++ join space (w' :: ws)).
    rewrite split_from_word by assumption.
    change (space ++ join space (w' :: ws))
      with (32 :: join space (w' :: ws)).
    cbn [split_from]. change (isspace 32) with true. cbv iota.
    rewrite (IH [] Hws') by discriminate. simpl.
    destruct (cur ++ w) eqn:E; [|reflexivity].
    apply app_eq_nil in E. now destruct E.
Qed.

Lemma lstrip_clean_head c s : isspace c = false -> lstrip (c :: s) = c :: s.
Proof. intros Hc. simpl. now rewrite Hc. Qed.

Lemma join_clean_ends ws :
  Forall clean_token ws -> ws <> [] ->
  (exists c s, join space ws = c :: s /\ isspace c = false) /\
  (exists c s, join space ws = s ++ [c] /\ isspace c = false).
Proof.
  induction ws as [|w ws IH]; intros Hws Hne; [congruence|].
  inversion Hws as [|? ? [Hw Hclean] Hws']; subst.
  assert (Hfirst : exists c s, w = c :: s /\ isspace c = false).
  { destruct w as [|c s]; [congruence|]. exists c, s.
    inversion Hclean; subst. now split. }
  assert (Hlast : exists c s, w = s ++ [c] /\ isspace c = false).
  { destruct (exists_last Hw) as (s & c & ->). exists c, s. split; [reflexivity|].
    apply Forall_app in Hclean. destruct Hclean as [_ Hc].
    now inversion Hc. }
  destruct ws as [|w' ws].
  - simpl. now split.
  - change (join space (w :: w' :: ws))
      with (w ++ space ++ join space (w' :: ws)).
    destruct (IH Hws') as [_ (c & s & E & Hc)]; [discriminate|].
    split.
    + destruct Hfirst as (c0 & s0 & -> & Hc0). now exists c0, (s0 ++ space ++ join space (w' :: ws)).
    + exists c, (w ++ space ++ s). rewrite E, <- !app_assoc. now split.
Qed.

Lemma strip_join ws :
  Forall clean_token ws -> ws <> [] ->
  strip (join space ws) = join space ws.
Proof.
  intros Hws Hne. unfold strip.
  destruct (join_clean_ends ws Hws Hne)
    as [(c & s & E & Hc) (c' & s' & E' & Hc')].
  rewrite E, (lstrip_clean_head c s Hc), <- E, E', rev_app_distr.
  cbn [rev app]. rewrite (lstrip_clean_head c' (rev s') Hc').
  change (c' :: rev s') with (rev [c'] ++ rev s').
  now rewrite <- rev_app_distr, rev_involutive.
Qed.

Lemma whitespace_tokenize_of_join ws :
  Forall clean_token ws ->
  whitespace_tokenize (join space ws) = ws.
Proof.
  intros Hws. destruct ws as [|w ws]; [reflexivity|].
  unfold whitespace_tokenize. rewrite strip_join by (assumption || discriminate).
  destruct (join_clean_ends (w :: ws) Hws) as [(c & s & E & _) _];
    [discriminate|].
  rewrite E, <- E. unfold split.
  now rewrite split_from_join by (assumption || discriminate).
Qed.

(** X10: joining tokens that are not empty and free of white space with single
    spaces and tokenizing the result gives the tokens back. *)
Theorem whitespace_tokenize_join ws :
  Forall clean_token ws ->
  whitespace_tokenize (join space ws) = ws.
Proof. apply whitespace_tokenize_of_join. Qed.

Lemma whitespace_tokenize_join_witness :
  Forall clean_token [of_string "John"; of_string "Smith"] /\
  whitespace_tokenize (join space [of_string "John"; of_string "Smith"])
  = [of_string "John"; of_string "Smith"].
Proof.
  assert (H : Forall clean_token [of_string "John"; of_string "Smith"]).
  { repeat constructor; discriminate. }
  split; [exact H|]. exact (whitespace_tokenize_join _ H).
Defined.

(** X11: cleaning is idempotent: the cleaned text of [_read],
    [' '.join(whitespace_tokenize(text))], has the tokens of the text, so
    cleaning it again gives the same text. *)
Theorem whitespace_tokenize_idempotent text :
  whitespace_tokenize (join space (whitespace_tokenize text))
    = whitespace_tokenize text /\
  join space (whitespace_tokenize (join space (whitespace_tokenize text)))
    = join space (whitespace_tokenize text).
Proof.
  assert (H : whitespace_tokenize (join space (whitespace_tokenize text))
              = whitespace_tokenize text)
    by apply whitespace_tokenize_of_join, whitespace_tokenize_tokens.
  split; [exact H|now rewrite H].
Qed.

(** ** The reader: what it returns and what it raises *)

Lemma startswith_app s sub :
  startswith s sub = true -> exists post, s = sub ++ post.
Proof.
  revert s. induction sub as [|a sub IH]; intros s H.
  - now exists s.
  - destruct s as [|b s]; [discriminate|]. simpl in H.
    apply andb_true_iff in H. destruct H as [Hab H]. apply Z.eqb_eq in Hab.
    subst b. destruct (IH s H) as (post & ->). now exists post.
Qed.

Lemma find_from_found s sub : forall i,
  0 <= i -> find_from i s sub <> -1 ->
  exists pre post, s = pre ++ sub ++ post.
Proof.
  induction s as [|c s IH]; intros i Hi Hfound; cbn [find_from] in Hfound.
  - destruct (startswith [] sub) eqn:E; [|congruence].
    apply startswith_app in E. destruct E as (post & E). now exists [], post.
  - destruct (startswith (c :: s) sub) eqn:E.
    + apply startswith_app in E. destruct E as (post & E). now exists [], post.
    + destruct (IH (i + 1)) as (pre & post & ->); [lia|assumption|].
      now exists (c :: pre), post.
Qed.

(** A property that every example the loop body builds has holds of all the
    examples the reader returns. *)
Lemma read_examples_inv is_training version_2 (P : SquadExample.t -> Prop) :
  (forall doc_tokens c2w example_id qa example,
     read_qa is_training version_2 doc_tokens c2w example_id qa
       = Return (Some example) -> P example) ->
  forall input_data examples,
    _read is_training version_2 input_data = Return examples ->
    forall example, In example examples -> P example.
Proof.
  intros Hqa input_data examples. unfold _read. intros Hrun.
  destruct (for_fold _ input_data _) as [st|] eqn:E; [|discriminate].
  simpl in Hrun. injection Hrun as <-.
  set (I := fun st : list SquadExample.t * Z =>
              forall example, In example (fst st) -> P example).
  change (I st). revert E.
  apply for_fold_inv with (I := I); [|intros ? []].
  intros st1 entry st2 _ Hst1. unfold read_entry.
  apply for_fold_inv with (I := I); [|assumption].
  intros st3 paragraph st4 _ Hst3. unfold read_paragraph.
  destruct (segment (Paragraph.context paragraph)) as [[doc_tokens c2w] prev].
  apply for_fold_inv with (I := I); [|assumption].
  intros [exs example_id] qa st6 _ Hst5. unfold read_qas_step.
  destruct (read_qa is_training version_2 doc_tokens c2w example_id qa)
    as [[example|]|] eqn:Eqa; simpl; try discriminate; intros [= <-].
  - intros ex Hex. simpl in Hex. apply in_app_or in Hex.
    destruct Hex as [Hex|[<-|[]]]; [now apply Hst5|].
    now apply (Hqa _ _ _ _ _ Eqa).
  - assumption.
Qed.

(** X12: in training mode every example the reader keeps that is not impossible
    is recoverable: the cleaned answer text occurs in the words of its span
    joined with single spaces (the questions for which it does not are the
    ones the reader drops). *)
Theorem read_recoverable version_2 input_data examples :
  _read true version_2 input_data = Return examples ->
  forall example, In example examples ->
    SquadExample.is_impossible example = false -> recoverable example.
Proof.
  refine (read_examples_inv true version_2
            (fun example =>
               SquadExample.is_impossible example = false ->
               recoverable example) _ input_data examples).
  intros doc_tokens c2w example_id qa example. unfold read_qa.
  destruct (negb (len (QA.answers qa) =? 1) && negb _); [discriminate|].
  destruct (if version_2 then QA.is_impossible qa else false) eqn:Eimp;
    cbn [negb].
  { intros [= <-]. discriminate. }
  destruct (index (QA.answers qa) 0) as [a|]; cbn [bind]; [|discriminate].
  destruct (index c2w (Answer.answer_start a)) as [s|]; cbn [bind];
    [|discriminate].
  destruct (index c2w _) as [e|]; cbn [bind]; [|discriminate].
  destruct (Z.eqb_spec (find (join space (slice doc_tokens s (e + 1)))
                          (join space (whitespace_tokenize (Answer.text a))))
              (-1)) as [|Hfound]; [discriminate|].
  intros [= <-] _. unfold find in Hfound.
  apply find_from_found in Hfound; [|lia].
  destruct Hfound as (pre & post & E).
  exists s, e, (Answer.text a), pre, post. now repeat split.
Qed.

Lemma read_recoverable_witness :
  _read true false Examples.one_question
    = Return [SquadExample.mk (of_string "q2") (of_string "what")
                [of_string "ab"; of_string "cd"] 0
                (Some (of_string "cd")) (Some 1) (Some 1) false] /\
  recoverable (SquadExample.mk (of_string "q2") (of_string "what")
                 [of_string "ab"; of_string "cd"] 0
                 (Some (of_string "cd")) (Some 1) (Some 1) false).
Proof.
  assert (H : _read true false Examples.one_question
    = Return [SquadExample.mk (of_string "q2") (of_string "what")
                [of_string "ab"; of_string "cd"] 0
                (Some (of_string "cd")) (Some 1) (Some 1) false])
    by reflexivity.
  split; [exact H|].
  exact (read_recoverable false Examples.one_question _ H _
           (or_introl eq_refl) eq_refl).
Defined.

(** X13: impossible examples exist only with [version_2], and they carry the
    span (-1, -1) and the empty answer text. *)
Theorem read_impossible version_2 input_data examples :
  _read true version_2 input_data = Return examples ->
  forall example, In example examples ->
    SquadExample.is_impossible example = true ->
    version_2 = true /\
    SquadExample.start_position example = Some (-1) /\
    SquadExample.end_position example = Some (-1) /\
    SquadExample.orig_answer_text example = Some [].
Proof.
  refine (read_examples_inv true version_2
            (fun example =>
               SquadExample.is_impossible example = true ->
               version_2 = true /\
               SquadExample.start_position example = Some (-1) /\
               SquadExample.end_position example = Some (-1) /\
               SquadExample.orig_answer_text example = Some [])
            _ input_data examples).
  intros doc_tokens c2w example_id qa example. unfold read_qa.
  destruct (negb (len (QA.answers qa) =? 1) && negb _); [discriminate|].
  destruct (if version_2 then QA.is_impossible qa else false) eqn:Eimp;
    cbn [negb].
  - intros [= <-] _. simpl. destruct version_2; [now repeat split|discriminate].
  - destruct (index (QA.answers qa) 0) as [a|]; cbn [bind]; [|discriminate].
    destruct (index c2w (Answer.answer_start a)) as [s|]; cbn [bind];
      [|discriminate].
    destruct (index c2w _) as [e|]; cbn [bind]; [|discriminate].
    destruct (_ =? -1); [discriminate|]. intros [= <-]. discriminate.
Qed.

(** Outside training the loop body builds an unlabelled example for every
    question. *)
Lemma read_qas_inference version_2 doc_tokens c2w qas : forall examples example_id,
  exists new,
    for_fold (read_qas_step false version_2 doc_tokens c2w) qas
      (examples, example_id)
    = Return (examples ++ new, example_id + len qas) /\
    map SquadExample.qas_id new = map QA.id qas /\
    map SquadExample.question_text new = map QA.question qas /\
    Forall unlabelled new.
Proof.
  induction qas as [|qa qas IH]; intros examples example_id.
  - exists []. simpl. rewrite app_nil_r, Z.add_0_r. repeat split. constructor.
  - cbn [for_fold]. unfold read_qas_step at 1. unfold read_qa. cbn [bind].
    destruct (IH (examples ++
                  [SquadExample.mk (QA.id qa) (QA.question qa) doc_tokens
                     example_id None None None false]) (example_id + 1))
      as (new & -> & Hid & Hq & Hun).
    eexists (_ :: new). rewrite <- app_assoc, len_cons. simpl.
    split; [f_equal; f_equal; lia|]. split; [now f_equal|].
    split; [now f_equal|]. constructor; [now repeat split|assumption].
Qed.

Lemma read_paragraphs_inference version_2 paragraphs : forall examples example_id,
  exists new,
    for_fold (read_paragraph false version_2) paragraphs
      (examples, example_id)
    = Return (examples ++ new,
              example_id + len (flat_map Paragraph.qas paragraphs)) /\
    map SquadExample.qas_id new
      = map QA.id (flat_map Paragraph.qas paragraphs) /\
    map SquadExample.question_text new
      = map QA.question (flat_map Paragraph.qas paragraphs) /\
    Forall unlabelled new.
Proof.
  induction paragraphs as [|p paragraphs IH]; intros examples example_id.
  - exists []. simpl. rewrite app_nil_r, Z.add_0_r. repeat split. constructor.
  - cbn [for_fold]. unfold read_paragraph at 1.
    destruct (segment (Paragraph.context p)) as [[doc_tokens c2w] prev].
    destruct (read_qas_inference version_2 doc_tokens c2w (Paragraph.qas p)
                examples example_id) as (new1 & -> & Hid1 & Hq1 & Hun1).
    cbn [bind].
    destruct (IH (examples ++ new1) (example_id + len (Paragraph.qas p)))
      as (new2 & -> & Hid2 & Hq2 & Hun2).
    exists (new1 ++ new2). cbn [flat_map].
    rewrite <- app_assoc, len_app, !map_app, Hid1, Hid2, Hq1, Hq2.
    split; [f_equal; f_equal; lia|]. repeat split.
    apply Forall_app. now split.
Qed.

Lemma read_entries_inference version_2 input_data : forall examples example_id,
  exists new,
    for_fold (read_entry false version_2) input_data (examples, example_id)
    = Return (examples ++ new, example_id + len (all_questions input_data)) /\
    map SquadExample.qas_id new = map QA.id (all_questions input_data) /\
    map SquadExample.question_text new
      = map QA.question (all_questions input_data) /\
    Forall unlabelled new.
Proof.
  induction input_data as [|entry input_data IH]; intros examples example_id.
  - exists []. simpl. rewrite app_nil_r, Z.add_0_r. repeat split. constructor.
  - cbn [for_fold]. unfold read_entry at 1.
    destruct (read_paragraphs_inference version_2 (Entry.paragraphs entry)
                examples example_id) as (new1 & -> & Hid1 & Hq1 & Hun1).
    cbn [bind].
    destruct (IH (examples ++ new1)
                (example_id
                 + len (flat_map Paragraph.qas (Entry.paragraphs entry))))
      as (new2 & -> & Hid2 & Hq2 & Hun2).
    exists (new1 ++ new2). unfold all_questions in *. cbn [flat_map].
    rewrite <- app_assoc, len_app, !map_app, Hid1, Hid2, Hq1, Hq2.
    split; [f_equal; f_equal; lia|]. repeat split.
    apply Forall_app. now split.
Qed.

(** X14: outside training the reader never raises and drops nothing: it returns
    one example per question of the input, in order, with the id and the
    text of the question and without labels. *)
Theorem read_inference version_2 input_data :
  exists examples,
    _read false version_2 input_data = Return examples /\
    map SquadExample.qas_id examples = map QA.id (all_questions input_data) /\
    map SquadExample.question_text examples
      = map QA.question (all_questions input_data) /\
    Forall unlabelled examples.
Proof.
  unfold _read.
  destruct (read_entries_inference version_2 input_data [] 0)
    as (new & -> & Hid & Hq & Hun).
  exists new. cbn [bind fst app]. now repeat split.
Qed.

(** A question with no answer or several, and not impossible, makes the
    loop body raise [ValueError]. *)
Lemma read_qa_answer_count version_2 doc_tokens c2w example_id qa :
  len (QA.answers qa) <> 1 ->
  version_2 && QA.is_impossible qa = false ->
  read_qa true version_2 doc_tokens c2w example_id qa = Raise ValueError.
Proof.
  intros Hcount Himp. unfold read_qa.
  replace (if version_2 then QA.is_impossible qa else false)
    with (version_2 && QA.is_impossible qa) by now destruct version_2.
  rewrite Himp. destruct (Z.eqb_spec (len (QA.answers qa)) 1); [lia|].
  reflexivity.
Qed.

Lemma for_fold_app {A S} (body : S -> A -> result S) l1 l2 : forall s,
  for_fold body (l1 ++ l2) s = bind (for_fold body l1 s) (for_fold body l2).
Proof.
  induction l1 as [|a l1 IH]; intros s; [reflexivity|].
  cbn [app for_fold]. destruct (body s a) as [s1|e]; cbn [bind];
    [apply IH|reflexivity].
Qed.

Lemma index_Raise_range {A} (l : list A) i e :
  index l i = Raise e -> ~ (- len l <= i < len l).
Proof.
  unfold index. intros Hrun Hi.
  destruct (Z.ltb_spec i 0).
  - destruct (Z.ltb_spec (i + len l) 0); [lia|].
    destruct (nth_error l (Z.to_nat (i + len l))) eqn:E; [discriminate|].
    apply nth_error_None in E. unfold len in *. lia.
  - destruct (Z.ltb_spec i 0); [lia|].
    destruct (nth_error l (Z.to_nat i)) eqn:E; [discriminate|].
    apply nth_error_None in E. unfold len in *. lia.
Qed.

(** What the loop body raises in training mode: [ValueError] from the check
    of the number of answers, or [IndexError] from an offset of the answer
    outside the paragraph. *)
Lemma read_qa_raises version_2 paragraph doc_tokens c2w prev example_id qa e :
  segment (Paragraph.context paragraph) = (doc_tokens, c2w, prev) ->
  read_qa true version_2 doc_tokens c2w example_id qa = Raise e ->
  e = ValueError \/ e = IndexError /\ offset_out_of_range paragraph qa.
Proof.
  intros Hseg. pose proof (segment_ok (Paragraph.context paragraph)) as Hinv.
  rewrite Hseg in Hinv. destruct Hinv as (Hlen & _).
  assert (Hn : len c2w = len (Paragraph.context paragraph))
    by (unfold len; now rewrite Hlen).
  unfold read_qa, offset_out_of_range.
  set (is_impossible := if version_2 then QA.is_impossible qa else false).
  destruct (Z.eqb_spec (len (QA.answers qa)) 1) as [Hone|Hne]; cbn [negb andb].
  2:{ destruct is_impossible; cbn [negb]; [discriminate|].
      intros [= <-]. now left. }
  destruct is_impossible; cbn [negb]; [discriminate|].
  destruct (QA.answers qa) as [|a l] eqn:Ea; [discriminate|].
  change (index (a :: l) 0) with (Return a). cbn [bind].
  destruct (index c2w (Answer.answer_start a)) as [s|e1] eqn:E1; cbn [bind].
  2:{ intros [= <-]. right. split; [now apply index_Raise in E1|].
      exists a, l. split; [reflexivity|]. left.
      apply index_Raise_range in E1. now rewrite Hn in E1. }
  destruct (index c2w (Answer.answer_start a + len (Answer.text a) - 1))
    as [x|e2] eqn:E2; cbn [bind].
  2:{ intros [= <-]. right. split; [now apply index_Raise in E2|].
      exists a, l. split; [reflexivity|]. right.
      apply index_Raise_range in E2. now rewrite Hn in E2. }
  destruct (_ =? -1); discriminate.
Qed.

Lemma read_qas_raises version_2 paragraph doc_tokens c2w prev qas st e :
  segment (Paragraph.context paragraph) = (doc_tokens, c2w, prev) ->
  for_fold (read_qas_step true version_2 doc_tokens c2w) qas st = Raise e ->
  e = ValueError \/
  e = IndexError /\
  exists qa, In qa qas /\ offset_out_of_range paragraph qa.
Proof.
  intros Hseg Hrun. apply for_fold_Raise in Hrun.
  destruct Hrun as ([exs example_id] & qa & Hqa & E).
  unfold read_qas_step in E.
  destruct (read_qa true version_2 doc_tokens c2w example_id qa)
    as [[example|]|e'] eqn:Eqa; cbn [bind] in E; try discriminate.
  injection E as <-.
  destruct (read_qa_raises _ _ _ _ _ _ _ _ Hseg Eqa) as [->|[-> Hout]];
    [now left|].
  right. split; [reflexivity|]. now exists qa.
Qed.

Lemma read_paragraphs_raises version_2 paragraphs st e :
  for_fold (read_paragraph true version_2) paragraphs st = Raise e ->
  e = ValueError \/
  e = IndexError /\
  exists paragraph qa,
    In (paragraph, qa) (flat_map questions_of_paragraph paragraphs) /\
    offset_out_of_range paragraph qa.
Proof.
  intros Hrun. apply for_fold_Raise in Hrun.
  destruct Hrun as (st' & paragraph & Hpara & E). unfold read_paragraph in E.
  destruct (segment (Paragraph.context paragraph))
    as [[doc_tokens c2w] prev] eqn:Hseg.
  destruct (read_qas_raises _ _ _ _ _ _ _ _ Hseg E)
    as [->|[-> (qa & Hqa & Hout)]]; [now left|].
  right. split; [reflexivity|]. exists paragraph, qa. split; [|assumption].
  apply in_flat_map. exists paragraph. split; [assumption|].
  unfold questions_of_paragraph. now apply in_map.
Qed.

Lemma read_entries_raises version_2 input_data st e :
  for_fold (read_entry true version_2) input_data st = Raise e ->
  e = ValueError \/
  e = IndexError /\
  exists paragraph qa,
    In (paragraph, qa) (questions_of input_data) /\
    offset_out_of_range paragraph qa.
Proof.
  intros Hrun. apply for_fold_Raise in Hrun.
  destruct Hrun as (st' & entry & Hentry & E). unfold read_entry in E.
  destruct (read_paragraphs_raises _ _ _ _ E)
    as [->|[-> (paragraph & qa & Hin & Hout)]]; [now left|].
  right. split; [reflexivity|]. exists paragraph, qa. split; [|assumption].
  apply in_flat_map. now exists entry.
Qed.

(** X15: in training mode the reader does not return when a question of the
    input that is not impossible has no answer or more than one.  It raises
    [ValueError], from the check of the number of answers, unless an offset
    of an answer met before that question lies outside its paragraph, which
    is the one way in which it raises [IndexError] instead; so where no
    earlier offset is out of range it raises [ValueError]. *)
Theorem read_answer_count
    version_2 es1 entry es2 ps1 paragraph ps2 qs1 qa qs2 :
  Entry.paragraphs entry = ps1 ++ paragraph :: ps2 ->
  Paragraph.qas paragraph = qs1 ++ qa :: qs2 ->
  len (QA.answers qa) <> 1 ->
  version_2 && QA.is_impossible qa = false ->
  exists e,
    _read true version_2 (es1 ++ entry :: es2) = Raise e /\
    (e = ValueError \/
     e = IndexError /\
     exists paragraph' qa',
       In (paragraph', qa') (earlier_questions es1 ps1 paragraph qs1) /\
       offset_out_of_range paragraph' qa') /\
    ((forall paragraph' qa',
        In (paragraph', qa') (earlier_questions es1 ps1 paragraph qs1) ->
        ~ offset_out_of_range paragraph' qa') ->
     e = ValueError).
Proof.
  intros Hps Hqs Hcount Himp.
  assert (Hrun : exists e,
            _read true version_2 (es1 ++ entry :: es2) = Raise e /\
            (e = ValueError \/
             e = IndexError /\
             exists paragraph' qa',
               In (paragraph', qa') (earlier_questions es1 ps1 paragraph qs1) /\
               offset_out_of_range paragraph' qa')).
  { unfold _read, earlier_questions. rewrite for_fold_app.
    destruct (for_fold (read_entry true version_2) es1 ([], 0))
      as [st1|e] eqn:E1; cbn [bind].
    2:{ exists e. split; [reflexivity|].
        destruct (read_entries_raises _ _ _ _ E1)
          as [->|[-> (p' & q' & Hin & Hout)]]; [now left|].
        right. split; [reflexivity|]. exists p', q'. split; [|assumption].
        apply in_or_app. now left. }
    cbn [for_fold]. unfold read_entry at 1. rewrite Hps, for_fold_app.
    destruct (for_fold (read_paragraph true version_2) ps1 st1)
      as [st2|e] eqn:E2; cbn [bind].
    2:{ exists e. split; [reflexivity|].
        destruct (read_paragraphs_raises _ _ _ _ E2)
          as [->|[-> (p' & q' & Hin & Hout)]]; [now left|].
        right. split; [reflexivity|]. exists p', q'. split; [|assumption].
        apply in_or_app. right. apply in_or_app. now left. }
    cbn [for_fold]. unfold read_paragraph at 1.
    destruct (segment (Paragraph.context paragraph))
      as [[doc_tokens c2w] prev] eqn:Hseg.
    rewrite Hqs, for_fold_app.
    destruct (for_fold (read_qas_step true version_2 doc_tokens c2w) qs1 st2)
      as [[exs example_id]|e] eqn:E3; cbn [bind].
    2:{ exists e. split; [reflexivity|].
        destruct (read_qas_raises _ _ _ _ _ _ _ _ Hseg E3)
          as [->|[-> (q' & Hin & Hout)]]; [now left|].
        right. split; [reflexivity|]. exists paragraph, q'.
        split; [|assumption].
        apply in_or_app. right. apply in_or_app. right. now apply in_map. }
    cbn [for_fold]. unfold read_qas_step at 1.
    rewrite read_qa_answer_count by assumption. cbn [bind].
    exists ValueError. split; [reflexivity|now left]. }
  destruct Hrun as (e & Hrun & Hcases). exists e.
  split; [assumption|]. split; [assumption|].
  intros Hearlier.
  destruct Hcases as [->|(_ & p' & q' & Hin & Hout)]; [reflexivity|].
  now destruct (Hearlier p' q' Hin).
Qed.

Lemma read_answer_count_witness :
  Entry.paragraphs (Entry.mk [ReaderExamples.second_two_answers])
    = [] ++ ReaderExamples.second_two_answers :: [] /\
  Paragraph.qas ReaderExamples.second_two_answers
    = [Examples.q2] ++ ReaderExamples.two_answers :: [] /\
  len (QA.answers ReaderExamples.two_answers) <> 1 /\
  false && QA.is_impossible ReaderExamples.two_answers = false /\
  _read true false ([] ++ Entry.mk [ReaderExamples.second_two_answers] :: [])
    = Raise ValueError.
Proof.
  assert (H1 : Entry.paragraphs (Entry.mk [ReaderExamples.second_two_answers])
               = [] ++ ReaderExamples.second_two_answers :: [])
    by reflexivity.
  assert (H2 : Paragraph.qas ReaderExamples.second_two_answers
               = [Examples.q2] ++ ReaderExamples.two_answers :: [])
    by reflexivity.
  assert (H3 : len (QA.answers ReaderExamples.two_answers) <> 1)
    by (vm_compute; discriminate).
  assert (H4 : false && QA.is_impossible ReaderExamples.two_answers = false)
    by reflexivity.
  split; [exact H1|]. split; [exact H2|]. split; [exact H3|].
  split; [exact H4|].
  destruct (read_answer_count false [] _ [] [] _ [] [Examples.q2] _ []
              H1 H2 H3 H4) as (e & Hrun & _ & Hvalue).
  rewrite Hrun. f_equal. apply Hvalue.
  intros paragraph' qa' [[= <- <-]|[]] (a & l & [= <- <-] & [Hout|Hout]);
    apply Hout; vm_compute; (split; [discriminate|reflexivity]).
Defined.

(** ** The transform: sub-tokens and query *)

Section SubTokens.

Variable self : SQuADTransform.

Lemma sub_token_fold i sub_tokens : forall t2o all,
  fold_left (sub_token_step i) sub_tokens (t2o, all)
  = (t2o ++ repeat i (List.length sub_tokens), all ++ sub_tokens).
Proof.
  induction sub_tokens as [|x l IH]; intros t2o all; simpl.
  - now rewrite !app_nil_r.
  - rewrite IH, <- !app_assoc. reflexivity.
Qed.

Lemma doc_token_fold doc_tokens : forall k t2o o2t all,
  fold_left (doc_token_step self) (enumerate_from k doc_tokens)
    (t2o, o2t, all)
  = (t2o ++ word_indices (tokenize (tokenizer self))
               (enumerate_from k doc_tokens),
     o2t ++ word_offsets (tokenize (tokenizer self)) (len all) doc_tokens,
     all ++ flat_map (tokenize (tokenizer self)) doc_tokens).
Proof.
  induction doc_tokens as [|w l IH]; intros k t2o o2t all.
  - simpl. now rewrite !app_nil_r.
  - cbn [enumerate_from fold_left]. unfold doc_token_step at 2.
    rewrite sub_token_fold, IH, len_app. unfold word_indices.
    cbn [flat_map word_offsets fst snd]. now rewrite <- !app_assoc.
Qed.

(** The three lists of the sub-tokenization in closed form: the sub-tokens
    of the words in order, the word index of each sub-token, and the index
    of the first sub-token of each word. *)
Lemma sub_tokenize_closed_form doc_tokens :
  sub_tokenize self doc_tokens
  = (word_indices (tokenize (tokenizer self)) (enumerate doc_tokens),
     word_offsets (tokenize (tokenizer self)) 0 doc_tokens,
     flat_map (tokenize (tokenizer self)) doc_tokens).
Proof. unfold sub_tokenize, enumerate. now rewrite doc_token_fold. Qed.

Lemma length_word_offsets tokenize doc_tokens : forall n,
  List.length (word_offsets tokenize n doc_tokens) = List.length doc_tokens.
Proof.
  induction doc_tokens as [|w l IH]; intros n; simpl; [reflexivity|].
  now rewrite IH.
Qed.

(** Word [i] and its sub-tokens, in the lists that start at word [k] and
    sub-token [n]. *)
Lemma word_sub_tokens_from tokenize doc_tokens : forall k n i token j,
  0 <= n ->
  nth_error doc_tokens i = Some token ->
  (j < List.length (tokenize token))%nat ->
  exists o,
    nth_error (word_offsets tokenize n doc_tokens) i = Some o /\ n <= o /\
    nth_error (word_indices tokenize (enumerate_from k doc_tokens))
      (Z.to_nat (o - n) + j) = Some (k + Z.of_nat i) /\
    nth_error (flat_map tokenize doc_tokens) (Z.to_nat (o - n) + j)
      = nth_error (tokenize token) j.
Proof.
  induction doc_tokens as [|w l IH]; intros k n i token j Hn Hi Hj.
  - destruct i; discriminate.
  - destruct i as [|i]; cbn [nth_error] in Hi.
    + injection Hi as ->. exists n. cbn [word_offsets nth_error].
      split; [reflexivity|]. split; [lia|].
      rewrite Z.sub_diag. cbn [Z.to_nat Nat.add enumerate_from flat_map].
      unfold word_indices. cbn [flat_map fst snd].
      rewrite !nth_error_app1 by (rewrite ?repeat_length; assumption).
      split; [|reflexivity].
      rewrite Z.add_0_r. apply nth_error_repeat. assumption.
    + destruct (IH (k + 1) (n + len (tokenize w)) i token j)
        as (o & Ho & Hno & Hidx & Htok); try assumption.
      { pose proof (len_nonneg (tokenize w)). lia. }
      exists o. cbn [word_offsets nth_error enumerate_from flat_map].
      unfold word_indices in *. cbn [flat_map fst snd].
      pose proof (len_nonneg (tokenize w)) as Hw.
      split; [assumption|]. split; [lia|].
      replace (Z.to_nat (o - n) + j)%nat
        with (List.length (tokenize w)
              + (Z.to_nat (o - (n + len (tokenize w))) + j))%nat
        by (unfold len in *; lia).
      split.
      * rewrite nth_error_app2 by (rewrite repeat_length; lia).
        rewrite repeat_length.
        replace (List.length (tokenize w)
                 + (Z.to_nat (o - (n + len (tokenize w))) + j)
                 - List.length (tokenize w))%nat
          with (Z.to_nat (o - (n + len (tokenize w))) + j)%nat by lia.
        rewrite Hidx. f_equal. lia.
      * rewrite nth_error_app2 by lia.
        replace (List.length (tokenize w)
                 + (Z.to_nat (o - (n + len (tokenize w))) + j)
                 - List.length (tokenize w))%nat
          with (Z.to_nat (o - (n + len (tokenize w))) + j)%nat by lia.
        exact Htok.
Qed.

(** X16: the sub-tokens of the document are those of its words, in order;
    [orig_to_tok_index] has one entry per word; and the two index maps agree:
    the sub-tokens of word [i] start at [orig_to_tok_index[i]], and
    [tok_to_orig_index] maps each of them back to [i]. *)
Theorem sub_tokenize_round_trip doc_tokens :
  let '(tok_to_orig_index, orig_to_tok_index, all_doc_tokens) :=
    sub_tokenize self doc_tokens in
  all_doc_tokens = flat_map (tokenize (tokenizer self)) doc_tokens /\
  len tok_to_orig_index = len all_doc_tokens /\
  len orig_to_tok_index = len doc_tokens /\
  forall i token j,
    nth_error doc_tokens i = Some token ->
    (j < List.length (tokenize (tokenizer self) token))%nat ->
    exists o,
      nth_error orig_to_tok_index i = Some o /\ 0 <= o /\
      nth_error tok_to_orig_index (Z.to_nat o + j) = Some (Z.of_nat i) /\
      nth_error all_doc_tokens (Z.to_nat o + j)
        = nth_error (tokenize (tokenizer self) token) j.
Proof.
  pose proof (sub_tokenize_lengths self doc_tokens) as Hlen.
  rewrite sub_tokenize_closed_form in *. cbn [fst snd] in Hlen.
  split; [reflexivity|]. split; [assumption|].
  split; [unfold len; now rewrite length_word_offsets|].
  intros i token j Hi Hj.
  destruct (word_sub_tokens_from (tokenize (tokenizer self)) doc_tokens
              0 0 i token j) as (o & Ho & Hno & Hidx & Htok);
    try assumption; [lia|].
  exists o. rewrite Z.sub_0_r in *. now repeat split.
Qed.

(** X17: the query is the question's sub-tokens, cut to the first
    [max_query_length] where there are more. *)
Theorem query_tokens_truncated example :
  0 <= max_query_length self ->
  query_tokens_of self example
    = firstn (Z.to_nat (max_query_length self))
        (tokenize (tokenizer self) (SquadExample.question_text example)) /\
  len (query_tokens_of self example) <= max_query_length self.
Proof.
  intros Hmax. unfold query_tokens_of.
  set (query_tokens := tokenize (tokenizer self) _).
  pose proof (len_nonneg query_tokens) as Hq.
  destruct (Z.gtb_spec (len query_tokens) (max_query_length self)) as [Hgt|Hle].
  - unfold slice, clamp.
    destruct (Z.ltb_spec 0 0); [lia|].
    destruct (Z.ltb_spec (max_query_length self) 0); [lia|].
    replace (Z.max 0 (Z.min (len query_tokens) 0)) with 0 by lia.
    replace (Z.max 0 (Z.min (len query_tokens) (max_query_length self)))
      with (max_query_length self) by lia.
    rewrite Z.sub_0_r. cbn [Z.to_nat skipn]. split; [reflexivity|].
    unfold len in *. rewrite length_firstn. lia.
  - split; [|assumption]. symmetry. apply firstn_all2. unfold len in *. lia.
Qed.

End SubTokens.

Lemma query_tokens_truncated_witness :
  0 <= max_query_length TransformExamples.training /\
  query_tokens_of TransformExamples.training TransformExamples.labelled
    = firstn (Z.to_nat (max_query_length TransformExamples.training))
        (tokenize (tokenizer TransformExamples.training)
           (SquadExample.question_text TransformExamples.labelled)) /\
  len (query_tokens_of TransformExamples.training TransformExamples.labelled)
    <= max_query_length TransformExamples.training.
Proof.
  assert (H : 0 <= max_query_length TransformExamples.training)
    by (vm_compute; discriminate).
  split; [exact H|].
  exact (query_tokens_truncated TransformExamples.training
           TransformExamples.labelled H).
Defined.

(** ** The transform: the features of the windows *)

Lemma dict_get_set {V} (d : list (Z * V)) k v k' :
  dict_get (dict_set d k v) k' = if k =? k' then Some v else dict_get d k'.
Proof.
  induction d as [|[k0 v0] d IH]; cbn [dict_set dict_get]; [reflexivity|].
  destruct (Z.eqb_spec k0 k) as [->|Hne]; cbn [dict_get].
  - destruct (k =? k'); reflexivity.
  - rewrite IH.
    destruct (Z.eqb_spec k0 k'); destruct (Z.eqb_spec k k');
      try reflexivity; lia.
Qed.

Lemma nth_error_range_from n : forall a j,
  (j < n)%nat -> nth_error (range_from a n) j = Some (a + Z.of_nat j).
Proof.
  induction n as [|n IH]; intros a j Hj; [lia|].
  destruct j as [|j]; cbn [range_from nth_error].
  - f_equal. lia.
  - rewrite IH by lia. f_equal. lia.
Qed.

Lemma nth_error_enumerate_from {A} (l : list A) : forall k i a,
  nth_error l i = Some a ->
  nth_error (enumerate_from k l) i = Some (k + Z.of_nat i, a).
Proof.
  induction l as [|x l IH]; intros k i a Hi; [destruct i; discriminate|].
  destruct i as [|i]; cbn [nth_error enumerate_from] in *.
  - injection Hi as ->. now rewrite Z.add_0_r.
  - rewrite (IH (k + 1) i a Hi). do 2 f_equal. lia.
Qed.

(** A loop that returns has run its body on every element, in order. *)
Lemma for_each_nth {A B} (f : A -> result B) l : forall bs,
  for_each f l = Return bs ->
  List.length bs = List.length l /\
  forall i a, nth_error l i = Some a ->
    exists b, nth_error bs i = Some b /\ f a = Return b.
Proof.
  induction l as [|x l IH]; intros bs Hrun; cbn [for_each] in Hrun.
  - injection Hrun as <-. split; [reflexivity|]. intros [|i] a; discriminate.
  - destruct (f x) as [b0|] eqn:Ex; cbn [bind] in Hrun; [|discriminate].
    destruct (for_each f l) as [bs0|]; cbn [bind] in Hrun; [|discriminate].
    injection Hrun as <-. destruct (IH bs0 eq_refl) as [Hlen Hnth].
    split; [simpl; now rewrite Hlen|].
    intros [|i] a Hi; cbn [nth_error] in *.
    + injection Hi as <-. now exists b0.
    + now apply Hnth.
Qed.

(** A list that holds the items [s .. s + n - 1] of [l] is the slice
    [l[s : s + n]]. *)
Lemma slice_ext {A} (l win : list A) s n :
  0 <= s -> 0 <= n -> s + n <= len l ->
  len win = n ->
  (forall k, 0 <= k < n ->
     nth_error win (Z.to_nat k) = nth_error l (Z.to_nat (s + k))) ->
  win = slice l s (s + n).
Proof.
  intros Hs Hn Hsn Hlen Hwin. unfold slice, clamp.
  destruct (Z.ltb_spec s 0); [lia|]. destruct (Z.ltb_spec (s + n) 0); [lia|].
  replace (Z.max 0 (Z.min (len l) s)) with s by lia.
  replace (Z.max 0 (Z.min (len l) (s + n))) with (s + n) by lia.
  replace (s + n - s) with n by lia.
  apply nth_error_ext. intros j.
  rewrite nth_error_firstn, nth_error_skipn.
  destruct (Nat.ltb_spec j (Z.to_nat n)) as [Hj|Hj].
  - rewrite <- (Nat2Z.id j) at 1. rewrite Hwin by lia. f_equal. lia.
  - apply nth_error_None. unfold len in Hlen. lia.
Qed.

Section Features.

Variable self : SQuADTransform.

(** The loop over the positions of a window: the tokens it appends and the
    entries it writes, which are keyed by the position in the feature and
    leave every other key as it was. *)
Lemma window_fold_content t2o all doc_spans i w l :
  forall tokens m1 m2 seg tokens' m1' m2' seg',
  for_fold (window_token_step t2o all doc_spans i w) l (tokens, m1, m2, seg)
    = Return (tokens', m1', m2', seg') ->
  exists win,
    tokens' = tokens ++ win /\ List.length win = List.length l /\
    (forall j k, nth_error l j = Some k ->
       exists o b t,
         index t2o (start w + k) = Return o /\
         _check_is_max_context doc_spans i (start w + k) = Return b /\
         index all (start w + k) = Return t /\
         nth_error win j = Some t /\
         dict_get m1' (len tokens + Z.of_nat j) = Some o /\
         dict_get m2' (len tokens + Z.of_nat j) = Some b) /\
    (forall key, key < len tokens \/ len tokens + len l <= key ->
       dict_get m1' key = dict_get m1 key /\
       dict_get m2' key = dict_get m2 key).
Proof.
  induction l as [|k l IH]; intros tokens m1 m2 seg tokens' m1' m2' seg' Hrun;
    cbn [for_fold] in Hrun.
  - injection Hrun as <- <- <- _. exists []. rewrite app_nil_r.
    split; [reflexivity|]. split; [reflexivity|].
    split; [intros [|j] k; discriminate|]. now intros key _.
  - destruct (window_token_step t2o all doc_spans i w (tokens, m1, m2, seg) k)
      as [[[[tokens1 m11] m21] seg1]|] eqn:Estep; cbn [bind] in Hrun;
      [|discriminate].
    unfold window_token_step in Estep.
    destruct (index t2o (start w + k)) as [o|] eqn:Eo; [|discriminate].
    cbn [bind] in Estep.
    destruct (_check_is_max_context doc_spans i (start w + k)) as [b|] eqn:Eb;
      [|discriminate].
    cbn [bind] in Estep.
    destruct (index all (start w + k)) as [t|] eqn:Et; [|discriminate].
    cbn [bind] in Estep. injection Estep as <- <- <- <-.
    destruct (IH _ _ _ _ _ _ _ _ Hrun) as (win & -> & Hlen & Hnth & Hkeep).
    rewrite len_app, len_cons, len_nil in Hnth, Hkeep.
    exists (t :: win). rewrite <- app_assoc.
    split; [reflexivity|]. split; [simpl; now rewrite Hlen|].
    pose proof (len_nonneg l) as Hl.
    split.
    + intros [|j] k' Hj; cbn [nth_error] in Hj.
      * injection Hj as <-. exists o, b, t.
        repeat split; try assumption.
        -- rewrite Z.add_0_r.
           destruct (Hkeep (len tokens)) as [-> _]; [lia|].
           now rewrite dict_get_set, Z.eqb_refl.
        -- rewrite Z.add_0_r.
           destruct (Hkeep (len tokens)) as [_ ->]; [lia|].
           now rewrite dict_get_set, Z.eqb_refl.
      * destruct (Hnth j k' Hj) as (o' & b' & t' & Ho' & Hb' & Ht' & Hw' & H1 & H2).
        exists o', b', t'. repeat split; try assumption.
        -- rewrite <- H1. f_equal. lia.
        -- rewrite <- H2. f_equal. lia.
    + intros key Hkey. rewrite len_cons in Hkey.
      destruct (Hkeep key) as [-> ->]; [lia|].
      rewrite !dict_get_set.
      destruct (Z.eqb_spec (len tokens) key); [lia|]. now split.
Qed.

(** What a feature holds: the fields copied from the example, the tokens
    [[CLS] query [SEP] window [SEP]], the ids of the tokens followed by the
    padding, and the two maps, keyed by the positions of the window's tokens
    in the feature and by nothing else. *)
Lemma make_feature_content example q t2o all tok doc_spans i w f :
  make_feature self example q t2o all tok doc_spans (i, w) = Return f ->
  SquadFeature.example_id f = SquadExample.example_id example /\
  SquadFeature.qas_id f = SquadExample.qas_id example /\
  SquadFeature.doc_tokens f = SquadExample.doc_tokens example /\
  SquadFeature.valid_length f = len (SquadFeature.tokens f) /\
  SquadFeature.input_ids f
    = convert_tokens_to_ids (tokenizer self) (SquadFeature.tokens f)
      ++ repeat 0 (Z.to_nat (max_seq_length self
                             - SquadFeature.valid_length f)) /\
  exists win,
    SquadFeature.tokens f = [CLS] ++ q ++ [SEP] ++ win ++ [SEP] /\
    len win = Z.max 0 (length w) /\
    (forall k, 0 <= k < length w ->
       exists o b t,
         index t2o (start w + k) = Return o /\
         _check_is_max_context doc_spans i (start w + k) = Return b /\
         index all (start w + k) = Return t /\
         nth_error win (Z.to_nat k) = Some t /\
         dict_get (SquadFeature.token_to_orig_map f) (len q + 2 + k)
           = Some o /\
         dict_get (SquadFeature.token_is_max_context f) (len q + 2 + k)
           = Some b) /\
    (forall key, key < len q + 2 \/ len q + 2 + Z.max 0 (length w) <= key ->
       dict_get (SquadFeature.token_to_orig_map f) key = None /\
       dict_get (SquadFeature.token_is_max_context f) key = None).
Proof.
  unfold make_feature. rewrite query_fold.
  destruct (for_fold _ (range 0 (length w)) _)
    as [[[[tokens m1] m2] seg]|e] eqn:Efold; cbn [bind]; [|discriminate].
  apply window_fold_content in Efold.
  destruct Efold as (win & -> & Hlen & Hnth & Hkeep).
  destruct (negb (len (_ ++ _) =? max_seq_length self)); [discriminate|].
  destruct (negb (len ((_ ++ [1]) ++ _) =? max_seq_length self));
    [discriminate|].
  destruct (label_positions self example q tok w) as [[sp ep]|];
    cbn [bind]; [|discriminate].
  intros [= <-].
  cbn [SquadFeature.example_id SquadFeature.qas_id SquadFeature.doc_tokens
       SquadFeature.valid_length SquadFeature.tokens SquadFeature.input_ids
       SquadFeature.token_to_orig_map SquadFeature.token_is_max_context].
  assert (Hpre : len (([CLS] ++ q) ++ [SEP]) = len q + 2).
  { rewrite !len_app, !len_cons, !len_nil. lia. }
  rewrite Hpre in Hnth, Hkeep.
  assert (Hrange : List.length (range 0 (length w))
                   = Z.to_nat (Z.max 0 (length w))).
  { unfold range. rewrite length_range_from. lia. }
  repeat split.
  - unfold convert_tokens_to_ids, len. simpl. now rewrite length_map.
  - exists win. split; [simpl; now rewrite <- !app_assoc|].
    split; [unfold len; rewrite Hlen, Hrange; lia|].
    split.
    + intros k Hk.
      destruct (Hnth (Z.to_nat k) k) as (o & b & t & Ho & Hb & Ht & Hw & H1 & H2).
      { unfold range. rewrite nth_error_range_from by lia. f_equal. lia. }
      exists o, b, t. rewrite Z2Nat.id in H1, H2 by lia. now repeat split.
    + intros key Hkey.
      destruct (Hkeep key) as [-> ->]; [|now split].
      unfold len at 3. rewrite Hrange. lia.
Qed.

End Features.

Section FeatureTheorems.

Variable self : SQuADTransform.

(** The features of a run, each made from the window of its index. *)
Lemma transform_windows fuel example features :
  _transform self fuel example = Some (Return features) ->
  exists tok doc_spans,
    aligned_span self example = Return tok /\
    windows_of self fuel example doc_spans /\
    List.length features = List.length doc_spans /\
    forall i f, nth_error features i = Some f ->
      exists w, nth_error doc_spans i = Some w /\
        make_feature self example (query_tokens_of self example)
          (tok_to_orig_index self example) (all_doc_tokens self example)
          tok doc_spans (Z.of_nat i, w) = Return f.
Proof.
  rewrite transform_eq. unfold windows_of.
  destruct (aligned_span self example) as [tok|]; [|discriminate].
  destruct (split_doc _ _ _ _) as [doc_spans|] eqn:Esplit; [|discriminate].
  intros [= Hrun]. exists tok, doc_spans.
  apply for_each_nth in Hrun. destruct Hrun as [Hlen Hnth].
  unfold enumerate in Hlen. rewrite length_enumerate_from in Hlen.
  repeat split; try assumption.
  intros i f Hf.
  destruct (nth_error doc_spans i) as [w|] eqn:Ew.
  2:{ apply nth_error_None in Ew.
      assert (i < List.length features)%nat
        by (apply nth_error_Some; congruence).
      lia. }
  exists w. split; [reflexivity|].
  destruct (Hnth i (Z.of_nat i, w)) as (b & Hb & Hmake).
  { unfold enumerate. now rewrite (nth_error_enumerate_from _ 0 i w Ew). }
  rewrite Hf in Hb. injection Hb as <-. exact Hmake.
Qed.

(** The feature [i] of a run and the window [i]. *)
Lemma feature_of_window fuel example features doc_spans i f w :
  _transform self fuel example = Some (Return features) ->
  windows_of self fuel example doc_spans ->
  nth_error features i = Some f ->
  nth_error doc_spans i = Some w ->
  (exists tok,
     aligned_span self example = Return tok /\
     make_feature self example (query_tokens_of self example)
       (tok_to_orig_index self example) (all_doc_tokens self example)
       tok doc_spans (Z.of_nat i, w) = Return f) /\
  0 <= start w /\ 1 <= length w /\
  start w + length w <= sub_token_count self example.
Proof.
  intros Hrun Hwin Hf Hw.
  destruct (transform_windows fuel example features Hrun)
    as (tok & doc_spans' & Htok & Hwin' & _ & Hnth).
  unfold windows_of in *. rewrite Hwin in Hwin'. injection Hwin' as <-.
  destruct (Hnth i f Hf) as (w' & Hw' & Hmake).
  rewrite Hw in Hw'. injection Hw' as <-.
  split; [now exists tok|].
  pose proof (split_doc_bounds _ _ _ _ _ Hwin w (nth_error_In _ _ Hw)). lia.
Qed.

(** X18: the features of a run come one per window, in the order of the
    windows: feature [i] has [doc_span_index = i], and it carries the id,
    the question id, the words and the [is_impossible] flag of the
    example. *)
Theorem features_follow_windows fuel example features :
  _transform self fuel example = Some (Return features) ->
  exists doc_spans,
    windows_of self fuel example doc_spans /\
    List.length features = List.length doc_spans /\
    forall i f, nth_error features i = Some f ->
      SquadFeature.doc_span_index f = Z.of_nat i /\
      SquadFeature.example_id f = SquadExample.example_id example /\
      SquadFeature.qas_id f = SquadExample.qas_id example /\
      SquadFeature.doc_tokens f = SquadExample.doc_tokens example /\
      SquadFeature.is_impossible f = SquadExample.is_impossible example.
Proof.
  intros Hrun.
  destruct (transform_windows fuel example features Hrun)
    as (tok & doc_spans & Htok & Hwin & Hlen & Hnth).
  exists doc_spans. split; [assumption|]. split; [assumption|].
  intros i f Hf. destruct (Hnth i f Hf) as (w & Hw & Hmake).
  pose proof (make_feature_shape self example (query_tokens_of self example)
                (tok_to_orig_index self example) (all_doc_tokens self example)
                tok doc_spans (Z.of_nat i) w) as Hshape.
  rewrite Hmake in Hshape.
  destruct Hshape as (_ & _ & _ & _ & _ & Hidx & Himp & _).
  destruct (make_feature_content self _ _ _ _ _ _ _ _ _ Hmake)
    as (Hid & Hqas & Hdoc & _).
  now repeat split.
Qed.

(** X19: the tokens of feature [i] are [[CLS]], the query, [[SEP]], the
    sub-tokens [all_doc_tokens[start : start + length]] of window [i] and
    [[SEP]]; [valid_length] is their number, and [input_ids] are their ids
    followed by the zeros of the padding. *)
Theorem feature_tokens fuel example features doc_spans :
  _transform self fuel example = Some (Return features) ->
  windows_of self fuel example doc_spans ->
  forall i f w,
    nth_error features i = Some f -> nth_error doc_spans i = Some w ->
    SquadFeature.tokens f
      = [CLS] ++ query_tokens_of self example ++ [SEP]
        ++ slice (all_doc_tokens self example) (start w) (start w + length w)
        ++ [SEP] /\
    SquadFeature.valid_length f = len (SquadFeature.tokens f) /\
    SquadFeature.input_ids f
      = convert_tokens_to_ids (tokenizer self) (SquadFeature.tokens f)
        ++ repeat 0 (Z.to_nat (max_seq_length self
                               - SquadFeature.valid_length f)).
Proof.
  intros Hrun Hwin i f w Hf Hw.
  destruct (feature_of_window fuel example features doc_spans i f w
              Hrun Hwin Hf Hw) as ((tok & _ & Hmake) & Hs & Hn & Hsn).
  destruct (make_feature_content self _ _ _ _ _ _ _ _ _ Hmake)
    as (_ & _ & _ & Hvalid & Hids & win & Htokens & Hlen & Hnth & _).
  split; [|now split].
  assert (Hslice : win = slice (all_doc_tokens self example) (start w)
                           (start w + length w)).
  { apply slice_ext; try lia.
    - unfold sub_token_count in Hsn. exact Hsn.
    - intros k Hk.
      destruct (Hnth k Hk) as (o & b & t & _ & _ & Ht & Hwk & _).
      rewrite Hwk. symmetry. apply index_Return; [lia|assumption]. }
  rewrite Htokens, <- Hslice. reflexivity.
Qed.

(** X20: [token_to_orig_map] of feature [i] has one entry for each token of the
    window and no other: the key is the position of the token in the
    feature, the value the index of the word the sub-token comes from. *)
Theorem feature_token_to_orig_map fuel example features doc_spans :
  _transform self fuel example = Some (Return features) ->
  windows_of self fuel example doc_spans ->
  forall i f w,
    nth_error features i = Some f -> nth_error doc_spans i = Some w ->
    let doc_offset := len (query_tokens_of self example) + 2 in
    (forall k, 0 <= k < length w ->
       exists orig,
         nth_error (tok_to_orig_index self example) (Z.to_nat (start w + k))
           = Some orig /\
         dict_get (SquadFeature.token_to_orig_map f) (doc_offset + k)
           = Some orig) /\
    (forall key, key < doc_offset \/ doc_offset + length w <= key ->
       dict_get (SquadFeature.token_to_orig_map f) key = None).
Proof.
  intros Hrun Hwin i f w Hf Hw doc_offset.
  destruct (feature_of_window fuel example features doc_spans i f w
              Hrun Hwin Hf Hw) as ((tok & _ & Hmake) & Hs & Hn & Hsn).
  destruct (make_feature_content self _ _ _ _ _ _ _ _ _ Hmake)
    as (_ & _ & _ & _ & _ & win & _ & _ & Hnth & Hnone).
  split.
  - intros k Hk.
    destruct (Hnth k Hk) as (o & b & t & Ho & _ & _ & _ & Hmap & _).
    exists o. split; [|exact Hmap]. apply index_Return; [lia|assumption].
  - intros key Hkey. apply Hnone. unfold doc_offset in Hkey. lia.
Qed.

(** The windows of a finished run cover the document. *)
Lemma windows_cover fuel example doc_spans p :
  windows_of self fuel example doc_spans ->
  0 <= p < sub_token_count self example ->
  exists w, In w doc_spans /\ in_span w p = true.
Proof.
  unfold windows_of, split_doc. intros Hwin Hp.
  apply doc_spans_loop_chain in Hwin; [|lia|lia].
  apply (window_chain_covers _ _ _ _ _ Hwin). lia.
Qed.

(** X21: on a document of fewer than [2^1023] sub-tokens, every position of the
    document has one window [b] that contains it and in whose feature it is
    flagged as having its maximum context: in the feature of every window
    [i] that contains the position, [token_is_max_context] at the place of
    the position is [True] for [i = b] and [False] otherwise. *)
Theorem feature_max_context fuel example features doc_spans :
  sub_token_count self example < 2 ^ 1023 ->
  _transform self fuel example = Some (Return features) ->
  windows_of self fuel example doc_spans ->
  forall p, 0 <= p < sub_token_count self example ->
    exists b,
      (exists wb, nth_error doc_spans b = Some wb /\ in_span wb p = true) /\
      forall i f w,
        nth_error features i = Some f -> nth_error doc_spans i = Some w ->
        in_span w p = true ->
        dict_get (SquadFeature.token_is_max_context f)
          (len (query_tokens_of self example) + 2 + (p - start w))
        = Some (Nat.eqb i b).
Proof.
  intros HN Hrun Hwin p Hp.
  destruct (check_is_max_context_owner p doc_spans)
    as (b & s & (Hb & wb & Hwb & Hin & _) & Hcheck).
  { intros w Hw _.
    pose proof (split_doc_bounds _ _ _ _ _ Hwin w Hw). lia. }
  { exact (windows_cover fuel example doc_spans p Hwin Hp). }
  exists (Z.to_nat b). split; [now exists wb|].
  intros i f w Hf Hw Hspan. apply in_span_bounds in Hspan.
  destruct (feature_of_window fuel example features doc_spans i f w
              Hrun Hwin Hf Hw) as ((tok & _ & Hmake) & _).
  destruct (make_feature_content self _ _ _ _ _ _ _ _ _ Hmake)
    as (_ & _ & _ & _ & _ & win & _ & _ & Hnth & _).
  destruct (Hnth (p - start w)) as (o & b0 & t & _ & Hb0 & _ & _ & _ & ->);
    [lia|].
  replace (start w + (p - start w)) with p in Hb0 by lia.
  rewrite Hcheck in Hb0. injection Hb0 as <-. f_equal.
  destruct (Z.eqb_spec (Z.of_nat i) b), (Nat.eqb_spec i (Z.to_nat b));
    (reflexivity || lia).
Qed.


(** X23: outside training the labels of the example are not read: the transform
    does on the example what it does on the example without its labels, and
    every feature has [start_position = end_position = 0]. *)
Theorem inference_labels fuel example :
  is_training self = false ->
  _transform self fuel example = _transform self fuel (without_labels example) /\
  forall features,
    _transform self fuel example = Some (Return features) ->
    forall f, In f features ->
      SquadFeature.start_position f = 0 /\ SquadFeature.end_position f = 0.
Proof.
  intros Htr. split.
  { unfold _transform, query_tokens_of, tok_positions, without_labels.
    cbn [SquadExample.qas_id SquadExample.question_text
         SquadExample.doc_tokens SquadExample.example_id
         SquadExample.is_impossible].
    rewrite Htr. cbn [andb].
    destruct (sub_tokenize self (SquadExample.doc_tokens example))
      as [[t2o o2t] all].
    reflexivity. }
  intros features Hrun f Hin.
  destruct (transform_features self fuel example features Hrun)
    as (tok & doc_spans & _ & _ & Hfeat).
  destruct (Hfeat f Hin) as (i & w & _ & _ & Hmake).
  pose proof (make_feature_shape self example (query_tokens_of self example)
                (fst (fst (sub_tokenize self (SquadExample.doc_tokens example))))
                (snd (sub_tokenize self (SquadExample.doc_tokens example)))
                tok doc_spans i w) as Hshape.
  rewrite Hmake in Hshape.
  destruct Hshape as (_ & _ & _ & _ & _ & _ & _ & Hpos).
  unfold label_positions in Hpos. rewrite Htr in Hpos.
  cbn [andb bind] in Hpos. injection Hpos as <- <-. now split.
Qed.

End FeatureTheorems.

(** ** The transform: when it returns, raises or runs for ever *)

Section Outcomes.

Variable self : SQuADTransform.

(** Once the alignment has returned and the window loop has finished, the
    loop over the windows returns. *)
Lemma windows_give_features fuel example tok doc_spans :
  sub_token_count self example < 2 ^ 1023 ->
  aligned_span self example = Return tok ->
  windows_of self fuel example doc_spans ->
  exists features,
    _transform self fuel example = Some (Return features) /\
    List.length features = List.length doc_spans.
Proof.
  intros HN Htok Hsplit. unfold windows_of in Hsplit.
  rewrite transform_eq, Htok, Hsplit.
  set (N := sub_token_count self example) in *.
  set (t2o := fst (fst (sub_tokenize self (SquadExample.doc_tokens example)))).
  set (all := snd (sub_tokenize self (SquadExample.doc_tokens example))).
  assert (Hlen : len t2o = N) by apply sub_tokenize_lengths.
  assert (Hall : len all = N) by reflexivity.
  destruct (for_each_total
              (make_feature self example (query_tokens_of self example)
                 t2o all tok doc_spans) (enumerate doc_spans))
    as (features & -> & Hcount).
  2:{ exists features. split; [reflexivity|].
      rewrite Hcount. apply length_enumerate_from. }
  intros [i w] Hin. apply in_enumerate in Hin. destruct Hin as [Hi Hnth].
  pose proof (nth_error_In _ _ Hnth) as Hw.
  pose proof (split_doc_bounds _ _ _ _ _ Hsplit w Hw) as Hb.
  pose proof (make_feature_shape self example (query_tokens_of self example)
                t2o all tok doc_spans i w) as Hshape.
  destruct (make_feature _ _ _ _ _ _ _ _) as [f|e] eqn:Emake;
    [now exists f|exfalso].
  unfold make_feature in Emake. rewrite query_fold in Emake.
  destruct (for_fold_total
              (window_token_step t2o all doc_spans i w) (range 0 (length w)))
    with (s := (([CLS] ++ query_tokens_of self example) ++ [SEP],
                @nil (Z * Z), @nil (Z * bool),
                ([0] ++ repeat 0 (List.length (query_tokens_of self example)))
                ++ [0]))
    as ([[[tokens m1] m2] seg] & Efold).
  { intros [[[tokens m1] m2] seg] k Hk. apply in_range in Hk.
    unfold window_token_step.
    destruct (index_total t2o (start w + k)) as (o & ->); [lia|]. cbn [bind].
    destruct (check_is_max_context_owner (start w + k) doc_spans)
      as (b & s & _ & Hcheck).
    { intros w' Hw' _.
      pose proof (split_doc_bounds _ _ _ _ _ Hsplit w' Hw'). lia. }
    { exists w. split; [assumption|]. apply in_span_bounds. lia. }
    rewrite Hcheck. cbn [bind].
    destruct (index_total all (start w + k)) as (t & ->); [lia|]. cbn [bind].
    now eexists. }
  rewrite Efold in Emake. cbn [bind] in Emake.
  destruct (negb (len (_ ++ _) =? max_seq_length self)) eqn:A1.
  { injection Emake as <-. unfold max_tokens_for_doc in *. lia. }
  destruct (negb (len ((_ ++ [1]) ++ _) =? max_seq_length self)) eqn:A2.
  { injection Emake as <-. unfold max_tokens_for_doc in *. lia. }
  destruct (label_positions self example (query_tokens_of self example) tok w)
    as [[sp ep]|e'] eqn:Elab; cbn [bind] in Emake; [discriminate|].
  unfold label_positions in Elab.
  destruct (is_training self && negb (SquadExample.is_impossible example))
    eqn:Elabelled.
  - destruct (aligned_span_labelled self example tok Htok Elabelled)
      as ([ts te] & ->).
    cbn [not_none bind] in Elab.
    repeat match type of Elab with
           | context [if ?c then _ else _] => destruct c; cbn [bind] in Elab
           end; discriminate.
  - cbn [bind] in Elab.
    repeat match type of Elab with
           | context [if ?c then _ else _] => destruct c; cbn [bind] in Elab
           end; discriminate.
Qed.

(** X24: on a document of fewer than [2^1023] sub-tokens nothing raises after
    the alignment: if the alignment returns and the window loop finishes,
    the transform returns one feature per window, so that no index is out
    of range, no score overflows and neither assertion fails. *)
Theorem transform_finished fuel example tok doc_spans :
  sub_token_count self example < 2 ^ 1023 ->
  aligned_span self example = Return tok ->
  windows_of self fuel example doc_spans ->
  exists features,
    _transform self fuel example = Some (Return features) /\
    List.length features = List.length doc_spans.
Proof. apply windows_give_features. Qed.

(** X25: with [doc_stride < 1] the outcome depends on the document alone: a
    document of at least one sub-token that fits in one window gives one
    feature, after one iteration of the window loop, and on a longer
    document the window loop does not terminate. *)
Theorem transform_stride_below_one example tok :
  doc_stride self < 1 ->
  aligned_span self example = Return tok ->
  1 <= sub_token_count self example < 2 ^ 1023 ->
  (sub_token_count self example <= max_tokens_for_doc self example ->
   exists f, forall fuel,
     _transform self (S fuel) example = Some (Return [f])) /\
  (max_tokens_for_doc self example < sub_token_count self example ->
   forall fuel, _transform self fuel example = None).
Proof.
  intros Hstride Htok [HN1 HN]. split.
  - intros Hfit.
    assert (Hwin : forall fuel,
              windows_of self (S fuel) example
                [mkDocSpan 0 (sub_token_count self example)]).
    { intros fuel. unfold windows_of, split_doc.
      rewrite doc_spans_loop_last by lia. now rewrite Z.sub_0_r. }
    destruct (windows_give_features 1 example tok _ HN Htok (Hwin 0%nat))
      as ([|f [|? ?]] & Hrun & Hlen); try discriminate.
    exists f. intros fuel.
    rewrite transform_eq, Htok in *.
    pose proof (Hwin fuel) as Hf. pose proof (Hwin 0%nat) as H0.
    unfold windows_of in Hf, H0. rewrite Hf. rewrite H0 in Hrun.
    exact Hrun.
  - intros Hlong fuel. rewrite transform_eq, Htok. unfold split_doc.
    destruct (doc_spans_loop_stuck (sub_token_count self example)
                (max_tokens_for_doc self example) (doc_stride self) fuel 0)
      as (s & l & -> & _); (reflexivity || lia).
Qed.

(** An example without labels in training mode: reading the start of the
    answer raises [TypeError]. *)
Lemma transform_unlabelled example :
  is_training self = true -> unlabelled example ->
  forall fuel, _transform self fuel example = Some (Raise TypeError).
Proof.
  intros Htr (_ & Hstart & _ & Himp) fuel.
  rewrite transform_eq. unfold aligned_span.
  destruct (sub_tokenize self _) as [[t2o o2t] all].
  unfold tok_positions. rewrite Htr, Himp, Hstart. reflexivity.
Qed.

(** X26: examples read outside training cannot be transformed for training: on
    each of them the transform raises [TypeError]. *)
Theorem transform_read_inference version_2 input_data examples :
  is_training self = true ->
  _read false version_2 input_data = Return examples ->
  forall example, In example examples ->
  forall fuel, _transform self fuel example = Some (Raise TypeError).
Proof.
  intros Htr Hread example Hin. apply transform_unlabelled; [assumption|].
  unfold _read in Hread.
  destruct (read_entries_inference version_2 input_data [] 0)
    as (new & E & _ & _ & Hun).
  rewrite E in Hread. cbn [bind fst app] in Hread. injection Hread as <-.
  rewrite Forall_forall in Hun. now apply Hun.
Qed.

(** X27: [__call__] gives one row per feature: the id of the example, ids and
    segment ids of [max_seq_length] entries each, a [valid_length] that
    leaves room for [[CLS]], the query and the two [[SEP]], and the labels.
    It raises what [_transform] raises, and does not terminate where
    [_transform] does not. *)
Theorem call_rows fuel example :
  (forall rows, __call__ self fuel example = Some (Return rows) ->
     exists features,
       _transform self fuel example = Some (Return features) /\
       List.length rows = List.length features /\
       forall row, In row rows ->
         let '(example_id, input_ids, segment_ids, valid_length, _, _) := row in
         example_id = SquadExample.example_id example /\
         len input_ids = max_seq_length self /\
         len segment_ids = max_seq_length self /\
         len (query_tokens_of self example) + 3 <= valid_length
           <= max_seq_length self) /\
  (forall e, __call__ self fuel example = Some (Raise e) <->
             _transform self fuel example = Some (Raise e)) /\
  (__call__ self fuel example = None <-> _transform self fuel example = None).
Proof.
  unfold __call__.
  destruct (_transform self fuel example) as [[features|e0]|] eqn:Hrun.
  2:{ split; [discriminate|].
      split; [intros e; split; intros [= ->]; reflexivity|split; discriminate]. }
  2:{ split; [discriminate|].
      split; [intros e; split; discriminate|split; reflexivity]. }
  split; [|split; [split; discriminate|split; discriminate]].
  intros rows [= <-]. exists features. split; [reflexivity|].
  split; [apply length_map|].
  intros row Hrow. apply in_map_iff in Hrow. destruct Hrow as (f & <- & Hf).
  destruct (transform_features self fuel example features Hrun)
    as (tok & doc_spans & _ & _ & Hfeat).
  destruct (Hfeat f Hf) as (i & w & _ & _ & Hmake).
  pose proof (make_feature_shape self example (query_tokens_of self example)
                (fst (fst (sub_tokenize self (SquadExample.doc_tokens example))))
                (snd (sub_tokenize self (SquadExample.doc_tokens example)))
                tok doc_spans i w) as Hshape.
  rewrite Hmake in Hshape.
  destruct Hshape as (Hvalid & Hmax & Hids & Hseg & _).
  destruct (make_feature_content self _ _ _ _ _ _ _ _ _ Hmake) as (Hid & _).
  repeat split; try assumption; lia.
Qed.

End Outcomes.

(** ** The aligned span of a well-formed example *)

Lemma word_offsets_lower tokenize l : forall n i o,
  nth_error (word_offsets tokenize n l) i = Some o -> n <= o.
Proof.
  induction l as [|w l IH]; intros n i o Hi; [destruct i; discriminate|].
  destruct i as [|i]; cbn [word_offsets nth_error] in Hi.
  - injection Hi as <-. lia.
  - apply IH in Hi. pose proof (len_nonneg (tokenize w)). lia.
Qed.

Lemma word_offsets_upper tokenize l :
  (forall w, In w l -> tokenize w <> []) ->
  forall n i o,
    nth_error (word_offsets tokenize n l) i = Some o ->
    o < n + len (flat_map tokenize l).
Proof.
  induction l as [|w l IH]; intros Hne n i o Hi; [destruct i; discriminate|].
  assert (Hw : 1 <= len (tokenize w)).
  { specialize (Hne w (or_introl eq_refl)).
    destruct (tokenize w); [contradiction|]. rewrite len_cons.
    pose proof (len_nonneg l0). lia. }
  cbn [flat_map]. rewrite len_app.
  destruct i as [|i]; cbn [word_offsets nth_error] in Hi.
  - injection Hi as <-. pose proof (len_nonneg (flat_map tokenize l)). lia.
  - apply IH in Hi; [lia|]. intros w' Hw'. apply Hne. now right.
Qed.

Lemma word_offsets_increasing tokenize l :
  (forall w, In w l -> tokenize w <> []) ->
  forall n i j oi oj,
    nth_error (word_offsets tokenize n l) i = Some oi ->
    nth_error (word_offsets tokenize n l) j = Some oj ->
    (i < j)%nat -> oi < oj.
Proof.
  induction l as [|w l IH]; intros Hne n i j oi oj Hi Hj Hij;
    [destruct i; discriminate|].
  assert (Hw : 1 <= len (tokenize w)).
  { specialize (Hne w (or_introl eq_refl)).
    destruct (tokenize w); [contradiction|]. rewrite len_cons.
    pose proof (len_nonneg l0). lia. }
  destruct j as [|j]; [lia|]. cbn [word_offsets nth_error] in Hj.
  destruct i as [|i]; cbn [word_offsets nth_error] in Hi.
  - injection Hi as <-. apply word_offsets_lower in Hj. lia.
  - apply (IH (fun w' Hw' => Hne w' (or_intror Hw'))
             (n + len (tokenize w)) i j); (assumption || lia).
Qed.

Section AlignedSpan.

Variable self : SQuADTransform.

(** X28: where the tokenizer gives at least one sub-token for every word of the
    document and the word span of the example is in range and ordered, the
    aligned span is ordered, and for an answerable example it lies in the
    document. *)
Theorem aligned_span_ordered example tok_start_position tok_end_position :
  (forall token, In token (SquadExample.doc_tokens example) ->
     tokenize (tokenizer self) token <> []) ->
  word_span_ok example ->
  aligned_span self example
    = Return (Some (tok_start_position, tok_end_position)) ->
  tok_start_position <= tok_end_position /\
  (SquadExample.is_impossible example = false ->
   0 <= tok_start_position /\
   tok_end_position < sub_token_count self example).
Proof.
  intros Hne (sw & ew & Hstart & Hend & Hsw & Hord & Hew).
  unfold aligned_span, sub_token_count.
  rewrite sub_tokenize_closed_form. cbn [snd].
  set (o2t := word_offsets (tokenize (tokenizer self)) 0
                (SquadExample.doc_tokens example)).
  set (all := flat_map (tokenize (tokenizer self))
                (SquadExample.doc_tokens example)).
  unfold tok_positions. rewrite Hstart, Hend.
  destruct (is_training self); cbn [andb];
    [|discriminate].
  destruct (SquadExample.is_impossible example); cbn [negb].
  { intros [= <- <-]. split; [lia|discriminate]. }
  cbn [not_none bind].
  destruct (index o2t sw) as [o1|] eqn:E1; cbn [bind]; [|discriminate].
  apply index_Return in E1; [|lia].
  assert (Hfin : forall te0 text ts te,
            o1 <= te0 -> te0 < len all ->
            _improve_answer_span all o1 te0 (tokenize (tokenizer self)) text
              = (ts, te) ->
            ts <= te /\ (false = false -> 0 <= ts /\ te < len all)).
  { intros te0 text ts te H1 H2 Himp.
    pose proof (word_offsets_lower _ _ _ _ _ E1) as Hlow.
    apply improve_answer_span_cases in Himp.
    destruct Himp as [[= -> ->]|(Ha & Hb & Hc & _)];
      (split; [lia|intros _; lia]). }
  destruct (Z.ltb_spec ew (len (SquadExample.doc_tokens example) - 1))
    as [Hlt|Hge].
  - destruct (index o2t (ew + 1)) as [t|] eqn:E2; cbn [bind]; [|discriminate].
    apply index_Return in E2; [|lia].
    destruct (SquadExample.orig_answer_text example) as [text|];
      cbn [not_none bind]; [|discriminate].
    intros [= Himp].
    assert (Hinc : o1 < t).
    { apply (word_offsets_increasing _ _ Hne 0 (Z.to_nat sw)
               (Z.to_nat (ew + 1))); (assumption || lia). }
    pose proof (word_offsets_upper _ _ Hne _ _ _ E2) as Hup. fold all in Hup.
    apply (Hfin (t - 1) text); (assumption || lia).
  - cbn [bind].
    destruct (SquadExample.orig_answer_text example) as [text|];
      cbn [not_none bind]; [|discriminate].
    intros [= Himp].
    pose proof (word_offsets_upper _ _ Hne _ _ _ E1) as Hup. fold all in Hup.
    apply (Hfin (len all - 1) text); (assumption || lia).
Qed.

End AlignedSpan.

(** ** The statements at the examples *)

Lemma read_impossible_witness :
  _read true true ReaderExamples.impossible_question
    = Return [ReaderExamples.impossible_example] /\
  In ReaderExamples.impossible_example [ReaderExamples.impossible_example] /\
  SquadExample.is_impossible ReaderExamples.impossible_example = true /\
  true = true /\
  SquadExample.start_position ReaderExamples.impossible_example = Some (-1) /\
  SquadExample.end_position ReaderExamples.impossible_example = Some (-1) /\
  SquadExample.orig_answer_text ReaderExamples.impossible_example = Some [].
Proof.
  assert (H1 : _read true true ReaderExamples.impossible_question
               = Return [ReaderExamples.impossible_example]) by reflexivity.
  assert (H2 : In ReaderExamples.impossible_example
                 [ReaderExamples.impossible_example]) by (left; reflexivity).
  assert (H3 : SquadExample.is_impossible ReaderExamples.impossible_example
               = true) by reflexivity.
  split; [exact H1|]. split; [exact H2|]. split; [exact H3|].
  exact (read_impossible true _ _ H1 _ H2 H3).
Defined.

Lemma features_follow_windows_witness :
  _transform WindowExamples.narrow 2 TransformExamples.labelled
    = Some (Return [WindowExamples.first_feature;
                    WindowExamples.second_feature]) /\
  exists doc_spans,
    windows_of WindowExamples.narrow 2 TransformExamples.labelled doc_spans /\
    List.length [WindowExamples.first_feature; WindowExamples.second_feature]
      = List.length doc_spans /\
    forall i f,
      nth_error [WindowExamples.first_feature; WindowExamples.second_feature] i
        = Some f ->
      SquadFeature.doc_span_index f = Z.of_nat i /\
      SquadFeature.example_id f
        = SquadExample.example_id TransformExamples.labelled /\
      SquadFeature.qas_id f = SquadExample.qas_id TransformExamples.labelled /\
      SquadFeature.doc_tokens f
        = SquadExample.doc_tokens TransformExamples.labelled /\
      SquadFeature.is_impossible f
        = SquadExample.is_impossible TransformExamples.labelled.
Proof.
  assert (H : _transform WindowExamples.narrow 2 TransformExamples.labelled
              = Some (Return [WindowExamples.first_feature;
                              WindowExamples.second_feature]))
    by reflexivity.
  split; [exact H|].
  exact (features_follow_windows WindowExamples.narrow 2
           TransformExamples.labelled _ H).
Defined.

Lemma feature_tokens_witness :
  _transform WindowExamples.narrow 2 TransformExamples.labelled
    = Some (Return [WindowExamples.first_feature;
                    WindowExamples.second_feature]) /\
  windows_of WindowExamples.narrow 2 TransformExamples.labelled
    [mkDocSpan 0 1; mkDocSpan 1 1] /\
  nth_error [WindowExamples.first_feature; WindowExamples.second_feature] 1
    = Some WindowExamples.second_feature /\
  nth_error [mkDocSpan 0 1; mkDocSpan 1 1] 1 = Some (mkDocSpan 1 1) /\
  SquadFeature.tokens WindowExamples.second_feature
    = [CLS] ++ query_tokens_of WindowExamples.narrow TransformExamples.labelled
      ++ [SEP]
      ++ slice (all_doc_tokens WindowExamples.narrow TransformExamples.labelled)
           (start (mkDocSpan 1 1))
           (start (mkDocSpan 1 1) + length (mkDocSpan 1 1))
      ++ [SEP] /\
  SquadFeature.valid_length WindowExamples.second_feature
    = len (SquadFeature.tokens WindowExamples.second_feature) /\
  SquadFeature.input_ids WindowExamples.second_feature
    = convert_tokens_to_ids (tokenizer WindowExamples.narrow)
        (SquadFeature.tokens WindowExamples.second_feature)
      ++ repeat 0
           (Z.to_nat (max_seq_length WindowExamples.narrow
                      - SquadFeature.valid_length
                          WindowExamples.second_feature)).
Proof.
  assert (H1 : _transform WindowExamples.narrow 2 TransformExamples.labelled
               = Some (Return [WindowExamples.first_feature;
                               WindowExamples.second_feature]))
    by reflexivity.
  assert (H2 : windows_of WindowExamples.narrow 2 TransformExamples.labelled
                 [mkDocSpan 0 1; mkDocSpan 1 1]) by reflexivity.
  assert (H3 : nth_error [WindowExamples.first_feature;
                          WindowExamples.second_feature] 1
               = Some WindowExamples.second_feature) by reflexivity.
  assert (H4 : nth_error [mkDocSpan 0 1; mkDocSpan 1 1] 1
               = Some (mkDocSpan 1 1)) by reflexivity.
  split; [exact H1|]. split; [exact H2|]. split; [exact H3|].
  split; [exact H4|].
  exact (feature_tokens WindowExamples.narrow 2 TransformExamples.labelled
           _ _ H1 H2 1%nat _ _ H3 H4).
Defined.

Lemma feature_token_to_orig_map_witness :
  _transform WindowExamples.narrow 2 TransformExamples.labelled
    = Some (Return [WindowExamples.first_feature;
                    WindowExamples.second_feature]) /\
  windows_of WindowExamples.narrow 2 TransformExamples.labelled
    [mkDocSpan 0 1; mkDocSpan 1 1] /\
  nth_error [WindowExamples.first_feature; WindowExamples.second_feature] 1
    = Some WindowExamples.second_feature /\
  nth_error [mkDocSpan 0 1; mkDocSpan 1 1] 1 = Some (mkDocSpan 1 1) /\
  (exists orig,
     nth_error (tok_to_orig_index WindowExamples.narrow
                  TransformExamples.labelled) 1 = Some orig /\
     dict_get (SquadFeature.token_to_orig_map WindowExamples.second_feature) 3
       = Some orig) /\
  dict_get (SquadFeature.token_to_orig_map WindowExamples.second_feature) 4
    = None.
Proof.
  assert (H1 : _transform WindowExamples.narrow 2 TransformExamples.labelled
               = Some (Return [WindowExamples.first_feature;
                               WindowExamples.second_feature]))
    by reflexivity.
  assert (H2 : windows_of WindowExamples.narrow 2 TransformExamples.labelled
                 [mkDocSpan 0 1; mkDocSpan 1 1]) by reflexivity.
  assert (H3 : nth_error [WindowExamples.first_feature;
                          WindowExamples.second_feature] 1
               = Some WindowExamples.second_feature) by reflexivity.
  assert (H4 : nth_error [mkDocSpan 0 1; mkDocSpan 1 1] 1
               = Some (mkDocSpan 1 1)) by reflexivity.
  split; [exact H1|]. split; [exact H2|]. split; [exact H3|].
  split; [exact H4|].
  destruct (feature_token_to_orig_map WindowExamples.narrow 2
              TransformExamples.labelled _ _ H1 H2 1%nat _ _ H3 H4)
    as [Hin Hout].
  split.
  - exact (Hin 0 ltac:(simpl; lia)).
  - exact (Hout 4 ltac:(right; vm_compute; discriminate)).
Defined.

Lemma feature_max_context_witness :
  sub_token_count WindowExamples.narrow TransformExamples.labelled < 2 ^ 1023 /\
  _transform WindowExamples.narrow 2 TransformExamples.labelled
    = Some (Return [WindowExamples.first_feature;
                    WindowExamples.second_feature]) /\
  windows_of WindowExamples.narrow 2 TransformExamples.labelled
    [mkDocSpan 0 1; mkDocSpan 1 1] /\
  0 <= 1 < sub_token_count WindowExamples.narrow TransformExamples.labelled /\
  exists b,
    (exists wb, nth_error [mkDocSpan 0 1; mkDocSpan 1 1] b = Some wb /\
                in_span wb 1 = true) /\
    forall i f w,
      nth_error [WindowExamples.first_feature; WindowExamples.second_feature] i
        = Some f ->
      nth_error [mkDocSpan 0 1; mkDocSpan 1 1] i = Some w ->
      in_span w 1 = true ->
      dict_get (SquadFeature.token_is_max_context f)
        (len (query_tokens_of WindowExamples.narrow TransformExamples.labelled)
         + 2 + (1 - start w))
      = Some (Nat.eqb i b).
Proof.
  assert (H0 : sub_token_count WindowExamples.narrow TransformExamples.labelled
               < 2 ^ 1023) by (vm_compute; reflexivity).
  assert (H1 : _transform WindowExamples.narrow 2 TransformExamples.labelled
               = Some (Return [WindowExamples.first_feature;
                               WindowExamples.second_feature]))
    by reflexivity.
  assert (H2 : windows_of WindowExamples.narrow 2 TransformExamples.labelled
                 [mkDocSpan 0 1; mkDocSpan 1 1]) by reflexivity.
  assert (H3 : 0 <= 1 < sub_token_count WindowExamples.narrow
                          TransformExamples.labelled)
    by (vm_compute; split; [discriminate|reflexivity]).
  split; [exact H0|]. split; [exact H1|]. split; [exact H2|].
  split; [exact H3|].
  exact (feature_max_context WindowExamples.narrow 2
           TransformExamples.labelled _ _ H0 H1 H2 1 H3).
Defined.


Lemma inference_labels_witness :
  is_training TransformExamples.inference = false /\
  _transform TransformExamples.inference 2 TransformExamples.labelled
    = _transform TransformExamples.inference 2
        (without_labels TransformExamples.labelled) /\
  forall features,
    _transform TransformExamples.inference 2 TransformExamples.labelled
      = Some (Return features) ->
    forall f, In f features ->
      SquadFeature.start_position f = 0 /\ SquadFeature.end_position f = 0.
Proof.
  assert (H : is_training TransformExamples.inference = false) by reflexivity.
  split; [exact H|].
  exact (inference_labels TransformExamples.inference 2
           TransformExamples.labelled H).
Defined.

Lemma transform_finished_witness :
  sub_token_count WindowExamples.narrow TransformExamples.labelled < 2 ^ 1023 /\
  aligned_span WindowExamples.narrow TransformExamples.labelled
    = Return (Some (1, 1)) /\
  windows_of WindowExamples.narrow 2 TransformExamples.labelled
    [mkDocSpan 0 1; mkDocSpan 1 1] /\
  exists features,
    _transform WindowExamples.narrow 2 TransformExamples.labelled
      = Some (Return features) /\
    List.length features = List.length [mkDocSpan 0 1; mkDocSpan 1 1].
Proof.
  assert (H0 : sub_token_count WindowExamples.narrow TransformExamples.labelled
               < 2 ^ 1023) by (vm_compute; reflexivity).
  assert (H1 : aligned_span WindowExamples.narrow TransformExamples.labelled
               = Return (Some (1, 1))) by reflexivity.
  assert (H2 : windows_of WindowExamples.narrow 2 TransformExamples.labelled
                 [mkDocSpan 0 1; mkDocSpan 1 1]) by reflexivity.
  split; [exact H0|]. split; [exact H1|]. split; [exact H2|].
  exact (transform_finished WindowExamples.narrow 2
           TransformExamples.labelled _ _ H0 H1 H2).
Defined.

Lemma transform_stride_below_one_witness :
  doc_stride WindowExamples.stuck < 1 /\
  aligned_span WindowExamples.stuck TransformExamples.labelled
    = Return (Some (1, 1)) /\
  1 <= sub_token_count WindowExamples.stuck TransformExamples.labelled
    < 2 ^ 1023 /\
  forall fuel,
    _transform WindowExamples.stuck fuel TransformExamples.labelled = None.
Proof.
  assert (H0 : doc_stride WindowExamples.stuck < 1) by (simpl; lia).
  assert (H1 : aligned_span WindowExamples.stuck TransformExamples.labelled
               = Return (Some (1, 1))) by reflexivity.
  assert (H2 : 1 <= sub_token_count WindowExamples.stuck
                      TransformExamples.labelled < 2 ^ 1023)
    by (vm_compute; split; [discriminate|reflexivity]).
  split; [exact H0|]. split; [exact H1|]. split; [exact H2|].
  exact (proj2 (transform_stride_below_one WindowExamples.stuck
                  TransformExamples.labelled _ H0 H1 H2)
           ltac:(vm_compute; reflexivity)).
Defined.

Lemma transform_read_inference_witness :
  is_training TransformExamples.training = true /\
  _read false false Examples.one_question
    = Return [ReaderExamples.unlabelled_example] /\
  In ReaderExamples.unlabelled_example [ReaderExamples.unlabelled_example] /\
  forall fuel,
    _transform TransformExamples.training fuel
      ReaderExamples.unlabelled_example = Some (Raise TypeError).
Proof.
  assert (H0 : is_training TransformExamples.training = true) by reflexivity.
  assert (H1 : _read false false Examples.one_question
               = Return [ReaderExamples.unlabelled_example]) by reflexivity.
  assert (H2 : In ReaderExamples.unlabelled_example
                 [ReaderExamples.unlabelled_example]) by (left; reflexivity).
  split; [exact H0|]. split; [exact H1|]. split; [exact H2|].
  exact (transform_read_inference TransformExamples.training false _ _
           H0 H1 _ H2).
Defined.

Lemma aligned_span_ordered_witness :
  (forall token, In token (SquadExample.doc_tokens TransformExamples.labelled) ->
     tokenize (tokenizer TransformExamples.training) token <> []) /\
  word_span_ok TransformExamples.labelled /\
  aligned_span TransformExamples.training TransformExamples.labelled
    = Return (Some (1, 1)) /\
  1 <= 1 /\
  (SquadExample.is_impossible TransformExamples.labelled = false ->
   0 <= 1 /\
   1 < sub_token_count TransformExamples.training TransformExamples.labelled).
Proof.
  assert (H0 : forall token,
            In token (SquadExample.doc_tokens TransformExamples.labelled) ->
            tokenize (tokenizer TransformExamples.training) token <> []).
  { intros token [<-|[<-|[]]]; vm_compute; discriminate. }
  assert (H1 : word_span_ok TransformExamples.labelled).
  { exists 1, 1. repeat split; (reflexivity || lia). }
  assert (H2 : aligned_span TransformExamples.training
                 TransformExamples.labelled = Return (Some (1, 1)))
    by reflexivity.
  split; [exact H0|]. split; [exact H1|]. split; [exact H2|].
  exact (aligned_span_ordered TransformExamples.training
           TransformExamples.labelled 1 1 H0 H1 H2).
Defined.
